(** * Review bot of gh-actions-poc: a shallow embedding and its properties

    The development follows the Go sources of the repository:
    - [tool/ci/pkg/environment/environment.go]: the reviewer policy
      ([GetReviewersForAuthor], [IsInternal]);
    - [tool/ci/pkg/bot/bot.go]: the comment gate ([commentPermitsRun]) and
      the workflow-run reconciler ([DismissStaleWorkflowRuns], [deleteRuns],
      [getSortedWorkflowRuns], [getWorkflow], [ReRunWorkflows],
      [redoMostRecentRun]);
    - [tool/ci/.history/pkg/bot/check_20210927095724.go]: the approval check
      ([approved], [hasApproved], [mostRecent], [dismissMessage],
      [hasNewCommit], [verifyCommit], [invalidateApprovals]).

    Conventions of the embedding.
    - A Go value reached through a pointer is an [option]; [None] is the nil
      pointer, and dereferencing it is the outcome [Panic].
    - A Go function returning [(T, error)] returns an [outcome T]; a function
      returning only [error] returns an [outcome unit], [Ok tt] being [nil].
    - Calls to the repository host are recorded, in order, in a log of
      [Call]s; what the host answers is given by a [Client], a record of
      response functions that may depend on the calls made so far.
    - [int64] identifiers and instants of time are integers ([Z]); none of
      the properties below depends on their range. *)

From Stdlib Require Import ZArith Lia.
From stdpp Require Import base option list sorting gmap strings.

Open Scope Z_scope.

(** ** Errors and outcomes *)

(** The error values built by the code.  [BadParameter format args] and
    [NotFound format args] stand for the calls [trace.BadParameter] and
    [trace.NotFound] with the format string and the arguments the caller
    hands over; [HostError e] is an error value returned by a call to the
    repository host. *)
Inductive error : Type :=
  | BadParameter (format : string) (args : list string)
  | NotFound (format : string) (args : list string)
  | HostError (e : string).

(** [trace.Wrap] attaches a stack trace to an error and leaves its kind and
    its message as they are. *)
Definition Wrap (e : error) : error := e.

Inductive outcome (A : Type) : Type :=
  | Ok (a : A)
  | Err (e : error)
  | Panic.

Arguments Ok {A} a.
Arguments Err {A} e.
Arguments Panic {A}.

Definition obind {A B : Type} (m : outcome A) (k : A -> outcome B) : outcome B :=
  match m with
  | Ok a => k a
  | Err e => Err e
  | Panic => Panic
  end.

(** [*p] for a pointer [p]. *)
Definition deref {A : Type} (p : option A) : outcome A :=
  match p with
  | Some a => Ok a
  | None => Panic
  end.

Declare Scope outcome_scope.
Delimit Scope outcome_scope with outcome.
Notation "'let*' x ':=' m 'in' k" := (obind m (fun x => k))
  (at level 10, x name, m at level 100, k at level 200) : outcome_scope.

(** ** Strings *)

(** [strings.Contains(s, substr)]: [substr] occurs in [s] at some offset. *)
Fixpoint Contains (s substr : string) : bool :=
  String.prefix substr s
  || match s with
     | EmptyString => false
     | String _ s' => Contains s' substr
     end.

(** [strings.Join(elems, sep)]. *)
Fixpoint Join (elems : list string) (sep : string) : string :=
  match elems with
  | [] => ""
  | [x] => x
  | x :: rest => x +:+ sep +:+ Join rest sep
  end.

(** ** Constants of package [ci] *)

(** [ci.RUNCI]: the declaration is not among the sources; the value is the one
    the comment on [commentPermitsRun] and its test give
    (the comment body contains the string "run ci"). *)
Definition RUNCI : string := "run ci".

(** [ci.Owner], named in the condition that [commentPermitsRun] has commented
    out; the test uses the association "OWNER". *)
Definition Owner : string := "OWNER".

(** ** Values exchanged with the repository host (package [github]) *)

Record User : Type := { user_Login : option string }.

(** [github.PullRequestComment], the fields the bot reads. *)
Record PullRequestComment : Type := {
  comment_CommitID : option string;
  comment_Body : option string;
  comment_AuthorAssociation : option string;
  comment_User : option User
}.

(** [github.CommitsComparison]: [Files] is the list of changed files, by name. *)
Record CommitsComparison : Type := { comparison_Files : list string }.

Record SignatureVerification : Type := {
  verification_Verified : option bool;
  verification_Payload : option string
}.

Record Commit : Type := { commit_Verification : option SignatureVerification }.

Record RepositoryCommit : Type := { repocommit_Commit : option Commit }.

Record Workflow : Type := {
  workflow_ID : option Z;
  workflow_Name : option string
}.

Record WorkflowRun : Type := {
  run_ID : option Z;
  run_WorkflowID : option Z;
  run_HeadBranch : option string;
  run_CreatedAt : option Z
}.

(** The getter [GetID] of a workflow run: the identifier, or zero when the
    field is nil. *)
Definition GetID (r : WorkflowRun) : Z := default 0 (run_ID r).

(** ** The host: requests and responses *)

(** A request the bot sends to the host.  [CallDeleteRun owner repo runID] is
    the DELETE request that [deleteRun] builds for
    repos/owner/repo/actions/runs/runID; [CallListReviews] is the request of
    [getReviews] and [CallListPullRequests] that of the sweep over the open
    pull requests. *)
Inductive Call : Type :=
  | CallCompareCommits (owner repo base head : string)
  | CallGetCommit (owner repo sha : string)
  | CallDismissReview (owner repo : string) (number id : Z) (message : string)
  | CallListWorkflows (owner repo : string)
  | CallListWorkflowRunsByID (owner repo : string) (workflowID : Z) (branch : string)
  | CallRerunWorkflowByID (owner repo : string) (id : Z)
  | CallDeleteRun (owner repo : string) (runID : Z)
  | CallListReviews (owner repo : string) (number : Z)
  | CallListPullRequests (owner repo : string).

(** [*github.Client]: what the host answers to each request, given the
    requests it has received before. *)
Record Client : Type := {
  Repositories_CompareCommits :
    list Call -> string -> string -> string -> string -> outcome CommitsComparison;
  Repositories_GetCommit :
    list Call -> string -> string -> string -> outcome RepositoryCommit;
  PullRequests_DismissReview :
    list Call -> string -> string -> Z -> Z -> string -> outcome unit;
  Actions_ListWorkflows :
    list Call -> string -> string -> outcome (list Workflow);
  Actions_ListWorkflowRunsByID :
    list Call -> string -> string -> Z -> string -> outcome (list WorkflowRun);
  Actions_RerunWorkflowByID :
    list Call -> string -> string -> Z -> outcome unit;
  (* the DELETE request of [deleteRun]: building it and sending it *)
  Do_DeleteRun :
    list Call -> string -> string -> Z -> outcome unit
}.

(** Code that talks to the host: it reads the log of the requests made so
    far, and returns an outcome and the extended log. *)
Definition M (A : Type) : Type := list Call -> outcome A * list Call.

Definition ret {A : Type} (a : A) : M A := fun log => (Ok a, log).

Definition fail {A : Type} (e : error) : M A := fun log => (Err e, log).

Definition lift {A : Type} (o : outcome A) : M A := fun log => (o, log).

Definition bind {A B : Type} (m : M A) (k : A -> M B) : M B :=
  fun log =>
    match m log with
    | (Ok a, log') => k a log'
    | (Err e, log') => (Err (Wrap e), log')
    | (Panic, log') => (Panic, log')
    end.

(** One request: the host answers from the log as it stands, and the request
    is appended to it. *)
Definition request {A : Type} (c : Call) (response : list Call -> outcome A) : M A :=
  fun log => (response log, log ++ [c]).

Declare Scope host_scope.
Delimit Scope host_scope with host.
Notation "x <- m ;; k" := (bind m (fun x => k))
  (at level 100, m at next level, right associativity) : host_scope.

(** ** Package [environment] *)

(** [environment.Metadata]: the pull request of the current context (the
    field [PullRequest] of the environment in the check file). *)
Record Metadata : Type := {
  Author : string;
  RepoName : string;
  RepoOwner : string;
  Number : Z;
  HeadSHA : string;
  BaseSHA : string;
  BranchName : string
}.

(** [environment.PullRequestEnvironment]. *)
Record PullRequestEnvironment : Type := {
  env_Client : option Client;
  env_Metadata : option Metadata;
  Reviewers : gmap string (list string);
  defaultReviewers : list string
}.

(** [GetReviewersForAuthor] gets the required reviewers for the current user. *)
Definition GetReviewersForAuthor (e : PullRequestEnvironment) (user : string) : list string :=
  match Reviewers e !! user with
  | None => defaultReviewers e
  | Some value => value
  end.

(** [IsInternal] determines if an author is an internal contributor. *)
Definition IsInternal (e : PullRequestEnvironment) (author : string) : bool :=
  match Reviewers e !! author with
  | None => false
  | Some _ => true
  end.

(** ** Package [bot] *)

Record Bot : Type := {
  Environment : option PullRequestEnvironment;
  GithubClient : option Client
}.

(** *** The comment gate ([bot.go]) *)

(** The loop over [admins] of [commentPermitsRun]; the comparison with
    [ci.Owner] is commented out in the source and so is absent here. *)
Fixpoint commentPermitsRun_admins (comment : PullRequestComment) (admins : list string)
  : outcome bool :=
  match admins with
  | [] => Ok false
  | admin :: admins' =>
      (let* user := deref (comment_User comment) in
       let* login := deref (user_Login user) in
       if decide (login = admin) then Ok true
       else commentPermitsRun_admins comment admins')%outcome
  end.

Definition commentPermitsRun (c : Bot) (comment : PullRequestComment) : outcome bool :=
  (let* env := deref (Environment c) in
   let* pr := deref (env_Metadata env) in
   let* commitID := deref (comment_CommitID comment) in
   if decide (commitID <> HeadSHA pr) then Ok false
   else
     let* body := deref (comment_Body comment) in
     if negb (Contains body RUNCI) then Ok false
     else
       let admins := GetReviewersForAuthor env "" in
       commentPermitsRun_admins comment admins)%outcome.

(** *** The approval check ([check_20210927095724.go]) *)

(** [review] is a pull request review. *)
Record review : Type := {
  rev_name : string;
  rev_status : string;
  rev_commitID : string;
  rev_id : Z;
  rev_submittedAt : option Z
}.

(** [t.After(u)] on instants of time. *)
Definition After (t u : Z) : bool := u <? t.

Section CheckAndReconcile.

(** Constants of package [ci] whose declarations are not among the sources:
    the review state [ci.Approved], the payload marker [ci.GithubCommit] and
    the workflow names [ci.CheckWorkflow] and [ci.AssignWorkflow]. *)
Variable Approved : string.
Variable GithubCommit : string.
Variable CheckWorkflow : string.
Variable AssignWorkflow : string.

Fixpoint hasApproved (reviewer : string) (reviews : list review) : string * bool :=
  match reviews with
  | [] => (reviewer, false)
  | rev :: reviews' =>
      if bool_decide (rev_name rev = reviewer) && bool_decide (rev_status rev = Approved)
      then ("", true)
      else hasApproved reviewer reviews'
  end.

(** [login] has, among [reviews], a review in the approved state. *)
Definition approvedBy (reviews : list review) (login : string) : Prop :=
  Exists (fun rev => rev_name rev = login /\ rev_status rev = Approved) reviews.

(** The first loop of [approved]: the slice [waitingOnApprovalsFrom] once
    every required reviewer has been looked at. *)
Definition waitingOnApprovalsFrom (mostRecentReviews : list review) (required : list string)
  : list string :=
  fold_left
    (fun waiting requiredReviewer =>
       let '(reviewer, ok) := hasApproved requiredReviewer mostRecentReviews in
       if negb ok then waiting ++ [reviewer] else waiting)
    required [].

(** The [switch] of [approved].  [fmt.Sprintf] with the verb [%s] puts the
    string argument in the place of the verb. *)
Definition approved_message (waitingOnApprovalsFrom : list string) : outcome unit :=
  let len := length waitingOnApprovalsFrom in
  if (len =? 1)%nat then
    Err (BadParameter
           ("required reviewers have not yet approved, waiting on an approval from "
              +:+ Join waitingOnApprovalsFrom "") [])
  else if (len =? 2)%nat then
    Err (BadParameter
           ("required reviewers have not yet approved, waiting for approvals from "
              +:+ Join waitingOnApprovalsFrom " and ") [])
  else if (2 <? len)%nat then
    let lastReviewer := default "" (waitingOnApprovalsFrom !! (len - 1)%nat) in
    let waitingOnApprovalsFrom := take (len - 1) waitingOnApprovalsFrom in
    Err (BadParameter
           ("required reviewers have not yet approved, waiting for approvals from "
              +:+ Join waitingOnApprovalsFrom ", " +:+ ", and " +:+ lastReviewer) [])
  else Ok tt.

Definition approved (mostRecentReviews : list review) (required : list string) : outcome unit :=
  approved_message (waitingOnApprovalsFrom mostRecentReviews required).

(** One iteration of the first loop of [mostRecent]. *)
Definition mostRecent_step (mostRecentReviews : gmap string review) (rev : review)
  : outcome (gmap string review) :=
  match mostRecentReviews !! rev_name rev with
  | None => Ok (<[rev_name rev := rev]> mostRecentReviews)
  | Some val =>
      (let* currTime := deref (rev_submittedAt rev) in
       let* setTime := deref (rev_submittedAt val) in
       if After currTime setTime
       then Ok (<[rev_name rev := rev]> mostRecentReviews)
       else Ok mostRecentReviews)%outcome
  end.

(** The first loop of [mostRecent], from the map [mostRecentReviews]. *)
Fixpoint mostRecent_loop (mostRecentReviews : gmap string review) (currentReviews : list review)
  : outcome (gmap string review) :=
  match currentReviews with
  | [] => Ok mostRecentReviews
  | rev :: rest =>
      (let* m := mostRecent_step mostRecentReviews rev in
       mostRecent_loop m rest)%outcome
  end.

Definition mostRecent_map (currentReviews : list review) : outcome (gmap string review) :=
  mostRecent_loop ∅ currentReviews.

(** [mostRecent]: the second loop ranges over the map, and Go leaves the
    order of that iteration unspecified; [reviews] is a slice that
    [mostRecent] can return when it holds the values of the map, each once,
    in some order. *)
Definition mostRecent (currentReviews : list review) (reviews : list review) : Prop :=
  exists m, mostRecent_map currentReviews = Ok m /\ reviews ≡ₚ (map_to_list m).*2.

(** The submission time of a review that carries one. *)
Definition submitted (r : review) : Z := default 0 (rev_submittedAt r).

(** Every review carries a submission time, as [getReviews] has checked with
    [checkReviewFields] before it calls [mostRecent]. *)
Definition allSubmitted (l : list review) : Prop :=
  Forall (fun r => is_Some (rev_submittedAt r)) l.

(** [r] stands in [l] at a place where every earlier review of the same
    reviewer is strictly older and no later one is newer: the first, in list
    order, of the reviewer's reviews with the latest time. *)
Definition firstLatest (l : list review) (r : review) : Prop :=
  exists l1 l2, l = l1 ++ r :: l2
    /\ (forall r', r' ∈ l1 -> rev_name r' = rev_name r -> submitted r' < submitted r)
    /\ (forall r', r' ∈ l2 -> rev_name r' = rev_name r -> submitted r' <= submitted r).

(** What the map of [mostRecent] holds once the reviews [l] have been seen. *)
Definition mostRecent_inv (l : list review) (m : gmap string review) : Prop :=
  (forall n r, m !! n = Some r -> rev_name r = n /\ firstLatest l r)
  /\ (forall r, r ∈ l -> is_Some (m !! rev_name r)).

(** The @-mentions of the logins, one after the other. *)
Fixpoint mentions (logins : list string) : string :=
  match logins with
  | [] => ""
  | login :: logins' => "@" +:+ login +:+ mentions logins'
  end.

(** [dismissMessage] returns the dismiss message when a review is dismissed. *)
Definition dismissMessage (pr : Metadata) (required : list string) : string :=
  fold_left (fun buffer reviewer => buffer +:+ "@" +:+ reviewer) required
    "new commit pushed, please re-review ".

(** [hasNewCommit] sees if the pull request has a new commit. *)
Fixpoint hasNewCommit (headSHA : string) (revs : list review) : bool :=
  match revs with
  | [] => false
  | v :: revs' => if bool_decide (rev_commitID v <> headSHA) then true else hasNewCommit headSHA revs'
  end.

(** [verifyCommit] verifies GitHub is the commit author and that the commit
    is empty. *)
Definition verifyCommit (c : Bot) : M unit :=
  (env <- lift (deref (Environment c)) ;;
   pr <- lift (deref (env_Metadata env)) ;;
   clt <- lift (deref (env_Client env)) ;;
   comparison <- request
       (CallCompareCommits (RepoOwner pr) (RepoName pr) (BaseSHA pr) (HeadSHA pr))
       (fun log => Repositories_CompareCommits clt log
                     (RepoOwner pr) (RepoName pr) (BaseSHA pr) (HeadSHA pr)) ;;
   if negb (length (comparison_Files comparison) =? 0)%nat then
     fail (BadParameter "detected file change" [])
   else
     commit <- request
         (CallGetCommit (RepoOwner pr) (RepoName pr) (HeadSHA pr))
         (fun log => Repositories_GetCommit clt log (RepoOwner pr) (RepoName pr) (HeadSHA pr)) ;;
     commit' <- lift (deref (repocommit_Commit commit)) ;;
     match commit_Verification commit' with
     | Some verification =>
         match verification_Payload verification, verification_Verified verification with
         | Some payload, Some verified =>
             if Contains payload GithubCommit && verified then ret tt
             else fail (BadParameter "commit is not verified and/or is not signed by GitHub" [])
         | _, _ => fail (BadParameter "commit is not verified and/or is not signed by GitHub" [])
         end
     | None => fail (BadParameter "commit is not verified and/or is not signed by GitHub" [])
     end)%host.

(** The head commit is verified and its payload carries the marker of the
    trusted host. *)
Definition signedByGitHub (commit : RepositoryCommit) : Prop :=
  exists commit' verification payload,
    repocommit_Commit commit = Some commit'
    /\ commit_Verification commit' = Some verification
    /\ verification_Payload verification = Some payload
    /\ verification_Verified verification = Some true
    /\ Contains payload GithubCommit = true.

(** The loop of [invalidateApprovals]. *)
Fixpoint invalidateApprovals_loop (env : PullRequestEnvironment) (msg : string)
    (reviews : list review) : M unit :=
  match reviews with
  | [] => ret tt
  | v :: reviews' =>
      if bool_decide (rev_status v = Approved) then
        (clt <- lift (deref (env_Client env)) ;;
         pr <- lift (deref (env_Metadata env)) ;;
         _ <- request
             (CallDismissReview (RepoOwner pr) (RepoName pr) (Number pr) (rev_id v) msg)
             (fun log => PullRequests_DismissReview clt log
                           (RepoOwner pr) (RepoName pr) (Number pr) (rev_id v) msg) ;;
         invalidateApprovals_loop env msg reviews')%host
      else invalidateApprovals_loop env msg reviews'
  end.

(** [invalidateApprovals] dismisses all approved reviews on a pull request. *)
Definition invalidateApprovals (c : Bot) (msg : string) (reviews : list review) : M unit :=
  (env <- lift (deref (Environment c)) ;;
   invalidateApprovals_loop env msg reviews)%host.

(** The request that dismisses [v] with the message [msg], and what the host
    answers to it after the requests [log]. *)
Definition dismissal (pr : Metadata) (msg : string) (v : review) : Call :=
  CallDismissReview (RepoOwner pr) (RepoName pr) (Number pr) (rev_id v) msg.

Definition dismissalAnswer (pr : Metadata) (clt : Client) (msg : string)
    (log : list Call) (v : review) : outcome unit :=
  PullRequests_DismissReview clt log (RepoOwner pr) (RepoName pr) (Number pr) (rev_id v) msg.

(** Each review of [done] was dismissed with success, the requests starting
    from [log]. *)
Definition allDismissed (pr : Metadata) (clt : Client) (msg : string)
    (log : list Call) (done : list review) : Prop :=
  forall before v after, done = before ++ v :: after ->
    dismissalAnswer pr clt msg (log ++ (dismissal pr msg <$> before)) v = Ok tt.

(** *** The workflow-run reconciler ([bot.go]) *)

(** The creation time of a run, for the runs that carry one. *)
Definition createdAt (r : WorkflowRun) : Z := default 0 (run_CreatedAt r).

(** The order that [getSortedWorkflowRuns] hands to [sort.Slice]:
    [time1.Time.Before(time2.Time)]. *)
Definition createdBefore (r1 r2 : WorkflowRun) : Prop := createdAt r1 < createdAt r2.

(** [sort.Slice] with the order above.  The library documents that it sorts
    and that it is not stable; which sorted arrangement comes out is left to
    it, so it is a parameter here, with that contract assumed where a proof
    needs it. *)
Variable sortSlice : list WorkflowRun -> list WorkflowRun.

(** The contract of [sort.Slice]: the result holds the same runs, and no run
    in it is created before a run that precedes it. *)
Definition sortSlice_contract : Prop :=
  (forall runs, sortSlice runs ≡ₚ runs)
  /\ (forall runs, Forall (fun r => is_Some (run_CreatedAt r)) runs ->
        Sorted (fun r1 r2 => ~ createdBefore r2 r1) (sortSlice runs)).

(** The loop of [getWorkflow] over the workflows of the repository. *)
Fixpoint getWorkflow_find (workflows : list Workflow) (workflowName : string)
  : outcome (option Workflow) :=
  match workflows with
  | [] => Ok None
  | w :: workflows' =>
      (let* n := deref (workflow_Name w) in
       if bool_decide (n = workflowName) then Ok (Some w)
       else getWorkflow_find workflows' workflowName)%outcome
  end.

(** [getWorkflow] gets the workflow with the given name. *)
Definition getWorkflow (c : Bot) (owner repoName workflowName : string) : M Workflow :=
  (clt <- lift (deref (GithubClient c)) ;;
   workflows <- request (CallListWorkflows owner repoName)
                  (fun log => Actions_ListWorkflows clt log owner repoName) ;;
   found <- lift (getWorkflow_find workflows workflowName) ;;
   match found with
   | Some w => ret w
   | None => fail (NotFound "workflow %s not found" [workflowName])
   end)%host.

(** [getSortedWorkflowRuns]: the runs of a workflow on a branch, oldest
    first.  The order function dereferences [CreatedAt] of both runs it
    compares, and sorting two or more runs compares each of them at least
    once: a run without [CreatedAt] among two or more is a panic. *)
Definition getSortedWorkflowRuns (c : Bot) (owner repoName branchName : string)
    (workflowID : Z) : M (list WorkflowRun) :=
  (clt <- lift (deref (GithubClient c)) ;;
   runs <- request (CallListWorkflowRunsByID owner repoName workflowID branchName)
             (fun log => Actions_ListWorkflowRunsByID clt log owner repoName workflowID branchName) ;;
   if (2 <=? length runs)%nat && existsb (fun r => bool_decide (run_CreatedAt r = None)) runs
   then lift Panic
   else ret (sortSlice runs))%host.

(** [deleteRun] deletes a workflow run. *)
Definition deleteRun (c : Bot) (owner repo : string) (runID : Z) : M unit :=
  (clt <- lift (deref (GithubClient c)) ;;
   request (CallDeleteRun owner repo runID)
     (fun log => Do_DeleteRun clt log owner repo runID))%host.

(** The loop of [deleteRuns] over [runs[0 : len(runs)-1]]. *)
Fixpoint deleteRuns_loop (c : Bot) (owner repoName : string) (runs : list WorkflowRun)
  : M unit :=
  match runs with
  | [] => ret tt
  | run :: runs' =>
      (runID <- lift (deref (run_ID run)) ;;
       _ <- deleteRun c owner repoName runID ;;
       deleteRuns_loop c owner repoName runs')%host
  end.

(** The request that deletes [run], and what the host answers to it after
    the requests [log]. *)
Definition deletion (owner repoName : string) (run : WorkflowRun) : Call :=
  CallDeleteRun owner repoName (GetID run).

Definition deletionAnswer (clt : Client) (owner repoName : string)
    (log : list Call) (run : WorkflowRun) : outcome unit :=
  Do_DeleteRun clt log owner repoName (GetID run).

(** Each run of [done] was deleted with success, the requests starting from
    [log]. *)
Definition allDeleted (clt : Client) (owner repoName : string)
    (log : list Call) (done : list WorkflowRun) : Prop :=
  forall before r after, done = before ++ r :: after ->
    deletionAnswer clt owner repoName (log ++ (deletion owner repoName <$> before)) r = Ok tt.

(** [deleteRuns] deletes all workflow runs except the most recent one because
    that is the run in the current context. *)
Definition deleteRuns (c : Bot) (owner repoName : string) (runs : list WorkflowRun) : M unit :=
  deleteRuns_loop c owner repoName (take (length runs - 1) runs).

(** [DismissStaleWorkflowRuns] dismisses stale Check workflow runs. *)
Definition DismissStaleWorkflowRuns (c : Bot) (owner repoName branch : string) : M unit :=
  (workflow <- getWorkflow c owner repoName CheckWorkflow ;;
   workflowID <- lift (deref (workflow_ID workflow)) ;;
   runs <- getSortedWorkflowRuns c owner repoName branch workflowID ;;
   deleteRuns c owner repoName runs)%host.

Definition redoMostRecentRun (c : Bot) (workflowID : Z) : M unit :=
  (env <- lift (deref (Environment c)) ;;
   pr <- lift (deref (env_Metadata env)) ;;
   runs <- getSortedWorkflowRuns c (RepoOwner pr) (RepoName pr) (BranchName pr) workflowID ;;
   if (length runs <? 1)%nat then fail (NotFound "workflow run not found" [])
   else
     targetRun <- lift (deref (runs !! (length runs - 1)%nat)) ;;
     clt <- lift (deref (env_Client env)) ;;
     request (CallRerunWorkflowByID (RepoOwner pr) (RepoName pr) (GetID targetRun))
       (fun log => Actions_RerunWorkflowByID clt log (RepoOwner pr) (RepoName pr) (GetID targetRun)))%host.

Definition ReRunWorkflows (c : Bot) : M unit :=
  (env <- lift (deref (Environment c)) ;;
   pr <- lift (deref (env_Metadata env)) ;;
   checkWorkflow <- getWorkflow c (RepoOwner pr) (RepoName pr) CheckWorkflow ;;
   checkID <- lift (deref (workflow_ID checkWorkflow)) ;;
   _ <- redoMostRecentRun c checkID ;;
   assignWorkflow <- getWorkflow c (RepoOwner pr) (RepoName pr) AssignWorkflow ;;
   assignID <- lift (deref (workflow_ID assignWorkflow)) ;;
   redoMostRecentRun c assignID)%host.

End CheckAndReconcile.

(** ** More of the approval check ([check_20210927095724.go]) *)

(** [github.PullRequestReview], the fields [getReviews] reads. *)
Record PullRequestReview : Type := {
  review_ID : option Z;
  review_State : option string;
  review_CommitID : option string;
  review_SubmittedAt : option Z;
  review_User : option User
}.

(** [trace.Errorf format review], the error of [checkReviewFields]. *)
Inductive reviewError : Type :=
  | Errorf (format : string) (review : PullRequestReview).

(** What a function returning [(T, error)] with errors of type [E] comes to. *)
Inductive result (E A : Type) : Type :=
  | Done (a : A)
  | Failed (e : E)
  | Panicked.

Arguments Done {E A} a.
Arguments Failed {E A} e.
Arguments Panicked {E A}.

(** [checkReviewFields]: the cases of the [switch] are tried in order; the
    last one reads [review.User.Login] through the pointer [review.User]. *)
Definition checkReviewFields (review : PullRequestReview) : result reviewError unit :=
  match review_ID review with
  | None => Failed (Errorf "review ID is nil. review: %+v" review)
  | Some _ =>
  match review_State review with
  | None => Failed (Errorf "review State is nil. review: %+v" review)
  | Some _ =>
  match review_CommitID review with
  | None => Failed (Errorf "review CommitID is nil. review: %+v" review)
  | Some _ =>
  match review_SubmittedAt review with
  | None => Failed (Errorf "review SubmittedAt is nil. review: %+v" review)
  | Some _ =>
  match review_User review with
  | None => Panicked
  | Some user =>
      match user_Login user with
      | None => Failed (Errorf "reviewer User.Login is nil. review: %+v" review)
      | Some _ => Done tt
      end
  end end end end end.

(** The loop of [getReviews] over the reviews that [ListReviews] returned:
    each review is checked, then copied into a [review] that is appended to
    [currentReviewsSlice]. *)
Fixpoint getReviews_loop (reviews : list PullRequestReview) (currentReviewsSlice : list review)
  : result reviewError (list review) :=
  match reviews with
  | [] => Done currentReviewsSlice
  | rev :: reviews' =>
      match checkReviewFields rev with
      | Failed e => Failed e
      | Panicked => Panicked
      | Done _ =>
          match review_User rev with
          | None => Panicked
          | Some user =>
              match user_Login user, review_State rev, review_CommitID rev, review_ID rev with
              | Some login, Some state, Some commitID, Some reviewID =>
                  let currReview := {|
                    rev_name := login;
                    rev_status := state;
                    rev_commitID := commitID;
                    rev_id := reviewID;
                    rev_submittedAt := review_SubmittedAt rev
                  |} in
                  getReviews_loop reviews' (currentReviewsSlice ++ [currReview])
              | _, _, _, _ => Panicked
              end
          end
      end
  end.

(** [getReviews], from the reviews that [ListReviews] returned: [out] is a
    value it can return, the slice being one that [mostRecent] can return. *)
Definition getReviews_from (reviews : list PullRequestReview)
    (out : result reviewError (list review)) : Prop :=
  match getReviews_loop reviews [] with
  | Done currentReviewsSlice =>
      match mostRecent_map currentReviewsSlice with
      | Ok _ => exists mostRecentReviews,
                  mostRecent currentReviewsSlice mostRecentReviews
                  /\ out = Done mostRecentReviews
      | _ => out = Panicked
      end
  | Failed e => out = Failed e
  | Panicked => out = Panicked
  end.

(** [check], from the reviews [mostRecentReviews] that [getReviews] returned.
    An error of [verifyCommit] leads to [invalidateApprovals]; the error
    returned is that of the invalidation when it fails, and that of the
    verification otherwise. *)
Definition check_reviews (Approved GithubCommit : string) (c : Bot)
    (mostRecentReviews : list review) : M unit :=
  fun log =>
    match Environment c with
    | None => (Panic, log)
    | Some env =>
        if (length mostRecentReviews =? 0)%nat then
          (Err (BadParameter "pull request has no reviews" []), log)
        else
          match env_Metadata env with
          | None => (Panic, log)
          | Some pr =>
              match approved Approved mostRecentReviews (GetReviewersForAuthor env (Author pr)) with
              | Err err => (Err err, log)
              | Panic => (Panic, log)
              | Ok _ =>
                  if hasNewCommit (HeadSHA pr) mostRecentReviews
                     && negb (IsInternal env (Author pr))
                  then
                    match verifyCommit GithubCommit c log with
                    | (Ok _, log1) => (Ok tt, log1)
                    | (Panic, log1) => (Panic, log1)
                    | (Err err, log1) =>
                        match invalidateApprovals Approved c
                                (dismissMessage pr (GetReviewersForAuthor env (Author pr)))
                                mostRecentReviews log1 with
                        | (Ok _, log2) => (Err (Wrap err), log2)
                        | (Err validationErr, log2) => (Err (Wrap validationErr), log2)
                        | (Panic, log2) => (Panic, log2)
                        end
                    end
                  else (Ok tt, log)
              end
          end
    end.

(** The errors of [getReviews] and [check]: an error of [trace], or the error
    of [checkReviewFields]. *)
Inductive checkError : Type :=
  | TraceError (err : error)
  | FieldsError (e : reviewError).

(** [getReviews], with its request: [ListReviews] is what the client of the
    environment answers for a repository and a pull request number, given the
    requests received before.  [out] is a result and a log that [getReviews]
    can come to from [log]; the slice is one that [mostRecent] can return. *)
Definition getReviews (c : Bot)
    (ListReviews : list Call -> string -> string -> Z -> outcome (list PullRequestReview))
    (log : list Call) (out : result checkError (list review) * list Call) : Prop :=
  match Environment c with
  | None => out = (Panicked, log)
  | Some env =>
      match env_Metadata env, env_Client env with
      | Some pr, Some _ =>
          let log1 := log ++ [CallListReviews (RepoOwner pr) (RepoName pr) (Number pr)] in
          match ListReviews log (RepoOwner pr) (RepoName pr) (Number pr) with
          | Err err => out = (Failed (TraceError (Wrap err)), log1)
          | Panic => out = (Panicked, log1)
          | Ok reviews =>
              exists r, getReviews_from reviews r
                /\ out = (match r with
                          | Done mostRecentReviews => Done mostRecentReviews
                          | Failed e => Failed (FieldsError e)
                          | Panicked => Panicked
                          end, log1)
          end
      | _, _ => out = (Panicked, log)
      end
  end.

(** [check] checks to see if all the required reviewers have approved and
    invalidates approvals for external contributors if a new commit is
    pushed: [getReviews], then the rest of the function on its reviews.
    [out] is a result and a log that [check] can come to from [log]. *)
Definition check (Approved GithubCommit : string) (c : Bot)
    (ListReviews : list Call -> string -> string -> Z -> outcome (list PullRequestReview))
    (log : list Call) (out : result checkError unit * list Call) : Prop :=
  exists got, getReviews c ListReviews log got
    /\ match got with
       | (Done mostRecentReviews, log1) =>
           out = match check_reviews Approved GithubCommit c mostRecentReviews log1 with
                 | (Ok _, log2) => (Done tt, log2)
                 | (Err err, log2) => (Failed (TraceError err), log2)
                 | (Panic, log2) => (Panicked, log2)
                 end
       | (Failed e, log1) => out = (Failed e, log1)
       | (Panicked, log1) => out = (Panicked, log1)
       end.

(** The requests that a computation adds to the log all satisfy [P]. *)
Definition emits {A : Type} (P : Call -> Prop) (m : M A) : Prop :=
  forall log, exists calls, (m log).2 = log ++ calls /\ Forall P calls.

(** Requests that read the commits of the repository. *)
Definition isCommitRead (call : Call) : Prop :=
  match call with
  | CallCompareCommits _ _ _ _ | CallGetCommit _ _ _ => True
  | _ => False
  end.

(** Requests of the stale-run pruning: listing workflows and runs, deleting a
    run. *)
Definition isPruneCall (call : Call) : Prop :=
  match call with
  | CallListWorkflows _ _ | CallListWorkflowRunsByID _ _ _ _ | CallDeleteRun _ _ _ => True
  | _ => False
  end.

(** Requests of the rerun: listing workflows and runs, rerunning a run. *)
Definition isRerunCall (call : Call) : Prop :=
  match call with
  | CallListWorkflows _ _ | CallListWorkflowRunsByID _ _ _ _ | CallRerunWorkflowByID _ _ _ => True
  | _ => False
  end.

(** ** More of the bot ([bot.go]) *)

(** [github.Response], the field the bot reads. *)
Record Response : Type := { resp_Status : string }.

(** What [ListComments] returns: the comments, the response and the error. *)
Record ListCommentsAnswer : Type := {
  listed_comments : list PullRequestComment;
  listed_resp : option Response;
  listed_err : option error
}.

(** The loop of [HasWorkflowRunApproval] over the comments; the body of the
    permitting comment is printed, through its pointer. *)
Fixpoint HasWorkflowRunApproval_loop (c : Bot) (comments : list PullRequestComment)
  : outcome unit :=
  match comments with
  | [] => Err (BadParameter "workflow runs have not been approved for this pull request" [])
  | comment :: comments' =>
      (let* ok := commentPermitsRun c comment in
       if ok : bool then
         let* body := deref (comment_Body comment) in Ok tt
       else HasWorkflowRunApproval_loop c comments')%outcome
  end.

(** [HasWorkflowRunApproval] checks if a PR has approval for the rest of the
    check workflow to run.  [ListComments] is what the client of the
    environment answers for a repository and a pull request number; the
    status of the response is printed before the error is looked at. *)
Definition HasWorkflowRunApproval (c : Bot)
    (ListComments : string -> string -> Z -> ListCommentsAnswer) : outcome unit :=
  (let* env := deref (Environment c) in
   let* pr := deref (env_Metadata env) in
   if IsInternal env (Author pr) then Ok tt
   else
     let* clt := deref (env_Client env) in
     let answer := ListComments (RepoOwner pr) (RepoName pr) (Number pr) in
     let* resp := deref (listed_resp answer) in
     match listed_err answer with
     | Some err => Err (Wrap err)
     | None => HasWorkflowRunApproval_loop c (listed_comments answer)
     end)%outcome.

(** [github.PullRequest] and the values it points to, the fields read. *)
Record Repository : Type := {
  repo_Owner : option User;
  repo_Name : option string
}.

Record PullRequestBranch : Type := {
  branch_Ref : option string;
  branch_SHA : option string;
  branch_Repo : option Repository;
  branch_User : option User
}.

Record PullRequest : Type := {
  pull_Number : option Z;
  pull_User : option User;
  pull_Base : option PullRequestBranch;
  pull_Head : option PullRequestBranch
}.

Section Sweep.

Variable CheckWorkflow : string.
Variable sortSlice : list WorkflowRun -> list WorkflowRun.

(** The loop of [DimissStaleWorkflowRunsForExternalContributors] over the
    open pull requests: each one is pruned with the login of the user and the
    name of the repository of its base, and the ref of its head. *)
Fixpoint DimissStaleWorkflowRunsForExternalContributors_loop (c : Bot)
    (pullReqs : list PullRequest) : M unit :=
  match pullReqs with
  | [] => ret tt
  | pull :: pullReqs' =>
      (base <- lift (deref (pull_Base pull)) ;;
       user <- lift (deref (branch_User base)) ;;
       login <- lift (deref (user_Login user)) ;;
       repo <- lift (deref (branch_Repo base)) ;;
       name <- lift (deref (repo_Name repo)) ;;
       head <- lift (deref (pull_Head pull)) ;;
       ref <- lift (deref (branch_Ref head)) ;;
       _ <- DismissStaleWorkflowRuns CheckWorkflow sortSlice c login name ref ;;
       DimissStaleWorkflowRunsForExternalContributors_loop c pullReqs')%host
  end.

(** [DimissStaleWorkflowRunsForExternalContributors] dismisses stale workflow
    runs for external contributors.  It first asks the host for the open pull
    requests of the repository; [PullRequests_List] is what the client
    answers, given the requests received before.  The error of that request
    is returned as it is. *)
Definition DimissStaleWorkflowRunsForExternalContributors (c : Bot)
    (PullRequests_List : list Call -> string -> string -> outcome (list PullRequest))
    (repoOwner repoName : string) : M unit :=
  (clt <- lift (deref (GithubClient c)) ;;
   pullReqs <- request (CallListPullRequests repoOwner repoName)
                 (fun log => PullRequests_List log repoOwner repoName) ;;
   DimissStaleWorkflowRunsForExternalContributors_loop c pullReqs)%host.

End Sweep.

(** ** More of package [environment] ([environment.go]) *)

(** [validatePullRequest]: the cases of the [switch] in their order, each
    reading its field through the pointers on the way. *)
Definition validatePullRequest (pr : PullRequest) : outcome unit :=
  match pull_Number pr with
  | None => Err (BadParameter "missing pull request number" [])
  | Some _ =>
  (let* user := deref (pull_User pr) in
   match user_Login user with
   | None => Err (BadParameter "missing user login" [])
   | Some _ =>
   let* base := deref (pull_Base pr) in
   let* repo := deref (branch_Repo base) in
   let* owner := deref (repo_Owner repo) in
   match user_Login owner with
   | None => Err (BadParameter "missing repository owner" [])
   | Some _ =>
   match repo_Name repo with
   | None => Err (BadParameter "missing repository name" [])
   | Some _ =>
   let* head := deref (pull_Head pr) in
   match branch_SHA head with
   | None => Err (BadParameter "missing head commit sha" [])
   | Some _ =>
   match branch_SHA base with
   | None => Err (BadParameter "missing base commit sha" [])
   | Some _ =>
   match branch_Ref head with
   | None => Err (BadParameter "missing branch name" [])
   | Some _ => Ok tt
   end end end end end end)%outcome
  end.

(** [getMetadata] (the one that validates the pull request). *)
Definition getMetadata (pr : PullRequest) : outcome Metadata :=
  match validatePullRequest pr with
  | Err err => Err (Wrap err)
  | Panic => Panic
  | Ok _ =>
      (let* user := deref (pull_User pr) in
       let* author := deref (user_Login user) in
       let* base := deref (pull_Base pr) in
       let* repo := deref (branch_Repo base) in
       let* owner := deref (repo_Owner repo) in
       let* repoOwner := deref (user_Login owner) in
       let* repoName := deref (repo_Name repo) in
       let* baseSHA := deref (branch_SHA base) in
       let* head := deref (pull_Head pr) in
       let* headSHA := deref (branch_SHA head) in
       let* branchName := deref (branch_Ref head) in
       let* number := deref (pull_Number pr) in
       Ok {| Author := author; RepoName := repoName; RepoOwner := repoOwner;
             Number := number; HeadSHA := headSHA; BaseSHA := baseSHA;
             BranchName := branchName |})%outcome
  end.

Section Reviewers.

(** What the host answers to [client.Users.Get] for a login. *)
Variable Users_Get : string -> outcome User.

(** [userExists] checks if a user exists. *)
Definition userExists (userLogin : string) : outcome User :=
  match Users_Get userLogin with
  | Ok user => Ok user
  | Err err => Err (Wrap err)
  | Panic => Panic
  end.

(** The inner loop of [unmarshalReviewers], over the reviewers of one
    author. *)
Fixpoint unmarshalReviewers_required (requiredReviewers : list string) : outcome unit :=
  match requiredReviewers with
  | [] => Ok tt
  | reviewer :: requiredReviewers' =>
      (let* user := userExists reviewer in
       unmarshalReviewers_required requiredReviewers')%outcome
  end.

(** The outer loop of [unmarshalReviewers], over the entries of the decoded
    map in the order [entries] in which Go happens to range over them. *)
Fixpoint unmarshalReviewers_range (entries : list (string * list string))
    (hasDefaultReviewers : bool) : outcome bool :=
  match entries with
  | [] => Ok hasDefaultReviewers
  | (author, requiredReviewers) :: entries' =>
      (let* checked := unmarshalReviewers_required requiredReviewers in
       if bool_decide (author = "") then unmarshalReviewers_range entries' true
       else
         let* user := userExists author in
         unmarshalReviewers_range entries' hasDefaultReviewers)%outcome
  end.

(** [unmarshalReviewers], from the map [m] that [json.Unmarshal] decoded,
    ranged over in the order [entries]. *)
Definition unmarshalReviewers_decoded (m : gmap string (list string))
    (entries : list (string * list string)) : outcome (gmap string (list string)) :=
  (let* hasDefaultReviewers := unmarshalReviewers_range entries false in
   if negb hasDefaultReviewers then
     Err (BadParameter
            "default reviewers are not set. set default reviewers with an empty string as a key"
            [])
   else Ok m)%outcome.

(** The host knows the login. *)
Definition userKnown (login : string) : Prop := exists user, Users_Get login = Ok user.

(** The entry of an author passes: the reviewers are known, and so is the
    author unless it is the empty login. *)
Definition entryKnown (entry : string * list string) : Prop :=
  Forall userKnown entry.2 /\ (entry.1 <> "" -> userKnown entry.1).

End Reviewers.

(** The environment that [New] returns for the reviewers [revs] and the
    metadata [pr]: the default reviewers are the entry of the empty login. *)
Definition New_environment (clt : option Client) (revs : gmap string (list string))
    (pr : Metadata) : PullRequestEnvironment := {|
  env_Client := clt;
  env_Metadata := Some pr;
  Reviewers := revs;
  defaultReviewers := default [] (revs !! "")
|}.

(** The comment is at the head commit of [pr], its body contains the trigger
    phrase, and its author is one of the default reviewers of [env]. *)
Definition permitsRun (env : PullRequestEnvironment) (pr : Metadata)
    (comment : PullRequestComment) : Prop :=
  comment_CommitID comment = Some (HeadSHA pr)
  /\ (exists body, comment_Body comment = Some body /\ Contains body RUNCI = true)
  /\ (exists user login, comment_User comment = Some user /\ user_Login user = Some login
                         /\ login ∈ GetReviewersForAuthor env "").

(** The comment has a commit, a body and a user with a login. *)
Definition completeComment (comment : PullRequestComment) : Prop :=
  is_Some (comment_CommitID comment) /\ is_Some (comment_Body comment)
  /\ exists user, comment_User comment = Some user /\ is_Some (user_Login user).

(** ** The repository name and the fields of a pull request (the other
    versions of package [bot]) *)

(** The byte of the separator "/". *)
Definition slash : Ascii.ascii := Ascii.ascii_of_nat 47.

(** [strings.Split(s, sep)] for a separator [sep] of one byte, as the code
    calls it: the pieces of [s] between the occurrences of [sep]. *)
Fixpoint Split (s : string) (sep : Ascii.ascii) : list string :=
  match s with
  | EmptyString => [""]
  | String a s' =>
      if decide (a = sep) then "" :: Split s' sep
      else match Split s' sep with
           | piece :: pieces => String a piece :: pieces
           | [] => [String a ""]
           end
  end.

(** [getRepositoryMetadata], from the value [repository] of the environment
    variable GITHUB_REPOSITORY. *)
Definition getRepositoryMetadata (repository : string) : outcome (string * string) :=
  if bool_decide (repository = "") then
    Err (BadParameter "environment variable GITHUB_REPOSITORY is not set" [])
  else
    let metadata := Split repository slash in
    if negb (length metadata =? 2)%nat then
      Err (BadParameter
             "environment variable GITHUB_REPOSITORY is not in the correct format,
 the valid format is '<repo owner>/<repo name>'" [])
    else
      (let* repositoryOwner := deref (metadata !! 0%nat) in
       let* repositoryName := deref (metadata !! 1%nat) in
       Ok (repositoryOwner, repositoryName))%outcome.

(** A byte that the expression [[\da-zA-Z-_]] matches: a digit, a letter, a
    dash or an underscore. *)
Definition fieldByte (a : Ascii.ascii) : bool :=
  let n := Ascii.nat_of_ascii a in
  ((48 <=? n) && (n <=? 57))%nat
  || ((97 <=? n) && (n <=? 122))%nat
  || ((65 <=? n) && (n <=? 90))%nat
  || (n =? 45)%nat
  || (n =? 95)%nat.

Fixpoint fieldBytes (field : string) : bool :=
  match field with
  | EmptyString => true
  | String a field' => fieldByte a && fieldBytes field'
  end.

(** [validateField]: the expression, anchored at both ends, matches the
    strings of one or more such bytes. *)
Definition validateField (field : string) : outcome unit :=
  let found := negb (bool_decide (field = "")) && fieldBytes field in
  if negb found then
    Err (BadParameter "invalid field, %s contains illegal characters or is empty" [field])
  else Ok tt.

(** The errors of [validatePullRequestFields]: an error of [trace], or
    [trace.Errorf format err] around the error of [validateField]. *)
Inductive fieldsError : Type :=
  | Traced (err : error)
  | ErrorfAround (format : string) (err : error).

Definition validateField_as (format : string) (field : string)
    (next : result fieldsError unit) : result fieldsError unit :=
  match validateField field with
  | Ok _ => next
  | Err err => Failed (ErrorfAround format err)
  | Panic => Panicked
  end.

(** [validatePullRequestFields] checks that pull request fields needed for
    dismissing workflow runs are not nil, then validates three of them. *)
Definition validatePullRequestFields (pr : PullRequest) : result fieldsError unit :=
  match pull_Base pr with
  | None => Failed (Traced (BadParameter "missing base branch" []))
  | Some base =>
  match branch_User base with
  | None => Failed (Traced (BadParameter "missing base branch user" []))
  | Some user =>
  match user_Login user with
  | None => Failed (Traced (BadParameter "missing repository owner" []))
  | Some login =>
  match branch_Repo base with
  | None => Failed (Traced (BadParameter "missing base repository" []))
  | Some repo =>
  match repo_Name repo with
  | None => Failed (Traced (BadParameter "missing repository name" []))
  | Some name =>
  match pull_Head pr with
  | None => Failed (Traced (BadParameter "missing head branch" []))
  | Some head =>
  match branch_Ref head with
  | None => Failed (Traced (BadParameter "missing branch name" []))
  | Some ref =>
      validateField_as "user login err: %v" login
        (validateField_as "repository name err: %v" name
           (validateField_as "branch name err: %v" ref (Done tt)))
  end end end end end end end.

(** The string has no occurrence of the byte [sep]. *)
Definition noByte (sep : Ascii.ascii) (s : string) : Prop :=
  Contains s (String sep "") = false.

(** The field is not empty and made of digits, letters, dashes and
    underscores. *)
Definition validFieldString (field : string) : Prop :=
  field <> "" /\ fieldBytes field = true.

(** ** Fixtures: the environment and the comments of [TestCommentPermitsRun] *)

Definition test_pr : Metadata := {|
  Author := "Codertocat";
  RepoName := "Hello-World";
  RepoOwner := "Codertocat";
  Number := 2;
  HeadSHA := "ec26c3e57ca3a959ca5aad62de7213c562f8c821";
  BaseSHA := "f95f852bd8fca8fcc58a9a2d6c842781e32a215e";
  BranchName := "changes"
|}.

Definition test_env : PullRequestEnvironment := {|
  env_Client := None;
  env_Metadata := Some test_pr;
  Reviewers := <["foo" := ["bar"; "baz"]]> (<["" := ["test-user"]]> ∅);
  defaultReviewers := []
|}.

Definition test_bot : Bot := {| Environment := Some test_env; GithubClient := None |}.

Definition test_comment (commitSha association commenterName body : string)
  : PullRequestComment := {|
  comment_CommitID := Some commitSha;
  comment_Body := Some body;
  comment_AuthorAssociation := Some association;
  comment_User := Some {| user_Login := Some commenterName |}
|}.

(** The third case of the test table, "author association is not OWNER",
    for which the test expects [false]. *)
Definition comment_not_owner : PullRequestComment :=
  test_comment "ec26c3e57ca3a959ca5aad62de7213c562f8c821" "COLLABORATOR" "test-user"
    "run ci &&&&&&&& ".

(** ** Fixtures: two reviews by one reviewer at the same instant *)

Definition tied_first : review := {|
  rev_name := "alice"; rev_status := "APPROVED"; rev_commitID := "c1";
  rev_id := 1; rev_submittedAt := Some 5
|}.

Definition tied_last : review := {|
  rev_name := "alice"; rev_status := "CHANGES_REQUESTED"; rev_commitID := "c1";
  rev_id := 2; rev_submittedAt := Some 5
|}.

Definition newer_review : review := {|
  rev_name := "alice"; rev_status := "APPROVED"; rev_commitID := "c2";
  rev_id := 3; rev_submittedAt := Some 9
|}.

Definition other_review : review := {|
  rev_name := "bob"; rev_status := "COMMENTED"; rev_commitID := "c1";
  rev_id := 4; rev_submittedAt := Some 7
|}.

(** ** Fixtures: a sort, and a host with runs on two branches *)

(** A sort by creation time that meets the contract of [sort.Slice]. *)
Definition sortByCreatedAt : list WorkflowRun -> list WorkflowRun :=
  merge_sort (H := fun r1 r2 => decide (createdAt r1 <= createdAt r2))
    (fun r1 r2 => createdAt r1 <= createdAt r2).

Definition mkRun (id workflowID : Z) (branch : string) (created : Z) : WorkflowRun := {|
  run_ID := Some id;
  run_WorkflowID := Some workflowID;
  run_HeadBranch := Some branch;
  run_CreatedAt := Some created
|}.

(** The runs the host holds: of workflow 10, three runs on the branch
    "changes" and a newer run on the branch "master"; of workflow 11, a run
    on "changes". *)
Definition host_runs : list WorkflowRun :=
  [mkRun 5 10 "changes" 300; mkRun 1 10 "changes" 100; mkRun 2 10 "master" 400;
   mkRun 4 10 "changes" 200; mkRun 3 11 "changes" 150].

(** A host that lists the runs of a workflow, all of them when the branch
    filter is empty and those of the branch otherwise, and that accepts every
    other request. *)
Definition branch_host : Client := {|
  Repositories_CompareCommits := fun _ _ _ _ _ => Ok {| comparison_Files := [] |};
  Repositories_GetCommit := fun _ _ _ _ => Ok {| repocommit_Commit := None |};
  PullRequests_DismissReview := fun _ _ _ _ _ _ => Ok tt;
  Actions_ListWorkflows := fun _ _ _ =>
    Ok [ {| workflow_ID := Some 10; workflow_Name := Some "Check" |};
         {| workflow_ID := Some 11; workflow_Name := Some "Assign" |} ];
  Actions_ListWorkflowRunsByID := fun _ _ _ workflowID branch =>
    Ok (filter (fun r => run_WorkflowID r = Some workflowID
                         /\ (branch = "" \/ run_HeadBranch r = Some branch)) host_runs);
  Actions_RerunWorkflowByID := fun _ _ _ _ => Ok tt;
  Do_DeleteRun := fun _ _ _ _ => Ok tt
|}.

Definition branch_bot : Bot := {|
  Environment := Some {|
    env_Client := Some branch_host;
    env_Metadata := Some test_pr;
    Reviewers := <["" := ["test-user"]]> ∅;
    defaultReviewers := ["test-user"]
  |};
  GithubClient := Some branch_host
|}.

(** ** Fixtures: a host whose head commit is verified, and a policy with an
    empty entry *)

Definition signed_host : Client := {|
  Repositories_CompareCommits := fun _ _ _ _ _ => Ok {| comparison_Files := [] |};
  Repositories_GetCommit := fun _ _ _ _ =>
    Ok {| repocommit_Commit := Some {| commit_Verification := Some {|
            verification_Verified := Some true;
            verification_Payload :=
              Some "tree 4b825dc committer GitHub <noreply@github.com> 1632751044"
          |} |} |};
  PullRequests_DismissReview := fun _ _ _ _ _ _ => Ok tt;
  Actions_ListWorkflows := fun _ _ _ => Ok [];
  Actions_ListWorkflowRunsByID := fun _ _ _ _ _ => Ok [];
  Actions_RerunWorkflowByID := fun _ _ _ _ => Ok tt;
  Do_DeleteRun := fun _ _ _ _ => Ok tt
|}.

Definition signed_env : PullRequestEnvironment := {|
  env_Client := Some signed_host;
  env_Metadata := Some test_pr;
  Reviewers := <["intern" := []]> (<["" := ["test-user"]]> ∅);
  defaultReviewers := ["test-user"]
|}.

Definition signed_bot : Bot := {| Environment := Some signed_env; GithubClient := Some signed_host |}.

(** ** Fixtures: a host that reports a changed file, approvals, comments and
    a directory of users *)

Definition changed_host : Client := {|
  Repositories_CompareCommits := fun _ _ _ _ _ => Ok {| comparison_Files := ["main.go"] |};
  Repositories_GetCommit := fun _ _ _ _ => Ok {| repocommit_Commit := None |};
  PullRequests_DismissReview := fun _ _ _ _ _ _ => Ok tt;
  Actions_ListWorkflows := fun _ _ _ => Ok [];
  Actions_ListWorkflowRunsByID := fun _ _ _ _ _ => Ok [];
  Actions_RerunWorkflowByID := fun _ _ _ _ => Ok tt;
  Do_DeleteRun := fun _ _ _ _ => Ok tt
|}.

Definition changed_env : PullRequestEnvironment := {|
  env_Client := Some changed_host;
  env_Metadata := Some test_pr;
  Reviewers := <["intern" := []]> (<["" := ["test-user"]]> ∅);
  defaultReviewers := ["test-user"]
|}.

Definition changed_bot : Bot :=
  {| Environment := Some changed_env; GithubClient := Some changed_host |}.

(** An approval made against the base commit, and one made against the head
    commit. *)
Definition stale_approval : review := {|
  rev_name := "test-user"; rev_status := "APPROVED";
  rev_commitID := "f95f852bd8fca8fcc58a9a2d6c842781e32a215e";
  rev_id := 7; rev_submittedAt := Some 3
|}.

Definition head_approval : review := {|
  rev_name := "test-user"; rev_status := "APPROVED";
  rev_commitID := "ec26c3e57ca3a959ca5aad62de7213c562f8c821";
  rev_id := 8; rev_submittedAt := Some 4
|}.

Definition one_comment (owner repo : string) (number : Z) : ListCommentsAnswer := {|
  listed_comments := [comment_not_owner];
  listed_resp := Some {| resp_Status := "200 OK" |};
  listed_err := None
|}.

Definition known_users (login : string) : outcome User :=
  if bool_decide (login ∈ ["test-user"; "foo"; "bar"; "baz"])
  then Ok {| user_Login := Some login |}
  else Err (HostError "404 Not Found").

Definition test_reviewers : gmap string (list string) :=
  <["foo" := ["bar"; "baz"]]> (<["" := ["test-user"]]> ∅).

(** ** Fixtures: a host whose head commit comes without its commit object,
    a host that lists one review made against the head commit, a host that
    lists one open pull request, and a host that does not know two logins *)

Definition bare_host : Client := {|
  Repositories_CompareCommits := fun _ _ _ _ _ => Ok {| comparison_Files := [] |};
  Repositories_GetCommit := fun _ _ _ _ => Ok {| repocommit_Commit := None |};
  PullRequests_DismissReview := fun _ _ _ _ _ _ => Ok tt;
  Actions_ListWorkflows := fun _ _ _ => Ok [];
  Actions_ListWorkflowRunsByID := fun _ _ _ _ _ => Ok [];
  Actions_RerunWorkflowByID := fun _ _ _ _ => Ok tt;
  Do_DeleteRun := fun _ _ _ _ => Ok tt
|}.

Definition bare_env : PullRequestEnvironment := {|
  env_Client := Some bare_host;
  env_Metadata := Some test_pr;
  Reviewers := <["" := ["test-user"]]> ∅;
  defaultReviewers := ["test-user"]
|}.

Definition bare_bot : Bot := {| Environment := Some bare_env; GithubClient := Some bare_host |}.

Definition lists_head_approval (log : list Call) (owner repo : string) (number : Z)
  : outcome (list PullRequestReview) :=
  Ok [{| review_ID := Some 8; review_State := Some "APPROVED";
         review_CommitID := Some "ec26c3e57ca3a959ca5aad62de7213c562f8c821";
         review_SubmittedAt := Some 4;
         review_User := Some {| user_Login := Some "test-user" |} |}].

Definition lists_one_pull (log : list Call) (owner repo : string)
  : outcome (list PullRequest) :=
  Ok [{| pull_Number := Some 2; pull_User := None;
         pull_Base := Some {| branch_Ref := None; branch_SHA := None;
                              branch_Repo := Some {| repo_Owner := None;
                                                     repo_Name := Some "Hello-World" |};
                              branch_User := Some {| user_Login := Some "Codertocat" |} |};
         pull_Head := Some {| branch_Ref := Some "changes"; branch_SHA := None;
                              branch_Repo := None; branch_User := None |} |}].

Definition ghost_users (login : string) : outcome User :=
  if bool_decide (login = "ghost1") then Err (HostError "ghost1 404")
  else if bool_decide (login = "ghost2") then Err (HostError "ghost2 404")
  else Ok {| user_Login := Some login |}.

(** A map of reviewers with two authors that the host of [ghost_users] does
    not know. *)
Definition ghost_reviewers : gmap string (list string) :=
  <["ghost1" := []]> (<["ghost2" := []]> (<["" := []]> ∅)).

(** ** Properties *)

(** *** Strings *)

Lemma prefix_spec (p s : string) :
  String.prefix p s = true <-> exists t, s = p +:+ t.
Proof.
  revert s. induction p as [|a p IH]; intros s.
  - split; [intros _; exists s; reflexivity | intros _; destruct s; reflexivity].
  - destruct s as [|b s]; simpl.
    + split; [discriminate | intros [t Ht]; discriminate].
    + destruct (Ascii.ascii_dec a b) as [->|Hne].
      * rewrite IH. split; intros [t Ht]; exists t.
        -- rewrite Ht. reflexivity.
        -- injection Ht as Ht. exact Ht.
      * split; [discriminate | intros [t Ht]]. injection Ht as Hab _. congruence.
Qed.

(** [Contains] is the occurrence of [substr] somewhere inside [s]. *)
Lemma Contains_spec (s substr : string) :
  Contains s substr = true <-> exists before after, s = before +:+ substr +:+ after.
Proof.
  induction s as [|a s IH]; cbn [Contains].
  - rewrite orb_false_r, prefix_spec. split.
    + intros [t Ht]. exists "", t. exact Ht.
    + intros [before [after H]]. destruct before as [|b before]; [|discriminate].
      exists after. exact H.
  - rewrite orb_true_iff, IH. split.
    + intros [Hp | [before [after H]]].
      * apply prefix_spec in Hp as [t Ht]. exists "", t. exact Ht.
      * exists (String a before), after. rewrite H. reflexivity.
    + intros [before [after H]]. destruct before as [|b before].
      * left. apply prefix_spec. exists after. exact H.
      * right. injection H as _ H. exists before, after. exact H.
Qed.

Example Contains_examples :
  Contains "run ci &&&&&&&& " RUNCI = true
  /\ Contains "please run ci" RUNCI = true
  /\ Contains "&&&&&&&& " RUNCI = false
  /\ Contains "run  ci" RUNCI = false
  /\ Contains "" "" = true.
Proof. repeat split; reflexivity. Qed.

Example Join_examples :
  Join [] ", " = ""
  /\ Join ["a"] ", " = "a"
  /\ Join ["a"; "b"; "c"] ", " = "a, b, c".
Proof. repeat split; reflexivity. Qed.

Lemma string_app_assoc (a b c : string) : (a +:+ b) +:+ c = a +:+ b +:+ c.
Proof. induction a as [|x a IH]; [reflexivity|]. exact (f_equal (String x) IH). Qed.

Lemma string_app_empty_r (a : string) : a +:+ "" = a.
Proof. induction a as [|x a IH]; [reflexivity|]. exact (f_equal (String x) IH). Qed.

(** *** The comment gate *)

(** What [commentPermitsRun] computes on a comment with all its fields set:
    the author association is not part of it. *)
Lemma commentPermitsRun_admins_spec (comment : PullRequestComment) (user : User)
    (login : string) (admins : list string) :
  comment_User comment = Some user ->
  user_Login user = Some login ->
  commentPermitsRun_admins comment admins = Ok (bool_decide (login ∈ admins)).
Proof.
  intros Hu Hl. induction admins as [|admin admins IH]; simpl.
  - reflexivity.
  - rewrite Hu; simpl. rewrite Hl; simpl. destruct (decide (login = admin)) as [->|Hne].
    + rewrite bool_decide_eq_true_2; [reflexivity | left].
    + rewrite IH. f_equal. apply bool_decide_ext. rewrite elem_of_cons. tauto.
Qed.

Lemma commentPermitsRun_spec (c : Bot) (env : PullRequestEnvironment) (pr : Metadata)
    (commitSha association commenterName body : string) :
  Environment c = Some env ->
  env_Metadata env = Some pr ->
  commentPermitsRun c (test_comment commitSha association commenterName body)
  = Ok (bool_decide (commitSha = HeadSHA pr)
        && Contains body RUNCI
        && bool_decide (commenterName ∈ GetReviewersForAuthor env "")).
Proof.
  intros He Hp. unfold commentPermitsRun. rewrite He; simpl. rewrite Hp; simpl.
  destruct (decide (commitSha <> HeadSHA pr)) as [Hne|Heq].
  - rewrite bool_decide_eq_false_2; [reflexivity | exact Hne].
  - rewrite bool_decide_eq_true_2; [|destruct (decide (commitSha = HeadSHA pr)); tauto].
    destruct (Contains body RUNCI); simpl; [|reflexivity].
    apply (commentPermitsRun_admins_spec _ {| user_Login := Some commenterName |});
      reflexivity.
Qed.

(** The four other cases of [TestCommentPermitsRun] come out as the test
    expects. *)
Example commentPermitsRun_other_test_cases :
  commentPermitsRun test_bot
    (test_comment "f95f852bd8fca8fcc58a9a2d6c842781e32a215e" "OWNER" "test-user"
       "run ci &&&&&&&& ") = Ok false
  /\ commentPermitsRun test_bot
       (test_comment "ec26c3e57ca3a959ca5aad62de7213c562f8c821" "OWNER" "test-user"
          "&&&&&&&& ") = Ok false
  /\ commentPermitsRun test_bot
       (test_comment "ec26c3e57ca3a959ca5aad62de7213c562f8c821" "OWNER" "random-user"
          "run ci &&&&&&&& ") = Ok false
  /\ commentPermitsRun test_bot
       (test_comment "ec26c3e57ca3a959ca5aad62de7213c562f8c821" "OWNER" "test-user"
          "run ci &&&&&&&& ") = Ok true.
Proof. repeat split; vm_compute; reflexivity. Qed.

(** C1, at the test case "author association is not OWNER": the comment is at
    the head commit, carries the trigger phrase and comes from a login of the
    default reviewers, its author association is COLLABORATOR, and
    [commentPermitsRun] accepts it, where the test expects a refusal. *)
Theorem commentPermitsRun_accepts_non_owner :
  comment_AuthorAssociation comment_not_owner = Some "COLLABORATOR"
  /\ comment_AuthorAssociation comment_not_owner <> Some Owner
  /\ commentPermitsRun test_bot comment_not_owner = Ok true.
Proof.
  split; [reflexivity|]. split; [discriminate|]. vm_compute. reflexivity.
Qed.

(** *** The approval evaluator *)

Section Approval.

Variable Approved : string.

Lemma hasApproved_true (reviewer : string) (reviews : list review) :
  (hasApproved Approved reviewer reviews).2 = true <-> approvedBy Approved reviews reviewer.
Proof.
  unfold approvedBy. induction reviews as [|rev reviews IH]; simpl.
  - rewrite Exists_nil. split; [discriminate | tauto].
  - rewrite Exists_cons.
    destruct (bool_decide (rev_name rev = reviewer) && bool_decide (rev_status rev = Approved))
      eqn:Hb; simpl.
    + apply andb_true_iff in Hb as [Hn Hs].
      apply bool_decide_eq_true in Hn. apply bool_decide_eq_true in Hs. tauto.
    + rewrite IH. split; [tauto|]. intros [[Hn Hs] | H]; [|exact H].
      rewrite !bool_decide_eq_true_2 in Hb by assumption. discriminate.
Qed.

Lemma hasApproved_false (reviewer : string) (reviews : list review) :
  (hasApproved Approved reviewer reviews).2 = false ->
  (hasApproved Approved reviewer reviews).1 = reviewer.
Proof.
  induction reviews as [|rev reviews IH]; simpl; [reflexivity|].
  destruct (bool_decide (rev_name rev = reviewer) && bool_decide (rev_status rev = Approved));
    simpl; [discriminate | exact IH].
Qed.

(** The loop of [approved] keeps, in their order, the required reviewers
    that have not approved. *)
Lemma waitingOnApprovalsFrom_filter (reviews : list review) (required : list string) :
  waitingOnApprovalsFrom Approved reviews required
  = filter (fun login => (hasApproved Approved login reviews).2 = false) required.
Proof.
  unfold waitingOnApprovalsFrom.
  enough (forall acc,
    fold_left
      (fun waiting requiredReviewer =>
         let '(reviewer, ok) := hasApproved Approved requiredReviewer reviews in
         if negb ok then waiting ++ [reviewer] else waiting) required acc
    = acc ++ filter (fun login => (hasApproved Approved login reviews).2 = false) required)
    as H by exact (H []).
  induction required as [|login required IH]; intros acc; cbn [fold_left].
  - rewrite filter_nil, app_nil_r. reflexivity.
  - rewrite IH, filter_cons. pose proof (hasApproved_false login reviews) as Hname.
    destruct (hasApproved Approved login reviews) as [reviewer ok]; simpl in *.
    destruct ok; simpl.
    + reflexivity.
    + rewrite Hname by reflexivity. rewrite <- app_assoc. reflexivity.
Qed.

Lemma approved_message_nil (waiting : list string) :
  approved_message waiting = Ok tt <-> waiting = [].
Proof.
  unfold approved_message. destruct waiting as [|x [|y [|z waiting]]]; simpl.
  - tauto.
  - split; discriminate.
  - split; discriminate.
  - split; discriminate.
Qed.

Lemma approved_Ok_iff (reviews : list review) (required : list string) :
  approved Approved reviews required = Ok tt <-> Forall (approvedBy Approved reviews) required.
Proof.
  unfold approved. rewrite approved_message_nil, waitingOnApprovalsFrom_filter.
  rewrite Forall_forall. split.
  - intros Hnil login Hin. apply hasApproved_true.
    destruct (hasApproved Approved login reviews).2 eqn:Hb; [reflexivity|].
    assert (login ∈ filter (fun l => (hasApproved Approved l reviews).2 = false) required)
      as Hf by (apply list_elem_of_filter; tauto).
    rewrite Hnil in Hf. inversion Hf.
  - intros Hall.
    destruct (filter (fun l => (hasApproved Approved l reviews).2 = false) required)
      as [|login rest] eqn:Hf; [reflexivity|].
    assert (login ∈ filter (fun l => (hasApproved Approved l reviews).2 = false) required)
      as Hin by (rewrite Hf; left).
    apply list_elem_of_filter in Hin as [Hb Hin].
    apply Hall, hasApproved_true in Hin. congruence.
Qed.

(** C3: [approved] succeeds exactly when every required login has, among the
    aggregated reviews, a review with the approved state; success is the same
    for every permutation of the required list; the waiting list is the
    sub-list of the required list, in its order, of the logins without
    an approved review. *)
Theorem approved_iff_all_required_approved (reviews : list review) (required : list string) :
  (approved Approved reviews required = Ok tt <-> Forall (approvedBy Approved reviews) required)
  /\ (forall required', required ≡ₚ required' ->
        (approved Approved reviews required = Ok tt
         <-> approved Approved reviews required' = Ok tt))
  /\ waitingOnApprovalsFrom Approved reviews required
     = filter (fun login => ~ approvedBy Approved reviews login) required
  /\ waitingOnApprovalsFrom Approved reviews required `sublist_of` required.
Proof.
  assert (waitingOnApprovalsFrom Approved reviews required
          = filter (fun login => ~ approvedBy Approved reviews login) required) as Hw.
  { rewrite waitingOnApprovalsFrom_filter. apply list_filter_iff. intros login.
    rewrite <- hasApproved_true. destruct (hasApproved Approved login reviews).2; split;
      congruence. }
  split; [apply approved_Ok_iff|]. split; [|split].
  - intros required' Hperm. rewrite !approved_Ok_iff. rewrite Hperm. reflexivity.
  - exact Hw.
  - rewrite Hw. apply sublist_filter.
Qed.

(** C4: the message that [approved] composes for one, two, and three or more
    missing reviewers. *)
Theorem approved_waiting_message (reviews : list review) (required : list string) :
  (forall x, waitingOnApprovalsFrom Approved reviews required = [x] ->
     approved Approved reviews required
     = Err (BadParameter ("required reviewers have not yet approved, "
                            +:+ "waiting on an approval from " +:+ x) []))
  /\ (forall x y, waitingOnApprovalsFrom Approved reviews required = [x; y] ->
     approved Approved reviews required
     = Err (BadParameter ("required reviewers have not yet approved, "
                            +:+ "waiting for approvals from " +:+ x +:+ " and " +:+ y) []))
  /\ (forall init z, waitingOnApprovalsFrom Approved reviews required = init ++ [z] ->
     (2 <= length init)%nat ->
     approved Approved reviews required
     = Err (BadParameter ("required reviewers have not yet approved, "
                            +:+ "waiting for approvals from "
                            +:+ Join init ", " +:+ ", and " +:+ z) [])).
Proof.
  unfold approved. split; [|split].
  - intros x ->. reflexivity.
  - intros x y ->. reflexivity.
  - intros init z -> Hlen. unfold approved_message. rewrite length_app. simpl.
    destruct (length init + 1 =? 1)%nat eqn:E1; [apply Nat.eqb_eq in E1; lia|].
    destruct (length init + 1 =? 2)%nat eqn:E2; [apply Nat.eqb_eq in E2; lia|].
    destruct (2 <? length init + 1)%nat eqn:E3; [|apply Nat.ltb_ge in E3; lia].
    replace (length init + 1 - 1)%nat with (length init) by lia.
    rewrite take_app_length. rewrite lookup_app_r by lia.
    rewrite Nat.sub_diag. simpl. reflexivity.
Qed.

(** C10: with no required reviewer, [approved] succeeds on any reviews; an
    author whose entry in the policy is the empty list is internal, gets that
    empty list rather than the default reviewers, and passes [approved]. *)
Theorem approved_empty_required (reviews : list review) (e : PullRequestEnvironment)
    (author : string) :
  Reviewers e !! author = Some [] ->
  waitingOnApprovalsFrom Approved reviews [] = []
  /\ approved Approved reviews [] = Ok tt
  /\ IsInternal e author = true
  /\ GetReviewersForAuthor e author = []
  /\ approved Approved reviews (GetReviewersForAuthor e author) = Ok tt.
Proof.
  intros H. unfold IsInternal, GetReviewersForAuthor. rewrite H. repeat split.
Qed.

End Approval.

(** *** The review aggregator *)

Section Aggregation.

Lemma app_cons_eq_cases {A : Type} (l1 l2 a b : list A) (x y : A) :
  l1 ++ x :: l2 = a ++ y :: b ->
  (l1 = a /\ x = y /\ l2 = b)
  \/ (exists c, a = l1 ++ x :: c /\ l2 = c ++ y :: b)
  \/ (exists c, l1 = a ++ y :: c /\ b = c ++ x :: l2).
Proof.
  revert a. induction l1 as [|z l1 IH]; intros a H.
  - destruct a as [|w a]; simpl in H.
    + injection H as -> ->. left. auto.
    + injection H as -> ->. right. left. exists a. auto.
  - destruct a as [|w a]; simpl in H.
    + injection H as -> <-. right. right. exists l1. auto.
    + injection H as -> H. destruct (IH a H) as [(-> & -> & ->) | [(c & -> & ->) | (c & -> & ->)]].
      * left. auto.
      * right. left. exists c. auto.
      * right. right. exists c. auto.
Qed.

Lemma firstLatest_unique (l : list review) (r r' : review) :
  firstLatest l r -> firstLatest l r' -> rev_name r = rev_name r' -> r = r'.
Proof.
  intros (l1 & l2 & -> & Hb & Ha) (l1' & l2' & E & Hb' & Ha') Hn.
  apply app_cons_eq_cases in E as [(_ & E & _) | [(c & -> & ->) | (c & -> & ->)]].
  - exact E.
  - assert (submitted r < submitted r') by (apply Hb'; [set_solver | exact Hn]).
    assert (submitted r' <= submitted r) by (apply Ha; [set_solver | congruence]).
    lia.
  - assert (submitted r' < submitted r) by (apply Hb; [set_solver | congruence]).
    assert (submitted r <= submitted r') by (apply Ha'; [set_solver | exact Hn]).
    lia.
Qed.

Lemma firstLatest_elem_of (l : list review) (r : review) : firstLatest l r -> r ∈ l.
Proof. intros (l1 & l2 & -> & _). set_solver. Qed.

Lemma firstLatest_latest (l : list review) (r r' : review) :
  firstLatest l r -> r' ∈ l -> rev_name r' = rev_name r -> submitted r' <= submitted r.
Proof.
  intros (l1 & l2 & -> & Hb & Ha) Hin Hn.
  apply elem_of_app in Hin as [Hin | Hin].
  - specialize (Hb r' Hin Hn). lia.
  - apply elem_of_cons in Hin as [-> | Hin]; [lia | auto].
Qed.

Lemma mostRecent_step_inv (l : list review) (m : gmap string review) (rev : review) :
  allSubmitted (l ++ [rev]) ->
  mostRecent_inv l m ->
  exists m', mostRecent_step m rev = Ok m' /\ mostRecent_inv (l ++ [rev]) m'.
Proof.
  intros Hwf [Hval Hdom]. unfold mostRecent_step.
  apply Forall_app in Hwf as [Hwfl Hwfr]. apply Forall_singleton in Hwfr as [t Ht].
  (* an entry of another reviewer stays where it is *)
  assert (forall n r, n <> rev_name rev -> m !! n = Some r ->
            rev_name r = n /\ firstLatest (l ++ [rev]) r) as Hother.
  { intros n r Hne Hm. destruct (Hval n r Hm) as [Hn (l1 & l2 & -> & Hb & Ha)].
    split; [exact Hn|]. exists l1, (l2 ++ [rev]). rewrite <- app_assoc. split; [reflexivity|].
    split; [exact Hb|]. intros r' Hin Hr'. apply elem_of_app in Hin as [Hin | Hin]; [auto|].
    apply list_elem_of_singleton in Hin as ->. congruence. }
  destruct (m !! rev_name rev) as [val|] eqn:Hm; simpl.
  - destruct (Hval _ _ Hm) as [Hvn Hvl].
    assert (is_Some (rev_submittedAt val)) as [u Hu].
    { rewrite Forall_forall in Hwfl. apply Hwfl, firstLatest_elem_of, Hvl. }
    rewrite Ht, Hu; simpl. unfold After.
    assert (submitted rev = t) as Ert by (unfold submitted; rewrite Ht; reflexivity).
    assert (submitted val = u) as Euv by (unfold submitted; rewrite Hu; reflexivity).
    destruct (u <? t) eqn:Hlt.
    + apply Z.ltb_lt in Hlt. eexists; split; [reflexivity|]. split.
      * intros n r Hr. destruct (decide (n = rev_name rev)) as [->|Hne].
        -- rewrite lookup_insert_eq in Hr. injection Hr as <-. split; [reflexivity|].
           exists l, []. split; [reflexivity|]. split; [|intros r' Hin; inversion Hin].
           intros r' Hin Hr'.
           assert (submitted r' <= submitted val)
             by (apply (firstLatest_latest l); [assumption..|congruence]).
           lia.
        -- rewrite lookup_insert_ne in Hr by congruence. apply Hother; assumption.
      * intros r Hin. destruct (decide (rev_name r = rev_name rev)) as [->|Hne].
        -- rewrite lookup_insert_eq. eauto.
        -- rewrite lookup_insert_ne by congruence. apply Hdom.
           apply elem_of_app in Hin as [Hin | Hin]; [exact Hin|].
           apply list_elem_of_singleton in Hin as ->. congruence.
    + apply Z.ltb_ge in Hlt. eexists; split; [reflexivity|]. split.
      * intros n r Hr. destruct (decide (n = rev_name rev)) as [->|Hne].
        -- rewrite Hm in Hr. injection Hr as <-. split; [exact Hvn|].
           destruct Hvl as (l1 & l2 & -> & Hb & Ha). exists l1, (l2 ++ [rev]).
           rewrite <- app_assoc. split; [reflexivity|]. split; [exact Hb|].
           intros r' Hin Hr'. apply elem_of_app in Hin as [Hin | Hin]; [auto|].
           apply list_elem_of_singleton in Hin as ->. lia.
        -- apply Hother; assumption.
      * intros r Hin. apply elem_of_app in Hin as [Hin | Hin]; [auto|].
        apply list_elem_of_singleton in Hin as ->. rewrite Hm. eauto.
  - eexists; split; [reflexivity|]. split.
    + intros n r Hr. destruct (decide (n = rev_name rev)) as [->|Hne].
      * rewrite lookup_insert_eq in Hr. injection Hr as <-. split; [reflexivity|].
        exists l, []. split; [reflexivity|]. split; [|intros r' Hin; inversion Hin].
        intros r' Hin Hr'. apply Hdom in Hin as [v Hv]. congruence.
      * rewrite lookup_insert_ne in Hr by congruence. apply Hother; assumption.
    + intros r Hin. destruct (decide (rev_name r = rev_name rev)) as [->|Hne].
      * rewrite lookup_insert_eq. eauto.
      * rewrite lookup_insert_ne by congruence. apply Hdom.
        apply elem_of_app in Hin as [Hin | Hin]; [exact Hin|].
        apply list_elem_of_singleton in Hin as ->. congruence.
Qed.

Lemma mostRecent_loop_inv (rest l : list review) (m : gmap string review) :
  allSubmitted (l ++ rest) ->
  mostRecent_inv l m ->
  exists m', mostRecent_loop m rest = Ok m' /\ mostRecent_inv (l ++ rest) m'.
Proof.
  revert l m. induction rest as [|rev rest IH]; intros l m Hwf Hinv; simpl.
  - exists m. rewrite app_nil_r. auto.
  - replace (l ++ rev :: rest) with ((l ++ [rev]) ++ rest) in * by (rewrite <- app_assoc; reflexivity).
    destruct (mostRecent_step_inv l m rev) as (m1 & -> & Hinv1); [|exact Hinv|].
    + apply Forall_app in Hwf. tauto.
    + simpl. apply IH; assumption.
Qed.

(** On reviews that all carry a time, the first loop of [mostRecent] ends
    with a map that holds, for each reviewer seen, the first of that
    reviewer's latest reviews. *)
Lemma mostRecent_map_inv (currentReviews : list review) :
  allSubmitted currentReviews ->
  exists m, mostRecent_map currentReviews = Ok m /\ mostRecent_inv currentReviews m.
Proof.
  intros Hwf. apply (mostRecent_loop_inv currentReviews [] ∅); [exact Hwf|].
  split; [intros n r Hr | intros r Hin].
  - rewrite lookup_empty in Hr. discriminate.
  - inversion Hin.
Qed.

Lemma elem_of_map_values (m : gmap string review) (out : list review) (x : review) :
  out ≡ₚ (map_to_list m).*2 -> x ∈ out <-> exists n, m !! n = Some x.
Proof.
  intros ->. rewrite list_elem_of_fmap. split.
  - intros ([n v] & -> & Hin). exists n. apply elem_of_map_to_list in Hin. exact Hin.
  - intros [n Hn]. exists (n, x). split; [reflexivity|]. apply elem_of_map_to_list. exact Hn.
Qed.

Lemma mostRecent_total (currentReviews : list review) :
  allSubmitted currentReviews -> exists reviews, mostRecent currentReviews reviews.
Proof.
  intros Hwf. destruct (mostRecent_map_inv _ Hwf) as (m & Hm & _).
  exists (map_to_list m).*2, m. split; [exact Hm | reflexivity].
Qed.

Lemma mostRecent_names_NoDup (currentReviews reviews : list review) :
  allSubmitted currentReviews ->
  mostRecent currentReviews reviews -> NoDup (rev_name <$> reviews).
Proof.
  intros Hwf (m & Hm & ->). destruct (mostRecent_map_inv _ Hwf) as (m' & Hm' & Hval & _).
  rewrite Hm in Hm'. injection Hm' as <-.
  rewrite <- list_fmap_compose.
  replace (rev_name ∘ snd <$> map_to_list m) with ((map_to_list m).*1).
  - apply NoDup_fst_map_to_list.
  - apply Forall_fmap_ext, Forall_forall. intros [n v] Hin. simpl.
    apply elem_of_map_to_list in Hin. symmetry. apply (Hval n v Hin).
Qed.

Lemma mostRecent_retains (currentReviews reviews : list review) (r : review) :
  allSubmitted currentReviews ->
  mostRecent currentReviews reviews ->
  r ∈ reviews <-> firstLatest currentReviews r.
Proof.
  intros Hwf (m & Hm & Hp). destruct (mostRecent_map_inv _ Hwf) as (m' & Hm' & Hval & Hdom).
  rewrite Hm in Hm'. injection Hm' as <-.
  rewrite (elem_of_map_values m reviews r Hp). split.
  - intros [n Hn]. apply (Hval n r Hn).
  - intros Hfl. destruct (Hdom r (firstLatest_elem_of _ _ Hfl)) as [v Hv].
    exists (rev_name r). rewrite Hv. f_equal.
    destruct (Hval _ _ Hv) as [Hn Hflv]. apply (firstLatest_unique currentReviews); assumption.
Qed.

Lemma mostRecent_covers (currentReviews reviews : list review) (r : review) :
  allSubmitted currentReviews ->
  mostRecent currentReviews reviews ->
  r ∈ currentReviews ->
  exists latest, latest ∈ reviews /\ rev_name latest = rev_name r
                 /\ firstLatest currentReviews latest.
Proof.
  intros Hwf Hmr Hin. pose proof Hmr as (m & Hm & Hp).
  destruct (mostRecent_map_inv _ Hwf) as (m' & Hm' & Hval & Hdom).
  rewrite Hm in Hm'. injection Hm' as <-.
  destruct (Hdom r Hin) as [latest Hl]. destruct (Hval _ _ Hl) as [Hn Hfl].
  exists latest. split; [|split; assumption].
  apply (elem_of_map_values m reviews latest Hp). eauto.
Qed.

(** C5: when the reviews of each reviewer carry pairwise distinct times,
    [mostRecent] returns a slice with at most one review per login, made of
    input reviews, and holding for every reviewer of the input that
    reviewer's review with the greatest time, and no other review of that
    reviewer. *)
Theorem mostRecent_keeps_latest (currentReviews : list review) :
  allSubmitted currentReviews ->
  (forall i j r r', currentReviews !! i = Some r -> currentReviews !! j = Some r' ->
     i <> j -> rev_name r = rev_name r' -> rev_submittedAt r <> rev_submittedAt r') ->
  (exists reviews, mostRecent currentReviews reviews)
  /\ forall reviews, mostRecent currentReviews reviews ->
       NoDup (rev_name <$> reviews)
       /\ (forall x, x ∈ reviews -> x ∈ currentReviews)
       /\ forall r, r ∈ currentReviews ->
            exists latest,
              latest ∈ reviews
              /\ rev_name latest = rev_name r
              /\ (forall r', r' ∈ currentReviews -> rev_name r' = rev_name r ->
                    r' = latest \/ submitted r' < submitted latest)
              /\ (forall x, x ∈ reviews -> rev_name x = rev_name r -> x = latest).
Proof.
  intros Hwf Hdistinct. split; [apply mostRecent_total; exact Hwf|].
  intros reviews Hmr. split; [eapply mostRecent_names_NoDup; eassumption|]. split.
  - intros x Hx. apply (mostRecent_retains _ _ x Hwf Hmr) in Hx.
    apply firstLatest_elem_of in Hx. exact Hx.
  - intros r Hin. destruct (mostRecent_covers _ _ r Hwf Hmr Hin) as (latest & Hl & Hn & Hfl).
    exists latest. split; [exact Hl|]. split; [exact Hn|]. split.
    + intros r' Hin' Hn'. destruct Hfl as (l1 & l2 & E & Hb & Ha).
      rewrite E in Hin'. apply elem_of_app in Hin' as [Hin' | Hin'].
      * right. apply Hb; congruence.
      * apply elem_of_cons in Hin' as [-> | Hin']; [left; reflexivity|].
        assert (submitted r' <= submitted latest) as Hle by (apply Ha; congruence).
        apply list_elem_of_lookup in Hin' as [j Hj].
        assert (currentReviews !! length l1 = Some latest) as Hi.
        { rewrite E. apply list_lookup_middle. reflexivity. }
        assert (currentReviews !! (length l1 + S j)%nat = Some r') as Hj'.
        { rewrite E. rewrite lookup_app_r by lia.
          replace (length l1 + S j - length l1)%nat with (S j) by lia. exact Hj. }
        assert (rev_submittedAt latest <> rev_submittedAt r') as Hne.
        { apply (Hdistinct (length l1) (length l1 + S j)%nat); [assumption..|lia|congruence]. }
        pose proof (proj1 (Forall_forall _ _) Hwf) as Hall.
        assert (is_Some (rev_submittedAt latest)) as [t Ht].
        { apply Hall. rewrite E. apply elem_of_app. right. left. }
        assert (is_Some (rev_submittedAt r')) as [t' Ht'].
        { apply Hall. rewrite E.
          apply elem_of_app. right. right. apply list_elem_of_lookup. eauto. }
        right. unfold submitted in *. rewrite Ht, Ht' in *. simpl in *.
        assert (t <> t') by congruence. lia.
    + intros x Hx Hnx. apply (mostRecent_retains _ _ x Hwf Hmr) in Hx.
      apply (firstLatest_unique currentReviews); [assumption..|congruence].
Qed.

(** C6, as the code has it: of the reviews of one reviewer the slice returned
    holds the first, in the order of the input, of those with the latest
    time; of two reviews tied on the time the later one is not retained
    (unless the same review value also stands earlier in the input); and any
    two slices that [mostRecent] can return for one input hold the same
    reviews. *)
Theorem mostRecent_keeps_first_of_tied (currentReviews : list review) :
  allSubmitted currentReviews ->
  (exists reviews, mostRecent currentReviews reviews)
  /\ (forall reviews r, mostRecent currentReviews reviews ->
        (r ∈ reviews <-> firstLatest currentReviews r))
  /\ (forall reviews l1 r1 l2 r2 l3, mostRecent currentReviews reviews ->
        currentReviews = l1 ++ r1 :: l2 ++ r2 :: l3 ->
        rev_name r1 = rev_name r2 -> submitted r1 = submitted r2 ->
        r2 ∉ l1 ++ r1 :: l2 ->
        r2 ∉ reviews)
  /\ (forall reviews reviews', mostRecent currentReviews reviews ->
        mostRecent currentReviews reviews' -> reviews ≡ₚ reviews').
Proof.
  intros Hwf. split; [apply mostRecent_total; exact Hwf|]. split; [|split].
  - intros reviews r Hmr. apply mostRecent_retains; assumption.
  - intros reviews l1 r1 l2 r2 l3 Hmr E Hn Ht Hfresh Hin.
    apply (mostRecent_retains _ _ r2 Hwf Hmr) in Hin as (a & b & E' & Hb & _).
    rewrite E in E'.
    replace (l1 ++ r1 :: l2 ++ r2 :: l3) with ((l1 ++ r1 :: l2) ++ r2 :: l3) in E'
      by (rewrite <- app_assoc; reflexivity).
    assert (r1 ∈ a -> False) as Hr1.
    { intros Hr1. specialize (Hb r1 Hr1 Hn). lia. }
    apply app_cons_eq_cases in E' as [(<- & _ & _) | [(c & -> & _) | (c & E1 & _)]].
    + apply Hr1. set_solver.
    + apply Hr1. set_solver.
    + apply Hfresh. rewrite E1. set_solver.
  - intros reviews reviews' (m & Hm & Hp) (m' & Hm' & Hp').
    rewrite Hm in Hm'. injection Hm' as <-. rewrite Hp, Hp'. reflexivity.
Qed.

End Aggregation.

(** C6, at two reviews by one reviewer with the same time: the map keeps the
    first of them, and no slice that [mostRecent] returns holds the last
    one. *)
Lemma mostRecent_tie_drops_last_seen :
  rev_name tied_first = rev_name tied_last
  /\ rev_submittedAt tied_first = rev_submittedAt tied_last
  /\ mostRecent_map [tied_first; tied_last] = Ok (<["alice" := tied_first]> ∅)
  /\ ~ (exists reviews, mostRecent [tied_first; tied_last] reviews /\ tied_last ∈ reviews).
Proof.
  split; [reflexivity|]. split; [reflexivity|].
  assert (mostRecent_map [tied_first; tied_last] = Ok (<["alice" := tied_first]> ∅)) as Hm
    by (vm_compute; reflexivity).
  split; [exact Hm|]. intros (reviews & (m & Hm' & Hp) & Hin).
  rewrite Hm in Hm'. injection Hm' as <-.
  rewrite insert_empty, map_to_list_singleton in Hp. simpl in Hp.
  rewrite Hp in Hin. apply list_elem_of_singleton in Hin. discriminate.
Qed.


(** *** The commit-integrity verifier *)

Section Verify.

Variable GithubCommit : string.

Lemma signedByGitHub_cases (commit : RepositoryCommit) (commit' : Commit) :
  repocommit_Commit commit = Some commit' ->
  signedByGitHub GithubCommit commit <->
  match commit_Verification commit' with
  | Some verification =>
      match verification_Payload verification, verification_Verified verification with
      | Some payload, Some verified => Contains payload GithubCommit && verified = true
      | _, _ => False
      end
  | None => False
  end.
Proof.
  intros Hc. unfold signedByGitHub. split.
  - intros (c' & v & p & Hc' & Hv & Hp & Hb & Hin). rewrite Hc in Hc'. injection Hc' as <-.
    rewrite Hv, Hp, Hb, Hin. reflexivity.
  - destruct (commit_Verification commit') as [v|] eqn:Hv; [|tauto].
    destruct (verification_Payload v) as [p|] eqn:Hp; [|tauto].
    destruct (verification_Verified v) as [b|] eqn:Hb; [|tauto].
    intros H. apply andb_true_iff in H as [Hin ->]. exists commit', v, p. tauto.
Qed.

(** [verifyCommit] returns [nil] exactly when the comparison of base and
    head reports no changed file and the head commit, then fetched, is
    verified with the marker of the trusted host in its payload; a changed
    file gives the bad-parameter error, and so does a commit that is not so
    verified (its verification missing included) when the answer of the host
    carries the commit object that holds the verification. *)
Theorem verifyCommit_nil_iff (c : Bot) (env : PullRequestEnvironment) (pr : Metadata)
    (clt : Client) (log : list Call) :
  Environment c = Some env -> env_Metadata env = Some pr -> env_Client env = Some clt ->
  let compare :=
    Repositories_CompareCommits clt log (RepoOwner pr) (RepoName pr) (BaseSHA pr) (HeadSHA pr) in
  let getCommit :=
    Repositories_GetCommit clt
      (log ++ [CallCompareCommits (RepoOwner pr) (RepoName pr) (BaseSHA pr) (HeadSHA pr)])
      (RepoOwner pr) (RepoName pr) (HeadSHA pr) in
  let result := (verifyCommit GithubCommit c log).1 in
  (result = Ok tt <->
     exists comparison commit,
       compare = Ok comparison /\ comparison_Files comparison = []
       /\ getCommit = Ok commit /\ signedByGitHub GithubCommit commit)
  /\ (forall comparison, compare = Ok comparison -> comparison_Files comparison <> [] ->
        result = Err (BadParameter "detected file change" []))
  /\ (forall comparison commit, compare = Ok comparison -> comparison_Files comparison = [] ->
        getCommit = Ok commit -> is_Some (repocommit_Commit commit) ->
        ~ signedByGitHub GithubCommit commit ->
        result = Err (BadParameter "commit is not verified and/or is not signed by GitHub" []))
  /\ (forall comparison commit, compare = Ok comparison -> getCommit = Ok commit ->
        is_Some (repocommit_Commit commit) ->
        ((exists message, result = Err (BadParameter message []))
         <-> ~ (comparison_Files comparison = [] /\ signedByGitHub GithubCommit commit))).
Proof.
  intros He Hp Hc compare getCommit result.
  (* the result, by cases on what the host answers *)
  assert (result =
    match compare with
    | Ok comparison =>
        if negb (length (comparison_Files comparison) =? 0)%nat
        then Err (BadParameter "detected file change" [])
        else match getCommit with
             | Ok commit =>
                 match repocommit_Commit commit with
                 | Some commit' =>
                     match commit_Verification commit' with
                     | Some verification =>
                         match verification_Payload verification,
                               verification_Verified verification with
                         | Some payload, Some verified =>
                             if Contains payload GithubCommit && verified then Ok tt
                             else Err (BadParameter
                                    "commit is not verified and/or is not signed by GitHub" [])
                         | _, _ => Err (BadParameter
                                    "commit is not verified and/or is not signed by GitHub" [])
                         end
                     | None => Err (BadParameter
                                    "commit is not verified and/or is not signed by GitHub" [])
                     end
                 | None => Panic
                 end
             | Err e => Err e
             | Panic => Panic
             end
    | Err e => Err e
    | Panic => Panic
    end) as Hres.
  { subst result compare getCommit. unfold verifyCommit, bind, lift, request, fail, ret, Wrap.
    rewrite He; simpl. rewrite Hp; simpl. rewrite Hc; simpl.
    destruct (Repositories_CompareCommits clt log _ _ _ _) as [comparison|e|]; simpl;
      [|reflexivity..].
    destruct (negb (length (comparison_Files comparison) =? 0)%nat); simpl; [reflexivity|].
    destruct (Repositories_GetCommit clt _ _ _ _) as [commit|e|]; simpl; [|reflexivity..].
    destruct (repocommit_Commit commit) as [commit'|]; simpl; [|reflexivity].
    destruct (commit_Verification commit') as [v|]; simpl; [|reflexivity].
    destruct (verification_Payload v) as [p|]; simpl; [|reflexivity].
    destruct (verification_Verified v) as [b|]; simpl; [|reflexivity].
    destruct (Contains p GithubCommit && b); reflexivity. }
  assert (forall comparison : CommitsComparison,
            negb (length (comparison_Files comparison) =? 0)%nat = false
            <-> comparison_Files comparison = []) as Hfiles.
  { intros comparison. destruct (comparison_Files comparison); simpl; split;
      (reflexivity || discriminate). }
  (* with both answers at hand *)
  assert (forall comparison commit commit',
            compare = Ok comparison -> comparison_Files comparison = [] ->
            getCommit = Ok commit -> repocommit_Commit commit = Some commit' ->
            (signedByGitHub GithubCommit commit -> result = Ok tt)
            /\ (~ signedByGitHub GithubCommit commit -> result =
                 Err (BadParameter "commit is not verified and/or is not signed by GitHub" [])))
    as Hboth.
  { intros comparison commit commit' E1 Hf E2 Hc'. rewrite Hres, E1.
    apply Hfiles in Hf. rewrite Hf, E2, Hc'.
    rewrite (signedByGitHub_cases commit commit' Hc').
    destruct (commit_Verification commit') as [v|]; [|tauto].
    destruct (verification_Payload v) as [p|]; [|tauto].
    destruct (verification_Verified v) as [b|]; [|tauto].
    destruct (Contains p GithubCommit && b); split; intros H; congruence. }
  assert (forall comparison, compare = Ok comparison -> comparison_Files comparison <> [] ->
            result = Err (BadParameter "detected file change" [])) as Hchanged.
  { intros comparison E1 Hf. rewrite Hres, E1.
    destruct (negb (length (comparison_Files comparison) =? 0)%nat) eqn:Hb; [reflexivity|].
    apply Hfiles in Hb. contradiction. }
  split; [|split; [exact Hchanged|split]].
  - split.
    + intros Hok. rewrite Hres in Hok.
      destruct compare as [comparison|e|] eqn:E1; [|discriminate..].
      destruct (negb (length (comparison_Files comparison) =? 0)%nat) eqn:Hb; [discriminate|].
      apply Hfiles in Hb.
      destruct getCommit as [commit|e|] eqn:E2; [|discriminate..].
      destruct (repocommit_Commit commit) as [commit'|] eqn:Hc'; [|discriminate].
      exists comparison, commit. split; [reflexivity|]. split; [exact Hb|].
      split; [reflexivity|].
      apply (signedByGitHub_cases commit commit' Hc').
      destruct (commit_Verification commit') as [v|]; [|discriminate].
      destruct (verification_Payload v) as [p|]; [|discriminate].
      destruct (verification_Verified v) as [b|]; [|discriminate].
      destruct (Contains p GithubCommit && b); [reflexivity | discriminate].
    + intros (comparison & commit & E1 & Hf & E2 & Hs).
      pose proof Hs as (commit' & _ & _ & Hc' & _).
      apply (Hboth comparison commit commit'); assumption.
  - intros comparison commit E1 Hf E2 [commit' Hc'] Hns.
    apply (Hboth comparison commit commit'); assumption.
  - intros comparison commit E1 E2 [commit' Hc']. split.
    + intros [message Hm] [Hf Hs].
      destruct (Hboth comparison commit commit' E1 Hf E2 Hc') as [Hok _].
      rewrite (Hok Hs) in Hm. discriminate.
    + intros Hn. destruct (decide (comparison_Files comparison = [])) as [Hf|Hf].
      * eexists. apply (Hboth comparison commit commit' E1 Hf E2 Hc'). tauto.
      * eexists. apply (Hchanged comparison E1 Hf).
Qed.

End Verify.

(** When the answer of the host to [GetCommit] carries no commit object,
    [verifyCommit] reads the verification through the nil pointer
    [commit.Commit] and panics, after both requests: it returns neither [nil]
    nor an error. *)
Lemma verifyCommit_without_commit_object (GithubCommit : string) (c : Bot)
    (env : PullRequestEnvironment) (pr : Metadata) (clt : Client) (log : list Call)
    (comparison : CommitsComparison) (commit : RepositoryCommit) :
  Environment c = Some env -> env_Metadata env = Some pr -> env_Client env = Some clt ->
  let compare := CallCompareCommits (RepoOwner pr) (RepoName pr) (BaseSHA pr) (HeadSHA pr) in
  let fetch := CallGetCommit (RepoOwner pr) (RepoName pr) (HeadSHA pr) in
  Repositories_CompareCommits clt log (RepoOwner pr) (RepoName pr) (BaseSHA pr) (HeadSHA pr)
  = Ok comparison ->
  comparison_Files comparison = [] ->
  Repositories_GetCommit clt (log ++ [compare]) (RepoOwner pr) (RepoName pr) (HeadSHA pr)
  = Ok commit ->
  repocommit_Commit commit = None ->
  verifyCommit GithubCommit c log = (Panic, log ++ [compare; fetch]).
Proof.
  intros He Hp Hc compare fetch Hcompare Hfiles Hfetch Hnone.
  unfold verifyCommit, bind, lift, request. rewrite He. cbn [deref]. rewrite Hp. cbn [deref].
  rewrite Hc. cbn [deref]. rewrite Hcompare, Hfiles. cbn [length Nat.eqb negb].
  fold compare. rewrite Hfetch, Hnone. cbn [deref].
  rewrite <- app_assoc. reflexivity.
Qed.

(** C2, at a head commit that the host returns without its commit object: the
    comparison reports no changed file and the fetched commit carries no
    verification, which is to give the bad-parameter error; [verifyCommit]
    panics on [commit.Commit.Verification] instead, after both requests, and
    returns no error. *)
Theorem verifyCommit_panics_without_commit_object :
  let marker := "committer GitHub <noreply@github.com>" in
  let compare :=
    CallCompareCommits "Codertocat" "Hello-World"
      "f95f852bd8fca8fcc58a9a2d6c842781e32a215e" "ec26c3e57ca3a959ca5aad62de7213c562f8c821" in
  let fetch :=
    CallGetCommit "Codertocat" "Hello-World" "ec26c3e57ca3a959ca5aad62de7213c562f8c821" in
  Repositories_CompareCommits bare_host [] "Codertocat" "Hello-World"
    "f95f852bd8fca8fcc58a9a2d6c842781e32a215e" "ec26c3e57ca3a959ca5aad62de7213c562f8c821"
  = Ok {| comparison_Files := [] |}
  /\ Repositories_GetCommit bare_host [compare] "Codertocat" "Hello-World"
       "ec26c3e57ca3a959ca5aad62de7213c562f8c821"
     = Ok {| repocommit_Commit := None |}
  /\ ~ signedByGitHub marker {| repocommit_Commit := None |}
  /\ verifyCommit marker bare_bot [] = (Panic, [compare; fetch])
  /\ (forall err, (verifyCommit marker bare_bot []).1 <> Err err).
Proof.
  intros marker compare fetch.
  assert (verifyCommit marker bare_bot [] = (Panic, [compare; fetch])) as Hpanic
    by (vm_compute; reflexivity).
  split; [reflexivity|]. split; [reflexivity|]. split.
  - intros (commit' & _ & _ & H & _). discriminate.
  - split; [exact Hpanic|]. intros err. rewrite Hpanic. discriminate.
Qed.

(** *** The approval invalidator *)

Section Invalidate.

Variable Approved : string.

Lemma dismissMessage_mentions (pr : Metadata) (required : list string) :
  dismissMessage pr required = "new commit pushed, please re-review " +:+ mentions required.
Proof.
  unfold dismissMessage. generalize "new commit pushed, please re-review ".
  induction required as [|login required IH]; intros buffer; simpl.
  - rewrite string_app_empty_r. reflexivity.
  - rewrite IH, !string_app_assoc. reflexivity.
Qed.

Section Loop.

Variables (env : PullRequestEnvironment) (pr : Metadata) (clt : Client) (msg : string).
Hypothesis Hpr : env_Metadata env = Some pr.
Hypothesis Hclt : env_Client env = Some clt.

Lemma invalidateApprovals_loop_cons_approved (v : review) (reviews : list review)
    (log : list Call) :
  rev_status v = Approved ->
  invalidateApprovals_loop Approved env msg (v :: reviews) log
  = match dismissalAnswer pr clt msg log v with
    | Ok _ => invalidateApprovals_loop Approved env msg reviews (log ++ [dismissal pr msg v])
    | Err e => (Err e, log ++ [dismissal pr msg v])
    | Panic => (Panic, log ++ [dismissal pr msg v])
    end.
Proof.
  intros Hs. simpl. rewrite bool_decide_eq_true_2 by exact Hs.
  unfold bind, lift, request, Wrap. rewrite Hclt, Hpr; simpl. reflexivity.
Qed.

Lemma invalidateApprovals_loop_filter (reviews : list review) (log : list Call) :
  invalidateApprovals_loop Approved env msg reviews log
  = invalidateApprovals_loop Approved env msg
      (filter (fun v => rev_status v = Approved) reviews) log.
Proof.
  revert log. induction reviews as [|v reviews IH]; intros log; [reflexivity|].
  rewrite filter_cons. destruct (decide (rev_status v = Approved)) as [Hs|Hs].
  - rewrite !invalidateApprovals_loop_cons_approved by exact Hs.
    destruct (dismissalAnswer pr clt msg log v); [apply IH | reflexivity..].
  - simpl. rewrite bool_decide_eq_false_2 by exact Hs. apply IH.
Qed.

Lemma invalidateApprovals_loop_approved (l : list review) (log : list Call) :
  Forall (fun v => rev_status v = Approved) l ->
  let result := invalidateApprovals_loop Approved env msg l log in
  exists done remaining,
    l = done ++ remaining
    /\ result.2 = log ++ (dismissal pr msg <$> done)
    /\ ((result.1 = Ok tt /\ remaining = [] /\ allDismissed pr clt msg log done)
        \/ (exists before v,
              done = before ++ [v]
              /\ allDismissed pr clt msg log before
              /\ dismissalAnswer pr clt msg (log ++ (dismissal pr msg <$> before)) v = result.1
              /\ result.1 <> Ok tt)).
Proof.
  revert log. induction l as [|v l IH]; intros log Hall result; subst result.
  - exists [], []. simpl. rewrite app_nil_r. split; [reflexivity|]. split; [reflexivity|].
    left. split; [reflexivity|]. split; [reflexivity|].
    intros before x after E. destruct before; discriminate.
  - apply Forall_cons in Hall as [Hs Hall].
    rewrite invalidateApprovals_loop_cons_approved by exact Hs.
    destruct (dismissalAnswer pr clt msg log v) as [[]|e|] eqn:Ha.
    + assert (forall done, allDismissed pr clt msg (log ++ [dismissal pr msg v]) done ->
                             allDismissed pr clt msg log (v :: done)) as Hshift.
      { intros done Hd before x after E. destruct before as [|b before]; simpl in E.
        - injection E as <- _. simpl. rewrite app_nil_r. exact Ha.
        - injection E as <- E. rewrite fmap_cons, cons_middle, app_assoc.
          apply (Hd before x after E). }
      destruct (IH (log ++ [dismissal pr msg v]) Hall) as (done & remaining & -> & Hlog & Hcase).
      exists (v :: done), remaining. split; [reflexivity|]. split.
      * rewrite Hlog. rewrite <- app_assoc. reflexivity.
      * destruct Hcase as [(Hok & Hrem & Hd) | (before & x & -> & Hd & Hx & Hne)].
        -- left. auto.
        -- right. exists (v :: before), x. split; [reflexivity|].
           split; [apply Hshift; exact Hd|].
           split; [|exact Hne]. rewrite <- Hx, fmap_cons, cons_middle, app_assoc. reflexivity.
    + exists [v], l. split; [reflexivity|]. split; [reflexivity|]. right.
      exists [], v. split; [reflexivity|]. split.
      * intros before x after E. destruct before; discriminate.
      * simpl. rewrite app_nil_r. split; [exact Ha | discriminate].
    + exists [v], l. split; [reflexivity|]. split; [reflexivity|]. right.
      exists [], v. split; [reflexivity|]. split.
      * intros before x after E. destruct before; discriminate.
      * simpl. rewrite app_nil_r. split; [exact Ha | discriminate].
Qed.

End Loop.

(** C9: [invalidateApprovals], with the message of [dismissMessage], asks
    the host to dismiss the reviews in the approved state, in their order
    and with that message, and nothing else; when every dismissal succeeds
    all of them are dismissed and the result is [nil]; the first dismissal
    that fails ends the loop, no later review is dismissed, and its error is
    the result. *)
Theorem invalidateApprovals_dismisses_approved (c : Bot) (env : PullRequestEnvironment)
    (pr : Metadata) (clt : Client) (required : list string) (reviews : list review)
    (log : list Call) :
  Environment c = Some env -> env_Metadata env = Some pr -> env_Client env = Some clt ->
  let msg := dismissMessage pr required in
  let result := invalidateApprovals Approved c msg reviews log in
  msg = "new commit pushed, please re-review " +:+ mentions required
  /\ exists done remaining,
       filter (fun v => rev_status v = Approved) reviews = done ++ remaining
       /\ result.2 = log ++ (dismissal pr msg <$> done)
       /\ (forall v, v ∈ done -> v ∈ reviews /\ rev_status v = Approved)
       /\ ((result.1 = Ok tt /\ remaining = [] /\ allDismissed pr clt msg log done)
           \/ (exists before v,
                 done = before ++ [v]
                 /\ allDismissed pr clt msg log before
                 /\ dismissalAnswer pr clt msg (log ++ (dismissal pr msg <$> before)) v = result.1
                 /\ result.1 <> Ok tt)).
Proof.
  intros He Hp Hc msg result. split; [apply dismissMessage_mentions|].
  assert (result = invalidateApprovals_loop Approved env msg
                     (filter (fun v => rev_status v = Approved) reviews) log) as ->.
  { subst result. unfold invalidateApprovals, bind, lift. rewrite He. simpl.
    apply (invalidateApprovals_loop_filter env pr clt msg Hp Hc). }
  destruct (invalidateApprovals_loop_approved env pr clt msg Hp Hc
              (filter (fun v => rev_status v = Approved) reviews) log)
    as (done & remaining & E & Hlog & Hcase).
  { apply Forall_forall. intros v Hv. apply list_elem_of_filter in Hv. tauto. }
  exists done, remaining. split; [exact E|]. split; [exact Hlog|]. split; [|exact Hcase].
  intros v Hv.
  assert (v ∈ filter (fun v => rev_status v = Approved) reviews) as Hf
    by (rewrite E; apply elem_of_app; tauto).
  apply list_elem_of_filter in Hf. tauto.
Qed.

End Invalidate.

(** *** The workflow-run reconciler *)

Example branch_host_lists_branch :
  Actions_ListWorkflowRunsByID branch_host [] "Codertocat" "Hello-World" 10 "changes"
  = Ok [mkRun 5 10 "changes" 300; mkRun 1 10 "changes" 100; mkRun 4 10 "changes" 200]
  /\ Actions_ListWorkflowRunsByID branch_host [] "Codertocat" "Hello-World" 10 ""
     = Ok [mkRun 5 10 "changes" 300; mkRun 1 10 "changes" 100; mkRun 2 10 "master" 400;
           mkRun 4 10 "changes" 200].
Proof. split; vm_compute; reflexivity. Qed.

Example sortByCreatedAt_example :
  sortByCreatedAt [mkRun 2 10 "master" 200; mkRun 3 11 "changes" 150; mkRun 1 10 "changes" 100]
  = [mkRun 1 10 "changes" 100; mkRun 3 11 "changes" 150; mkRun 2 10 "master" 200].
Proof. vm_compute. reflexivity. Qed.

Lemma Sorted_weaken {A : Type} (R R' : relation A) (l : list A) :
  (forall x y, R x y -> R' x y) -> Sorted R l -> Sorted R' l.
Proof.
  intros HR Hs. induction Hs as [|x l Hs IH Hhd]; constructor; [exact IH|].
  destruct Hhd; constructor; auto.
Qed.

Lemma sortByCreatedAt_contract : sortSlice_contract sortByCreatedAt.
Proof.
  split.
  - intros runs. apply merge_sort_Permutation.
  - intros runs _. unfold sortByCreatedAt.
    assert (Total (fun r1 r2 : WorkflowRun => createdAt r1 <= createdAt r2)) as Htotal
      by (intros r1 r2; lia).
    eapply Sorted_weaken; [|apply (Sorted_merge_sort _)].
    intros r1 r2 H. unfold createdBefore. simpl in H. lia.
Qed.

Section Reconcile.

Variables CheckWorkflow AssignWorkflow : string.
Variable sortSlice : list WorkflowRun -> list WorkflowRun.
Hypothesis Hsort : sortSlice_contract sortSlice.

Lemma sortSlice_length (runs : list WorkflowRun) : length (sortSlice runs) = length runs.
Proof. apply Permutation_length, Hsort. Qed.

Lemma sortSlice_snoc (runs : list WorkflowRun) :
  runs <> [] -> exists stale latest, sortSlice runs = stale ++ [latest].
Proof.
  intros Hne. pose proof (sortSlice_length runs) as Hlen.
  destruct (sortSlice runs) as [|r l] eqn:E using rev_ind.
  - destruct runs; [contradiction | discriminate].
  - eauto.
Qed.

(** The last run of the sorted slice is created no earlier than any run. *)
Lemma sortSlice_last_latest (runs stale : list WorkflowRun) (latest : WorkflowRun) :
  Forall (fun r => is_Some (run_CreatedAt r)) runs ->
  sortSlice runs = stale ++ [latest] ->
  forall r, r ∈ runs -> createdAt r <= createdAt latest.
Proof.
  intros Hwf E r Hin. destruct Hsort as [Hperm Hsorted].
  specialize (Hsorted runs Hwf). rewrite E in Hsorted.
  assert (Transitive (fun r1 r2 : WorkflowRun => ~ createdBefore r2 r1)) as Htrans
    by (intros x y z; unfold createdBefore; lia).
  apply Sorted_StronglySorted in Hsorted; [|exact Htrans].
  apply StronglySorted_app in Hsorted as (Hcross & _ & _).
  rewrite <- (Hperm runs), E in Hin. apply elem_of_app in Hin as [Hin | Hin].
  - specialize (Hcross r latest Hin). unfold createdBefore in Hcross.
    assert (latest ∈ [latest]) as Hl by left. specialize (Hcross Hl). lia.
  - apply list_elem_of_singleton in Hin as ->. lia.
Qed.

Lemma take_all_but_last {A : Type} (l : list A) (x : A) :
  take (length (l ++ [x]) - 1) (l ++ [x]) = l.
Proof.
  rewrite length_app. simpl. replace (length l + 1 - 1)%nat with (length l) by lia.
  apply take_app_length.
Qed.

Lemma getWorkflow_found (c : Bot) (clt : Client) (owner repoName workflowName : string)
    (workflows : list Workflow) (w : Workflow) (log : list Call) :
  GithubClient c = Some clt ->
  Actions_ListWorkflows clt log owner repoName = Ok workflows ->
  getWorkflow_find workflows workflowName = Ok (Some w) ->
  getWorkflow c owner repoName workflowName log = (Ok w, log ++ [CallListWorkflows owner repoName]).
Proof.
  intros Hc Hl Hf. unfold getWorkflow, bind, lift, request, ret.
  rewrite Hc; simpl. rewrite Hl, Hf. reflexivity.
Qed.

(** The workflow that [getWorkflow] finds is the first one of the list with
    the name asked for. *)
Lemma getWorkflow_find_first (workflows : list Workflow) (workflowName : string) (w : Workflow) :
  getWorkflow_find workflows workflowName = Ok (Some w) ->
  exists before after,
    workflows = before ++ w :: after
    /\ workflow_Name w = Some workflowName
    /\ Forall (fun w' => exists n, workflow_Name w' = Some n /\ n <> workflowName) before.
Proof.
  induction workflows as [|w0 workflows IH]; simpl; [discriminate|].
  destruct (workflow_Name w0) as [n|] eqn:Hn; simpl; [|discriminate].
  destruct (bool_decide (n = workflowName)) eqn:Hb.
  - apply bool_decide_eq_true in Hb as ->. intros [= <-].
    exists [], workflows. split; [reflexivity|]. split; [exact Hn | constructor].
  - apply bool_decide_eq_false in Hb. intros H.
    destruct (IH H) as (before & after & -> & Hw & Hall).
    exists (w0 :: before), after. split; [reflexivity|]. split; [exact Hw|].
    constructor; [eauto | exact Hall].
Qed.

Lemma getSortedWorkflowRuns_sorted (c : Bot) (clt : Client) (owner repoName branchName : string)
    (workflowID : Z) (runs : list WorkflowRun) (log : list Call) :
  GithubClient c = Some clt ->
  Actions_ListWorkflowRunsByID clt log owner repoName workflowID branchName = Ok runs ->
  (length runs <= 1)%nat \/ Forall (fun r => is_Some (run_CreatedAt r)) runs ->
  getSortedWorkflowRuns sortSlice c owner repoName branchName workflowID log
  = (Ok (sortSlice runs), log ++ [CallListWorkflowRunsByID owner repoName workflowID branchName]).
Proof.
  intros Hc Hl Hwf. unfold getSortedWorkflowRuns, bind, lift, request, ret.
  rewrite Hc; simpl. rewrite Hl.
  change (match length runs with S (S _) => true | _ => false end)
    with (2 <=? length runs)%nat.
  assert ((2 <=? length runs)%nat
          && existsb (fun r => bool_decide (run_CreatedAt r = None)) runs = false) as ->;
    [|reflexivity].
  clear Hl. destruct Hwf as [Hshort | Hwf].
  - apply andb_false_iff. left. apply Nat.leb_gt. lia.
  - apply andb_false_iff. right. induction Hwf as [|r runs' [t Ht] _ IH]; [reflexivity|].
    simpl. rewrite IH, Ht. reflexivity.
Qed.

Section Deletions.

Variables (c : Bot) (clt : Client) (owner repoName : string).
Hypothesis Hclt : GithubClient c = Some clt.

Lemma deleteRuns_loop_cons (run : WorkflowRun) (runs : list WorkflowRun) (log : list Call) :
  is_Some (run_ID run) ->
  deleteRuns_loop c owner repoName (run :: runs) log
  = match deletionAnswer clt owner repoName log run with
    | Ok _ => deleteRuns_loop c owner repoName runs (log ++ [deletion owner repoName run])
    | Err e => (Err e, log ++ [deletion owner repoName run])
    | Panic => (Panic, log ++ [deletion owner repoName run])
    end.
Proof.
  intros [runID Hid]. unfold deletion, deletionAnswer, GetID. simpl.
  unfold bind, lift, deleteRun, request, Wrap. rewrite Hid, Hclt; simpl.
  destruct (Do_DeleteRun clt log owner repoName runID); reflexivity.
Qed.

Lemma deleteRuns_loop_spec (runs : list WorkflowRun) (log : list Call) :
  Forall (fun r => is_Some (run_ID r)) runs ->
  let result := deleteRuns_loop c owner repoName runs log in
  exists done remaining,
    runs = done ++ remaining
    /\ result.2 = log ++ (deletion owner repoName <$> done)
    /\ ((result.1 = Ok tt /\ remaining = [] /\ allDeleted clt owner repoName log done)
        \/ (exists before r,
              done = before ++ [r]
              /\ allDeleted clt owner repoName log before
              /\ deletionAnswer clt owner repoName
                   (log ++ (deletion owner repoName <$> before)) r = result.1
              /\ result.1 <> Ok tt)).
Proof.
  revert log. induction runs as [|run runs IH]; intros log Hall result; subst result.
  - exists [], []. simpl. rewrite app_nil_r. split; [reflexivity|]. split; [reflexivity|].
    left. split; [reflexivity|]. split; [reflexivity|].
    intros before x after E. destruct before; discriminate.
  - apply Forall_cons in Hall as [Hid Hall].
    rewrite deleteRuns_loop_cons by exact Hid.
    destruct (deletionAnswer clt owner repoName log run) as [[]|e|] eqn:Ha.
    + assert (forall done, allDeleted clt owner repoName (log ++ [deletion owner repoName run]) done ->
                           allDeleted clt owner repoName log (run :: done)) as Hshift.
      { intros done Hd before x after E. destruct before as [|b before]; simpl in E.
        - injection E as <- _. simpl. rewrite app_nil_r. exact Ha.
        - injection E as <- E. rewrite fmap_cons, cons_middle, app_assoc.
          apply (Hd before x after E). }
      destruct (IH (log ++ [deletion owner repoName run]) Hall)
        as (done & remaining & -> & Hlog & Hcase).
      exists (run :: done), remaining. split; [reflexivity|]. split.
      * rewrite Hlog. rewrite <- app_assoc. reflexivity.
      * destruct Hcase as [(Hok & Hrem & Hd) | (before & x & -> & Hd & Hx & Hne)].
        -- left. auto.
        -- right. exists (run :: before), x. split; [reflexivity|].
           split; [apply Hshift; exact Hd|].
           split; [|exact Hne]. rewrite <- Hx, fmap_cons, cons_middle, app_assoc. reflexivity.
    + exists [run], runs. split; [reflexivity|]. split; [reflexivity|]. right.
      exists [], run. split; [reflexivity|]. split.
      * intros before x after E. destruct before; discriminate.
      * simpl. rewrite app_nil_r. split; [exact Ha | discriminate].
    + exists [run], runs. split; [reflexivity|]. split; [reflexivity|]. right.
      exists [], run. split; [reflexivity|]. split.
      * intros before x after E. destruct before; discriminate.
      * simpl. rewrite app_nil_r. split; [exact Ha | discriminate].
Qed.

(** When the host accepts every deletion, the loop deletes every run. *)
Lemma deleteRuns_loop_all (runs : list WorkflowRun) (log : list Call) :
  Forall (fun r => is_Some (run_ID r)) runs ->
  (forall log' runID, Do_DeleteRun clt log' owner repoName runID = Ok tt) ->
  deleteRuns_loop c owner repoName runs log = (Ok tt, log ++ (deletion owner repoName <$> runs)).
Proof.
  intros Hall Hok. revert log. induction Hall as [|run runs Hid _ IH]; intros log.
  - simpl. rewrite app_nil_r. reflexivity.
  - rewrite deleteRuns_loop_cons by exact Hid. unfold deletionAnswer. rewrite Hok.
    rewrite IH, fmap_cons, <- app_assoc. reflexivity.
Qed.

End Deletions.

Lemma DismissStaleWorkflowRuns_unfold (c : Bot) (clt : Client) (owner repoName branch : string)
    (workflows : list Workflow) (w : Workflow) (workflowID : Z) (runs : list WorkflowRun)
    (log : list Call) :
  GithubClient c = Some clt ->
  Actions_ListWorkflows clt log owner repoName = Ok workflows ->
  getWorkflow_find workflows CheckWorkflow = Ok (Some w) ->
  workflow_ID w = Some workflowID ->
  Actions_ListWorkflowRunsByID clt (log ++ [CallListWorkflows owner repoName])
    owner repoName workflowID branch = Ok runs ->
  (length runs <= 1)%nat \/ Forall (fun r => is_Some (run_CreatedAt r)) runs ->
  DismissStaleWorkflowRuns CheckWorkflow sortSlice c owner repoName branch log
  = deleteRuns c owner repoName (sortSlice runs)
      (log ++ [CallListWorkflows owner repoName;
               CallListWorkflowRunsByID owner repoName workflowID branch]).
Proof.
  intros Hc Hl Hf Hid Hr Hwf. unfold DismissStaleWorkflowRuns, bind.
  rewrite (getWorkflow_found c clt owner repoName CheckWorkflow workflows w log Hc Hl Hf).
  unfold lift. rewrite Hid. cbn [deref].
  rewrite (getSortedWorkflowRuns_sorted c clt owner repoName branch workflowID runs _ Hc Hr Hwf).
  rewrite <- app_assoc. reflexivity.
Qed.

(** C7: [DismissStaleWorkflowRuns] asks the host to delete runs of the sorted
    slice from its start, never its last run, which is created no earlier
    than any fetched run; when every deletion succeeds all the runs but that
    one are deleted; with at most one run fetched nothing is deleted; a
    deletion that fails ends the loop with its error; of three runs created
    at increasing times the first two are deleted. *)
Theorem DismissStaleWorkflowRuns_keeps_latest (c : Bot) (clt : Client)
    (owner repoName branch : string) (workflows : list Workflow) (w : Workflow)
    (workflowID : Z) (runs : list WorkflowRun) (log : list Call) :
  GithubClient c = Some clt ->
  Actions_ListWorkflows clt log owner repoName = Ok workflows ->
  getWorkflow_find workflows CheckWorkflow = Ok (Some w) ->
  workflow_ID w = Some workflowID ->
  Actions_ListWorkflowRunsByID clt (log ++ [CallListWorkflows owner repoName])
    owner repoName workflowID branch = Ok runs ->
  let fetched := log ++ [CallListWorkflows owner repoName;
                         CallListWorkflowRunsByID owner repoName workflowID branch] in
  let result := DismissStaleWorkflowRuns CheckWorkflow sortSlice c owner repoName branch log in
  ((length runs <= 1)%nat -> result = (Ok tt, fetched))
  /\ (runs <> [] ->
      Forall (fun r => is_Some (run_CreatedAt r)) runs ->
      Forall (fun r => is_Some (run_ID r)) runs ->
      exists stale latest done remaining,
        runs ≡ₚ stale ++ [latest]
        /\ (forall r, r ∈ runs -> createdAt r <= createdAt latest)
        /\ stale = done ++ remaining
        /\ result.2 = fetched ++ (deletion owner repoName <$> done)
        /\ (NoDup (run_ID <$> runs) ->
              deletion owner repoName latest ∉ (deletion owner repoName <$> done))
        /\ ((result.1 = Ok tt /\ remaining = [] /\ allDeleted clt owner repoName fetched done)
            \/ (exists before r,
                  done = before ++ [r]
                  /\ allDeleted clt owner repoName fetched before
                  /\ deletionAnswer clt owner repoName
                       (fetched ++ (deletion owner repoName <$> before)) r = result.1
                  /\ result.1 <> Ok tt)))
  /\ (forall r1 r2 r3, runs ≡ₚ [r1; r2; r3] ->
      Forall (fun r => is_Some (run_CreatedAt r)) runs ->
      Forall (fun r => is_Some (run_ID r)) runs ->
      createdAt r1 < createdAt r2 -> createdAt r2 < createdAt r3 ->
      (forall log' runID, Do_DeleteRun clt log' owner repoName runID = Ok tt) ->
      result = (Ok tt, fetched ++ [deletion owner repoName r1; deletion owner repoName r2])).
Proof.
  intros Hc Hl Hf Hid Hr fetched result.
  pose proof (DismissStaleWorkflowRuns_unfold c clt owner repoName branch workflows w
                workflowID runs log Hc Hl Hf Hid Hr) as Hunfold.
  fold fetched in Hunfold. fold result in Hunfold.
  destruct Hsort as [Hperm Hsorted].
  split; [|split].
  - intros Hshort. rewrite Hunfold by (left; exact Hshort). unfold deleteRuns.
    rewrite sortSlice_length. replace (length runs - 1)%nat with 0%nat by lia.
    rewrite take_0. reflexivity.
  - intros Hne Hcreated Hids. rewrite Hunfold by (right; exact Hcreated).
    destruct (sortSlice_snoc runs Hne) as (stale & latest & E).
    unfold deleteRuns. rewrite E, take_all_but_last.
    assert (runs ≡ₚ stale ++ [latest]) as Hp by (rewrite <- E; symmetry; apply Hperm).
    assert (Forall (fun r => is_Some (run_ID r)) stale) as Hstale.
    { rewrite Hp in Hids. apply Forall_app in Hids. tauto. }
    destruct (deleteRuns_loop_spec c clt owner repoName Hc stale fetched Hstale)
      as (done & remaining & Es & Hlog & Hcase).
    exists stale, latest, done, remaining.
    split; [exact Hp|]. split; [apply (sortSlice_last_latest runs stale); assumption|].
    split; [exact Es|]. split; [exact Hlog|]. split; [|exact Hcase].
    intros Hnodup Hin. apply list_elem_of_fmap in Hin as (r & Heq & Hin).
    unfold deletion in Heq. injection Heq as Heq.
    rewrite Hp, Es, fmap_app in Hnodup. apply NoDup_app in Hnodup as (_ & Hdisj & _).
    apply (Hdisj (run_ID r)).
    + apply list_elem_of_fmap. exists r. split; [reflexivity|]. apply elem_of_app. tauto.
    + assert (is_Some (run_ID r)) as [i Hi].
      { rewrite Forall_forall in Hstale. apply Hstale. rewrite Es. apply elem_of_app. tauto. }
      assert (is_Some (run_ID latest)) as [j Hj].
      { rewrite Forall_forall in Hids. apply Hids. rewrite Hp. apply elem_of_app. right. left. }
      unfold GetID in Heq. rewrite Hi, Hj in Heq. simpl in Heq. subst j.
      rewrite Hi, <- Hj. apply list_elem_of_fmap. exists latest. split; [reflexivity | left].
  - intros r1 r2 r3 Hp Hcreated Hids H12 H23 Hok.
    rewrite Hunfold by (right; exact Hcreated).
    assert (sortSlice runs = [r1; r2; r3]) as E.
    { assert (Transitive (fun r r' : WorkflowRun => ~ createdBefore r' r)) as Htrans
        by (intros x y z; unfold createdBefore; lia).
      apply (Sorted_unique_strong (fun r r' : WorkflowRun => ~ createdBefore r' r)).
      - intros x1 x2 Hx1 Hx2 Hle Hge. unfold createdBefore in Hle, Hge.
        rewrite (Hperm runs), Hp in Hx1.
        repeat (apply elem_of_cons in Hx1 as [-> | Hx1]);
          repeat (apply elem_of_cons in Hx2 as [-> | Hx2]);
          try reflexivity; try lia; try (inversion Hx1); try (inversion Hx2).
      - apply Hsorted. exact Hcreated.
      - unfold createdBefore. repeat constructor; lia.
      - rewrite (Hperm runs). exact Hp. }
    unfold deleteRuns. rewrite E.
    change (take (length [r1; r2; r3] - 1) [r1; r2; r3]) with [r1; r2].
    rewrite (deleteRuns_loop_all c clt owner repoName Hc [r1; r2] fetched); [reflexivity| |exact Hok].
    rewrite Hp in Hids. inversion Hids as [|? ? Hi1 Hids']. inversion Hids' as [|? ? Hi2 _].
    repeat constructor; assumption.
Qed.

(** C8, as the code has it: [redoMostRecentRun] fetches the runs of the
    workflow with the branch of the pull request as the branch filter, fails
    with not-found when there is none, and otherwise asks the host to rerun
    the last run of the sorted slice, a fetched run created no earlier than
    any other; [ReRunWorkflows] resolves the Check workflow by name, does
    this for it, and goes on to the Assign workflow when the rerun
    succeeded. *)
Theorem redoMostRecentRun_reruns_latest_on_branch (c : Bot) (env : PullRequestEnvironment)
    (pr : Metadata) (clt eclt : Client) (workflowID : Z) (runs : list WorkflowRun)
    (log : list Call) :
  Environment c = Some env -> env_Metadata env = Some pr ->
  GithubClient c = Some clt -> env_Client env = Some eclt ->
  Actions_ListWorkflowRunsByID clt log (RepoOwner pr) (RepoName pr) workflowID (BranchName pr)
  = Ok runs ->
  (length runs <= 1)%nat \/ Forall (fun r => is_Some (run_CreatedAt r)) runs ->
  let listed :=
    log ++ [CallListWorkflowRunsByID (RepoOwner pr) (RepoName pr) workflowID (BranchName pr)] in
  let result := redoMostRecentRun sortSlice c workflowID log in
  (runs = [] -> result = (Err (NotFound "workflow run not found" []), listed))
  /\ (runs <> [] ->
      exists target,
        target ∈ runs
        /\ (forall r, r ∈ runs -> createdAt r <= createdAt target)
        /\ result =
           (Actions_RerunWorkflowByID eclt listed (RepoOwner pr) (RepoName pr) (GetID target),
            listed ++ [CallRerunWorkflowByID (RepoOwner pr) (RepoName pr) (GetID target)]))
  /\ (forall log0 workflows w,
      log = log0 ++ [CallListWorkflows (RepoOwner pr) (RepoName pr)] ->
      Actions_ListWorkflows clt log0 (RepoOwner pr) (RepoName pr) = Ok workflows ->
      getWorkflow_find workflows CheckWorkflow = Ok (Some w) ->
      workflow_ID w = Some workflowID ->
      ReRunWorkflows CheckWorkflow AssignWorkflow sortSlice c log0
      = match result with
        | (Ok _, log1) =>
            (assignWorkflow <-
               getWorkflow c (RepoOwner pr) (RepoName pr) AssignWorkflow ;;
             assignID <- lift (deref (workflow_ID assignWorkflow)) ;;
             redoMostRecentRun sortSlice c assignID)%host log1
        | failure => failure
        end).
Proof.
  intros He Hp Hc Hec Hr Hwf listed result.
  assert (result =
    if (length (sortSlice runs) <? 1)%nat then (Err (NotFound "workflow run not found" []), listed)
    else match sortSlice runs !! (length (sortSlice runs) - 1)%nat with
         | Some targetRun =>
             (Actions_RerunWorkflowByID eclt listed (RepoOwner pr) (RepoName pr) (GetID targetRun),
              listed ++ [CallRerunWorkflowByID (RepoOwner pr) (RepoName pr) (GetID targetRun)])
         | None => (Panic, listed)
         end) as Hres.
  { subst result. unfold redoMostRecentRun, bind at 1 2 3. unfold lift at 1 2.
    rewrite He. cbn [deref]. rewrite Hp. cbn [deref].
    rewrite (getSortedWorkflowRuns_sorted c clt _ _ _ workflowID runs log Hc Hr Hwf).
    fold listed. destruct (length (sortSlice runs) <? 1)%nat; [reflexivity|].
    unfold bind, lift, request. destruct (sortSlice runs !! _); cbn [deref]; [|reflexivity].
    rewrite Hec. cbn [deref]. reflexivity. }
  destruct Hsort as [Hperm Hsorted]. split; [|split].
  - intros ->. rewrite Hres. pose proof (sortSlice_length []) as Hlen.
    simpl in Hlen. rewrite Hlen. reflexivity.
  - intros Hne. destruct (sortSlice_snoc runs Hne) as (stale & latest & E).
    exists latest. rewrite Hres, E. split; [|split].
    + rewrite <- (Hperm runs), E. apply elem_of_app. right. left.
    + destruct Hwf as [Hshort | Hwf]; [|apply (sortSlice_last_latest runs stale); assumption].
      intros r Hin. rewrite <- (Hperm runs), E in Hin.
      pose proof (sortSlice_length runs) as Hlen. rewrite E, length_app in Hlen. simpl in Hlen.
      destruct stale as [|x stale]; [|simpl in Hlen; lia].
      apply list_elem_of_singleton in Hin as ->. lia.
    + rewrite length_app. simpl.
      destruct (length stale + 1 <? 1)%nat eqn:Hlt; [apply Nat.ltb_lt in Hlt; lia|].
      replace (length stale + 1 - 1)%nat with (length stale) by lia.
      rewrite list_lookup_middle by reflexivity. reflexivity.
  - intros log0 workflows w -> Hl Hf Hid. unfold ReRunWorkflows.
    unfold bind at 1 2 3 4 5. unfold lift at 1 2 3.
    rewrite He. cbn [deref]. rewrite Hp. cbn [deref].
    rewrite (getWorkflow_found c clt _ _ CheckWorkflow workflows w log0 Hc Hl Hf).
    rewrite Hid. cbn [deref]. fold result.
    destruct result as [[[]|e|] log1]; reflexivity.
Qed.

End Reconcile.

(** C8, on a host that holds for the Check workflow three runs on the branch
    of the pull request and a newer run on another branch: the runs are
    fetched with the branch of the pull request as filter, and the run rerun
    is the latest of that branch, not the latest of the workflow. *)
Lemma ReRunWorkflows_filters_by_branch :
  ReRunWorkflows "Check" "Assign" sortByCreatedAt branch_bot []
  = (Ok tt,
     [CallListWorkflows "Codertocat" "Hello-World";
      CallListWorkflowRunsByID "Codertocat" "Hello-World" 10 "changes";
      CallRerunWorkflowByID "Codertocat" "Hello-World" 5;
      CallListWorkflows "Codertocat" "Hello-World";
      CallListWorkflowRunsByID "Codertocat" "Hello-World" 11 "changes";
      CallRerunWorkflowByID "Codertocat" "Hello-World" 3])
  /\ Actions_ListWorkflowRunsByID branch_host [CallListWorkflows "Codertocat" "Hello-World"]
       "Codertocat" "Hello-World" 10 ""
     = Ok [mkRun 5 10 "changes" 300; mkRun 1 10 "changes" 100; mkRun 2 10 "master" 400;
           mkRun 4 10 "changes" 200]
  /\ createdAt (mkRun 5 10 "changes" 300) < createdAt (mkRun 2 10 "master" 400)
  /\ (CallListWorkflowRunsByID "Codertocat" "Hello-World" 10 ""
        ∉ (ReRunWorkflows "Check" "Assign" sortByCreatedAt branch_bot []).2)
  /\ (CallRerunWorkflowByID "Codertocat" "Hello-World" 2
        ∉ (ReRunWorkflows "Check" "Assign" sortByCreatedAt branch_bot []).2).
Proof.
  assert (ReRunWorkflows "Check" "Assign" sortByCreatedAt branch_bot []
          = (Ok tt,
             [CallListWorkflows "Codertocat" "Hello-World";
              CallListWorkflowRunsByID "Codertocat" "Hello-World" 10 "changes";
              CallRerunWorkflowByID "Codertocat" "Hello-World" 5;
              CallListWorkflows "Codertocat" "Hello-World";
              CallListWorkflowRunsByID "Codertocat" "Hello-World" 11 "changes";
              CallRerunWorkflowByID "Codertocat" "Hello-World" 3])) as Hrun
    by (vm_compute; reflexivity).
  split; [exact Hrun|]. split; [vm_compute; reflexivity|]. split; [reflexivity|].
  rewrite Hrun. simpl.
  split; intros H; repeat (apply elem_of_cons in H as [H|H]; [discriminate|]); inversion H.
Qed.

(** ** The theorems at concrete inputs *)

Lemma verifyCommit_nil_iff_witness :
  Environment signed_bot = Some signed_env
  /\ env_Metadata signed_env = Some test_pr
  /\ env_Client signed_env = Some signed_host
  /\ (verifyCommit "committer GitHub <noreply@github.com>" signed_bot []).1 = Ok tt.
Proof.
  split; [reflexivity|]. split; [reflexivity|]. split; [reflexivity|].
  apply (proj1 (verifyCommit_nil_iff "committer GitHub <noreply@github.com>"
                  signed_bot signed_env test_pr signed_host [] eq_refl eq_refl eq_refl)).
  eexists. eexists. split; [reflexivity|]. split; [reflexivity|]. split; [reflexivity|].
  eexists. eexists. eexists. split; [reflexivity|]. split; [reflexivity|].
  split; [reflexivity|]. split; [reflexivity|]. vm_compute. reflexivity.
Defined.

Lemma approved_iff_all_required_approved_witness :
  ["bob"; "alice"] ≡ₚ ["alice"; "bob"]
  /\ (approved "APPROVED" [tied_first; other_review] ["bob"; "alice"] = Ok tt
      <-> approved "APPROVED" [tied_first; other_review] ["alice"; "bob"] = Ok tt)
  /\ waitingOnApprovalsFrom "APPROVED" [tied_first; other_review] ["bob"; "alice"] = ["bob"].
Proof.
  assert (["bob"; "alice"] ≡ₚ ["alice"; "bob"]) as Hp by apply Permutation_swap.
  destruct (approved_iff_all_required_approved "APPROVED" [tied_first; other_review]
              ["bob"; "alice"]) as (_ & Hperm & _ & _).
  split; [exact Hp|]. split; [exact (Hperm _ Hp)|]. vm_compute. reflexivity.
Defined.

Lemma approved_waiting_message_witness :
  approved "APPROVED" [] ["a"]
  = Err (BadParameter
           "required reviewers have not yet approved, waiting on an approval from a" [])
  /\ approved "APPROVED" [] ["a"; "b"]
     = Err (BadParameter
              "required reviewers have not yet approved, waiting for approvals from a and b" [])
  /\ approved "APPROVED" [] ["a"; "b"; "c"]
     = Err (BadParameter
              "required reviewers have not yet approved, waiting for approvals from a, b, and c"
              []).
Proof.
  split; [|split].
  - exact (proj1 (approved_waiting_message "APPROVED" [] ["a"]) "a" eq_refl).
  - exact (proj1 (proj2 (approved_waiting_message "APPROVED" [] ["a"; "b"])) "a" "b" eq_refl).
  - apply (proj2 (proj2 (approved_waiting_message "APPROVED" [] ["a"; "b"; "c"]))
             ["a"; "b"] "c" eq_refl).
    simpl. lia.
Defined.

Lemma approved_empty_required_witness :
  Reviewers signed_env !! "intern" = Some []
  /\ IsInternal signed_env "intern" = true
  /\ approved "APPROVED" [] (GetReviewersForAuthor signed_env "intern") = Ok tt.
Proof.
  assert (Reviewers signed_env !! "intern" = Some []) as H by (vm_compute; reflexivity).
  destruct (approved_empty_required "APPROVED" [] signed_env "intern" H)
    as (_ & _ & Hi & _ & Ha).
  split; [exact H|]. split; [exact Hi | exact Ha].
Defined.

Lemma allSubmitted_fixture : allSubmitted [tied_first; newer_review; other_review].
Proof. repeat (constructor; [eexists; reflexivity|]). constructor. Defined.

Lemma mostRecent_keeps_latest_witness :
  allSubmitted [tied_first; newer_review; other_review]
  /\ exists reviews,
       mostRecent [tied_first; newer_review; other_review] reviews
       /\ NoDup (rev_name <$> reviews)
       /\ newer_review ∈ reviews.
Proof.
  split; [exact allSubmitted_fixture|].
  assert (forall i j r r',
            [tied_first; newer_review; other_review] !! i = Some r ->
            [tied_first; newer_review; other_review] !! j = Some r' ->
            i <> j -> rev_name r = rev_name r' -> rev_submittedAt r <> rev_submittedAt r')
    as Hdistinct.
  { intros i j r r' Hi Hj Hij Hn.
    destruct i as [|[|[|i]]]; destruct j as [|[|[|j]]]; simpl in Hi, Hj;
      try discriminate; injection Hi as <-; injection Hj as <-;
      try congruence; try discriminate. }
  destruct (mostRecent_keeps_latest [tied_first; newer_review; other_review]
              allSubmitted_fixture Hdistinct) as [[reviews Hmr] Hall].
  exists reviews. split; [exact Hmr|].
  destruct (Hall reviews Hmr) as (Hnodup & Hsub & Hlatest).
  split; [exact Hnodup|].
  destruct (Hlatest tied_first) as (latest & Hin & Hn & Hmax & _); [left|].
  destruct (Hmax newer_review) as [-> | Hlt]; [right; left | reflexivity | exact Hin |].
  apply Hsub in Hin.
  repeat (apply elem_of_cons in Hin as [-> | Hin]); try (vm_compute in Hlt; discriminate).
  inversion Hin.
Defined.

Lemma mostRecent_keeps_first_of_tied_witness :
  allSubmitted [tied_first; tied_last]
  /\ exists reviews, mostRecent [tied_first; tied_last] reviews /\ tied_last ∉ reviews.
Proof.
  assert (allSubmitted [tied_first; tied_last]) as Hwf
    by (repeat (constructor; [eexists; reflexivity|]); constructor).
  split; [exact Hwf|].
  destruct (mostRecent_keeps_first_of_tied [tied_first; tied_last] Hwf)
    as ([reviews Hmr] & _ & Htie & _).
  exists reviews. split; [exact Hmr|].
  apply (Htie reviews [] tied_first [] tied_last [] Hmr); [reflexivity..|].
  intros H. apply list_elem_of_singleton in H. discriminate.
Defined.

Lemma DismissStaleWorkflowRuns_keeps_latest_witness :
  sortSlice_contract sortByCreatedAt
  /\ GithubClient branch_bot = Some branch_host
  /\ Actions_ListWorkflowRunsByID branch_host [CallListWorkflows "Codertocat" "Hello-World"]
       "Codertocat" "Hello-World" 10 "changes"
     = Ok [mkRun 5 10 "changes" 300; mkRun 1 10 "changes" 100; mkRun 4 10 "changes" 200]
  /\ DismissStaleWorkflowRuns "Check" sortByCreatedAt branch_bot
       "Codertocat" "Hello-World" "changes" []
     = (Ok tt,
        [CallListWorkflows "Codertocat" "Hello-World";
         CallListWorkflowRunsByID "Codertocat" "Hello-World" 10 "changes";
         CallDeleteRun "Codertocat" "Hello-World" 1;
         CallDeleteRun "Codertocat" "Hello-World" 4]).
Proof.
  split; [exact sortByCreatedAt_contract|]. split; [reflexivity|].
  assert (Actions_ListWorkflowRunsByID branch_host [CallListWorkflows "Codertocat" "Hello-World"]
            "Codertocat" "Hello-World" 10 "changes"
          = Ok [mkRun 5 10 "changes" 300; mkRun 1 10 "changes" 100; mkRun 4 10 "changes" 200])
    as Hruns by (vm_compute; reflexivity).
  split; [exact Hruns|].
  destruct (DismissStaleWorkflowRuns_keeps_latest "Check" sortByCreatedAt
              sortByCreatedAt_contract branch_bot branch_host
              "Codertocat" "Hello-World" "changes"
              [ {| workflow_ID := Some 10; workflow_Name := Some "Check" |};
                {| workflow_ID := Some 11; workflow_Name := Some "Assign" |} ]
              {| workflow_ID := Some 10; workflow_Name := Some "Check" |} 10
              [mkRun 5 10 "changes" 300; mkRun 1 10 "changes" 100; mkRun 4 10 "changes" 200]
              [] eq_refl eq_refl eq_refl eq_refl Hruns) as (_ & _ & Hthree).
  apply (Hthree (mkRun 1 10 "changes" 100) (mkRun 4 10 "changes" 200) (mkRun 5 10 "changes" 300)).
  - etrans; [apply Permutation_swap|]. apply Permutation_skip, Permutation_swap.
  - repeat (constructor; [eexists; reflexivity|]). constructor.
  - repeat (constructor; [eexists; reflexivity|]). constructor.
  - reflexivity.
  - reflexivity.
  - reflexivity.
Defined.

Lemma redoMostRecentRun_reruns_latest_on_branch_witness :
  sortSlice_contract sortByCreatedAt
  /\ Actions_ListWorkflowRunsByID branch_host [] (RepoOwner test_pr) (RepoName test_pr) 10
       (BranchName test_pr)
     = Ok [mkRun 5 10 "changes" 300; mkRun 1 10 "changes" 100; mkRun 4 10 "changes" 200]
  /\ exists target,
       target ∈ [mkRun 5 10 "changes" 300; mkRun 1 10 "changes" 100; mkRun 4 10 "changes" 200]
       /\ redoMostRecentRun sortByCreatedAt branch_bot 10 []
          = (Ok tt,
             [CallListWorkflowRunsByID "Codertocat" "Hello-World" 10 "changes";
              CallRerunWorkflowByID "Codertocat" "Hello-World" (GetID target)]).
Proof.
  split; [exact sortByCreatedAt_contract|].
  assert (Actions_ListWorkflowRunsByID branch_host [] (RepoOwner test_pr) (RepoName test_pr) 10
            (BranchName test_pr)
          = Ok [mkRun 5 10 "changes" 300; mkRun 1 10 "changes" 100; mkRun 4 10 "changes" 200])
    as Hruns by (vm_compute; reflexivity).
  split; [exact Hruns|].
  destruct (redoMostRecentRun_reruns_latest_on_branch "Check" "Assign" sortByCreatedAt
              sortByCreatedAt_contract branch_bot _ test_pr branch_host branch_host 10
              [mkRun 5 10 "changes" 300; mkRun 1 10 "changes" 100; mkRun 4 10 "changes" 200]
              [] eq_refl eq_refl eq_refl eq_refl Hruns) as (_ & Hrerun & _).
  - right. repeat (constructor; [eexists; reflexivity|]). constructor.
  - destruct Hrerun as (target & Hin & _ & Hres); [discriminate|].
    exists target. split; [exact Hin | exact Hres].
Defined.

Lemma invalidateApprovals_dismisses_approved_witness :
  Environment branch_bot <> None
  /\ dismissMessage test_pr ["bar"; "baz"] = "new commit pushed, please re-review @bar@baz"
  /\ exists done remaining,
       filter (fun v => rev_status v = "APPROVED") [tied_first; other_review; newer_review]
       = done ++ remaining
       /\ (invalidateApprovals "APPROVED" branch_bot (dismissMessage test_pr ["bar"; "baz"])
             [tied_first; other_review; newer_review] []).2
          = dismissal test_pr (dismissMessage test_pr ["bar"; "baz"]) <$> done.
Proof.
  split; [discriminate|].
  destruct (invalidateApprovals_dismisses_approved "APPROVED" branch_bot _ test_pr branch_host
              ["bar"; "baz"] [tied_first; other_review; newer_review] []
              eq_refl eq_refl eq_refl) as (Hmsg & done & remaining & E & Hlog & _).
  split; [exact Hmsg|]. exists done, remaining. split; [exact E | exact Hlog].
Defined.

(** ** More properties of the approval check *)

(** [hasNewCommit] is true exactly when some review was made against a
    commit other than the head, and false exactly when every review (none
    included) was made against the head. *)
Theorem hasNewCommit_iff (headSHA : string) (revs : list review) :
  (hasNewCommit headSHA revs = true <-> Exists (fun v => rev_commitID v <> headSHA) revs)
  /\ (hasNewCommit headSHA revs = false <-> Forall (fun v => rev_commitID v = headSHA) revs).
Proof.
  induction revs as [|v revs [IHt IHf]]; simpl.
  - rewrite Exists_nil, Forall_nil. split; split; try tauto; discriminate.
  - rewrite Exists_cons, Forall_cons. destruct (decide (rev_commitID v = headSHA)) as [He|Hne].
    + rewrite bool_decide_eq_false_2 by tauto. rewrite IHt, IHf. tauto.
    + rewrite bool_decide_eq_true_2 by exact Hne. split; split; try tauto; discriminate.
Qed.

Lemma checkReviewFields_Done (review : PullRequestReview) :
  checkReviewFields review = Done tt <->
    is_Some (review_ID review) /\ is_Some (review_State review)
    /\ is_Some (review_CommitID review) /\ is_Some (review_SubmittedAt review)
    /\ exists user, review_User review = Some user /\ is_Some (user_Login user).
Proof.
  unfold checkReviewFields. split.
  - destruct (review_ID review); [|discriminate].
    destruct (review_State review); [|discriminate].
    destruct (review_CommitID review); [|discriminate].
    destruct (review_SubmittedAt review); [|discriminate].
    destruct (review_User review) as [user|]; [|discriminate].
    destruct (user_Login user) eqn:Hl; [|discriminate].
    intros _. repeat split; eauto.
  - intros ([i ->] & [s ->] & [ci ->] & [t ->] & user & -> & [l ->]). reflexivity.
Qed.

(** [checkReviewFields] accepts a review exactly when its identifier, state,
    commit, submission time and reviewer login are all set; it panics, rather
    than failing, exactly when the first four are set and the review has no
    user at all; and the error it returns carries the review. *)
Theorem checkReviewFields_cases (review : PullRequestReview) :
  (checkReviewFields review = Done tt <->
     is_Some (review_ID review) /\ is_Some (review_State review)
     /\ is_Some (review_CommitID review) /\ is_Some (review_SubmittedAt review)
     /\ exists user, review_User review = Some user /\ is_Some (user_Login user))
  /\ (checkReviewFields review = Panicked <->
     is_Some (review_ID review) /\ is_Some (review_State review)
     /\ is_Some (review_CommitID review) /\ is_Some (review_SubmittedAt review)
     /\ review_User review = None)
  /\ (forall e, checkReviewFields review = Failed e -> exists format, e = Errorf format review).
Proof.
  unfold checkReviewFields.
  destruct (review_ID review) as [i|]; [|repeat split; try discriminate;
    try (intros (H & _); destruct H; discriminate); intros e [= <-]; eauto].
  destruct (review_State review) as [s|]; [|repeat split; try discriminate;
    try (intros (_ & H & _); destruct H; discriminate); intros e [= <-]; eauto].
  destruct (review_CommitID review) as [ci|]; [|repeat split; try discriminate;
    try (intros (_ & _ & H & _); destruct H; discriminate); intros e [= <-]; eauto].
  destruct (review_SubmittedAt review) as [t|]; [|repeat split; try discriminate;
    try (intros (_ & _ & _ & H & _); destruct H; discriminate); intros e [= <-]; eauto].
  destruct (review_User review) as [user|].
  - destruct (user_Login user) as [l|] eqn:Hl.
    + repeat split; eauto; try discriminate.
      * intros (_ & _ & _ & _ & H). discriminate.
    + repeat split; eauto; try discriminate.
      * intros (_ & _ & _ & _ & u & [= <-] & [x Hx]). congruence.
      * intros (_ & _ & _ & _ & H). discriminate.
      * intros e [= <-]. eauto.
  - repeat split; eauto; try discriminate.
    intros (_ & _ & _ & _ & u & H & _). discriminate.
Qed.

Section GetReviews.

(** The copy of a checked review that [getReviews] makes. *)
Lemma getReviews_loop_Done (reviews : list PullRequestReview) (acc current : list review) :
  getReviews_loop reviews acc = Done current ->
  exists converted,
    current = acc ++ converted
    /\ allSubmitted converted
    /\ Forall2 (fun rev r =>
                  checkReviewFields rev = Done tt
                  /\ review_ID rev = Some (rev_id r)
                  /\ review_State rev = Some (rev_status r)
                  /\ review_CommitID rev = Some (rev_commitID r)
                  /\ review_SubmittedAt rev = rev_submittedAt r
                  /\ exists user, review_User rev = Some user
                                  /\ user_Login user = Some (rev_name r))
               reviews converted.
Proof.
  revert acc. induction reviews as [|rev reviews IH]; intros acc; simpl.
  - intros [= <-]. exists []. rewrite app_nil_r. repeat split; constructor.
  - destruct (checkReviewFields rev) as [[]| |] eqn:Hc; [|discriminate..].
    pose proof (proj1 (checkReviewFields_Done rev) Hc)
      as (_ & _ & _ & Ht & _).
    destruct (review_User rev) as [user|] eqn:Hu; [|discriminate].
    destruct (user_Login user) as [login|] eqn:Hl; [|discriminate].
    destruct (review_State rev) as [state|] eqn:Hs; [|discriminate].
    destruct (review_CommitID rev) as [commitID|] eqn:Hci; [|discriminate].
    destruct (review_ID rev) as [reviewID|] eqn:Hi; [|discriminate].
    intros H. destruct (IH _ H) as (converted & -> & Hsub & Hall).
    eexists (_ :: converted). split; [rewrite <- app_assoc; reflexivity|]. split.
    + constructor; [exact Ht | exact Hsub].
    + constructor; [|exact Hall]. simpl. repeat split; eauto.
Qed.

Lemma getReviews_loop_all_checked (reviews : list PullRequestReview) (acc : list review) :
  Forall (fun rev => checkReviewFields rev = Done tt) reviews ->
  exists current, getReviews_loop reviews acc = Done current.
Proof.
  intros Hall. revert acc. induction Hall as [|rev reviews Hc _ IH]; intros acc; simpl.
  - eauto.
  - rewrite Hc. apply checkReviewFields_Done in Hc
      as ([i ->] & [s ->] & [ci ->] & _ & user & -> & [l ->]).
    apply IH.
Qed.

(** [getReviews] is all or nothing: it returns reviews exactly when every
    fetched review passes [checkReviewFields]; it then never panics, the
    reviews it returns have pairwise distinct logins, and each is the copy of
    a fetched review. *)
Theorem getReviews_all_or_nothing (reviews : list PullRequestReview) :
  ((exists mostRecentReviews, getReviews_from reviews (Done mostRecentReviews))
   <-> Forall (fun rev => checkReviewFields rev = Done tt) reviews)
  /\ (Forall (fun rev => checkReviewFields rev = Done tt) reviews ->
      ~ getReviews_from reviews Panicked)
  /\ (forall mostRecentReviews, getReviews_from reviews (Done mostRecentReviews) ->
      NoDup (rev_name <$> mostRecentReviews)
      /\ forall r, r ∈ mostRecentReviews ->
           exists rev user, rev ∈ reviews
             /\ review_User rev = Some user /\ user_Login user = Some (rev_name r)
             /\ review_State rev = Some (rev_status r)
             /\ review_CommitID rev = Some (rev_commitID r)
             /\ review_ID rev = Some (rev_id r)
             /\ review_SubmittedAt rev = rev_submittedAt r).
Proof.
  unfold getReviews_from.
  destruct (getReviews_loop reviews []) as [current|e|] eqn:Hloop.
  - destruct (getReviews_loop_Done _ _ _ Hloop) as (converted & Hc & Hsub & Hall).
    simpl in Hc. subst converted.
    destruct (mostRecent_map_inv current Hsub) as (m & Hm & _). rewrite Hm.
    assert (Forall (fun rev => checkReviewFields rev = Done tt) reviews) as Hchecked.
    { clear -Hall. induction Hall as [|? ? ? ? [H _] _ IH]; constructor; assumption. }
    split; [|split].
    + split; [intros _; exact Hchecked|]. intros _.
      destruct (mostRecent_total current Hsub) as [out Hout]. exists out, out. auto.
    + intros _ (out & _ & H). discriminate.
    + intros out (out' & Hmr & [= <-]). split.
      * apply (mostRecent_names_NoDup current); assumption.
      * intros r Hr. apply (mostRecent_retains current out r Hsub Hmr) in Hr.
        apply firstLatest_elem_of in Hr.
        apply list_elem_of_lookup in Hr as [i Hi].
        destruct (Forall2_lookup_r _ _ _ _ _ Hall Hi)
          as (rev & Hrev & _ & Hid & Hs & Hci & Ht & user & Hu & Hl).
        exists rev, user. split; [apply list_elem_of_lookup; eauto|]. tauto.
  - split; [|split].
    + split; [intros (out & H); discriminate|]. intros Hall.
      destruct (getReviews_loop_all_checked reviews [] Hall) as [current Hc]. congruence.
    + intros Hall. destruct (getReviews_loop_all_checked reviews [] Hall) as [current Hc].
      congruence.
    + intros out H. discriminate.
  - split; [|split].
    + split; [intros (out & H); discriminate|]. intros Hall.
      destruct (getReviews_loop_all_checked reviews [] Hall) as [current Hc]. congruence.
    + intros Hall. destruct (getReviews_loop_all_checked reviews [] Hall) as [current Hc].
      congruence.
    + intros out H. discriminate.
Qed.

(** The first loop of [mostRecent] on reviews with pairwise distinct logins
    that are not yet in the map: every review is inserted, and no submission
    time is read. *)
Lemma mostRecent_loop_distinct (l : list review) (m : gmap string review) :
  NoDup (rev_name <$> l) ->
  (forall r, r ∈ l -> m !! rev_name r = None) ->
  exists m', mostRecent_loop m l = Ok m' /\ (map_to_list m').*2 ≡ₚ (map_to_list m).*2 ++ l.
Proof.
  revert m. induction l as [|rev l IH]; intros m Hnd Hfresh; simpl.
  - exists m. rewrite app_nil_r. auto.
  - unfold mostRecent_step. rewrite (Hfresh rev) by left. simpl.
    rewrite fmap_cons in Hnd. apply NoDup_cons in Hnd as [Hnotin Hnd].
    destruct (IH (<[rev_name rev := rev]> m) Hnd) as (m' & Hm' & Hp).
    + intros r Hr. rewrite lookup_insert_ne; [apply Hfresh; right; exact Hr|].
      intros E. apply Hnotin. rewrite E. apply list_elem_of_fmap. eauto.
    + exists m'. split; [exact Hm'|]. rewrite Hp.
      rewrite map_to_list_insert by (apply Hfresh; left). simpl.
      apply Permutation_middle.
Qed.

(** On reviews with pairwise distinct logins [mostRecent] returns the same
    reviews, in some order, whether or not they carry a submission time; so
    applying it to a slice it has returned gives that slice back. *)
Theorem mostRecent_distinct_logins (currentReviews : list review) :
  NoDup (rev_name <$> currentReviews) ->
  (forall reviews, mostRecent currentReviews reviews <-> reviews ≡ₚ currentReviews)
  /\ (forall reviews again, mostRecent currentReviews reviews ->
        (mostRecent reviews again <-> again ≡ₚ reviews)).
Proof.
  assert (forall l, NoDup (rev_name <$> l) ->
            forall reviews, mostRecent l reviews <-> reviews ≡ₚ l) as Hmain.
  { intros l Hnd reviews.
    destruct (mostRecent_loop_distinct l ∅ Hnd) as (m & Hm & Hp).
    { intros r _. apply lookup_empty. }
    rewrite map_to_list_empty in Hp. simpl in Hp. unfold mostRecent, mostRecent_map. split.
    - intros (m' & Hm' & Hp'). rewrite Hm in Hm'. injection Hm' as <-.
      rewrite Hp', Hp. reflexivity.
    - intros Hr. exists m. split; [exact Hm|]. rewrite Hr, Hp. reflexivity. }
  intros Hnd. split; [apply Hmain; exact Hnd|].
  intros reviews again Hmr. apply Hmain.
  apply (Hmain _ Hnd) in Hmr. rewrite Hmr. exact Hnd.
Qed.

End GetReviews.

(** *** What is sent to the host *)

Lemma emits_ret {A : Type} (P : Call -> Prop) (a : A) : emits P (ret a).
Proof. intros log. exists []. rewrite app_nil_r. split; [reflexivity | constructor]. Qed.

Lemma emits_fail {A : Type} (P : Call -> Prop) (e : error) : emits P (@fail A e).
Proof. intros log. exists []. rewrite app_nil_r. split; [reflexivity | constructor]. Qed.

Lemma emits_lift {A : Type} (P : Call -> Prop) (o : outcome A) : emits P (lift o).
Proof. intros log. exists []. rewrite app_nil_r. split; [reflexivity | constructor]. Qed.

Lemma emits_request {A : Type} (P : Call -> Prop) (call : Call)
    (response : list Call -> outcome A) :
  P call -> emits P (request call response).
Proof. intros H log. exists [call]. split; [reflexivity | repeat constructor; exact H]. Qed.

Lemma emits_bind {A B : Type} (P : Call -> Prop) (m : M A) (k : A -> M B) :
  emits P m -> (forall a, emits P (k a)) -> emits P (bind m k).
Proof.
  intros Hm Hk log. unfold bind. destruct (Hm log) as (calls & Hlog & Hall).
  destruct (m log) as [[a|e|] log1]; simpl in Hlog; subst log1.
  - destruct (Hk a (log ++ calls)) as (calls' & Hlog' & Hall').
    exists (calls ++ calls'). rewrite Hlog', app_assoc. split; [reflexivity|].
    apply Forall_app; split; assumption.
  - exists calls. auto.
  - exists calls. auto.
Qed.

Lemma emits_impl {A : Type} (P Q : Call -> Prop) (m : M A) :
  (forall call, P call -> Q call) -> emits P m -> emits Q m.
Proof.
  intros HPQ Hm log. destruct (Hm log) as (calls & Hlog & Hall).
  exists calls. split; [exact Hlog|]. eapply Forall_impl; eassumption.
Qed.

Ltac emits_step :=
  first
    [ apply emits_ret
    | apply emits_fail
    | apply emits_lift
    | apply emits_request; exact I
    | apply emits_bind; [|intros ?]
    | match goal with
      | |- emits _ (if ?b then _ else _) => destruct b
      | |- emits _ (match ?x with _ => _ end) => destruct x
      end ].

Section CheckProperties.

Variables Approved GithubCommit : string.

Lemma verifyCommit_emits (c : Bot) : emits isCommitRead (verifyCommit GithubCommit c).
Proof. unfold verifyCommit. repeat emits_step. Qed.

(** [verifyCommit] only reads: it sends a comparison of base and head, then
    at most a fetch of the head commit, and it fetches the commit exactly when
    the comparison succeeded and reports no changed file. *)
Theorem verifyCommit_reads_only (c : Bot) (env : PullRequestEnvironment) (pr : Metadata)
    (clt : Client) (log : list Call) :
  Environment c = Some env -> env_Metadata env = Some pr -> env_Client env = Some clt ->
  let compare := CallCompareCommits (RepoOwner pr) (RepoName pr) (BaseSHA pr) (HeadSHA pr) in
  let fetch := CallGetCommit (RepoOwner pr) (RepoName pr) (HeadSHA pr) in
  let answer :=
    Repositories_CompareCommits clt log (RepoOwner pr) (RepoName pr) (BaseSHA pr) (HeadSHA pr) in
  emits isCommitRead (verifyCommit GithubCommit c)
  /\ ((exists comparison, answer = Ok comparison /\ comparison_Files comparison = []) ->
      (verifyCommit GithubCommit c log).2 = log ++ [compare; fetch])
  /\ (~ (exists comparison, answer = Ok comparison /\ comparison_Files comparison = []) ->
      (verifyCommit GithubCommit c log).2 = log ++ [compare]
      /\ (verifyCommit GithubCommit c log).1 <> Ok tt).
Proof.
  intros He Hp Hc compare fetch answer. split; [apply verifyCommit_emits|].
  assert (forall comparison : CommitsComparison,
            negb (length (comparison_Files comparison) =? 0)%nat = false
            <-> comparison_Files comparison = []) as Hfiles.
  { intros comparison. destruct (comparison_Files comparison); simpl; split;
      (reflexivity || discriminate). }
  unfold verifyCommit, bind, lift, request, fail, ret, Wrap.
  rewrite He; simpl. rewrite Hp; simpl. rewrite Hc; simpl. fold answer.
  split.
  - intros (comparison & -> & Hf). apply Hfiles in Hf. rewrite Hf.
    destruct (Repositories_GetCommit clt _ _ _ _) as [commit|e|]; simpl;
      [|rewrite <- app_assoc; reflexivity..].
    destruct (repocommit_Commit commit) as [commit'|]; simpl;
      [|rewrite <- app_assoc; reflexivity].
    destruct (commit_Verification commit') as [v|]; simpl;
      [|rewrite <- app_assoc; reflexivity].
    destruct (verification_Payload v) as [p|]; simpl; [|rewrite <- app_assoc; reflexivity].
    destruct (verification_Verified v) as [b|]; simpl; [|rewrite <- app_assoc; reflexivity].
    destruct (Contains p GithubCommit && b); simpl; rewrite <- app_assoc; reflexivity.
  - intros Hn. destruct answer as [comparison|e|]; simpl; [|split; [reflexivity|discriminate]..].
    destruct (negb (length (comparison_Files comparison) =? 0)%nat) eqn:Hb; simpl.
    + split; [reflexivity | discriminate].
    + exfalso. apply Hn. exists comparison. split; [reflexivity|]. apply Hfiles. exact Hb.
Qed.

Lemma invalidateApprovals_emits (c : Bot) (msg : string) (reviews : list review) :
  emits (fun call => exists owner repo number id, call = CallDismissReview owner repo number id msg)
    (invalidateApprovals Approved c msg reviews).
Proof.
  unfold invalidateApprovals. apply emits_bind; [apply emits_lift|]. intros env.
  induction reviews as [|v reviews IH]; simpl; [apply emits_ret|].
  destruct (bool_decide (rev_status v = Approved)); [|exact IH].
  apply emits_bind; [apply emits_lift|]. intros clt.
  apply emits_bind; [apply emits_lift|]. intros pr.
  apply emits_bind; [|intros _; exact IH].
  apply emits_request. eauto.
Qed.

(** When every dismissal succeeds, every approved review is dismissed. *)
Lemma invalidateApprovals_all (c : Bot) (env : PullRequestEnvironment) (pr : Metadata)
    (clt : Client) (msg : string) (reviews : list review) (log : list Call) :
  Environment c = Some env -> env_Metadata env = Some pr -> env_Client env = Some clt ->
  (forall log' v, dismissalAnswer pr clt msg log' v = Ok tt) ->
  invalidateApprovals Approved c msg reviews log
  = (Ok tt, log ++ (dismissal pr msg <$> filter (fun v => rev_status v = Approved) reviews)).
Proof.
  intros He Hp Hc Hok. unfold invalidateApprovals, bind, lift. rewrite He. simpl.
  revert log. induction reviews as [|v reviews IH]; intros log.
  - simpl. rewrite app_nil_r. reflexivity.
  - rewrite filter_cons. destruct (decide (rev_status v = Approved)) as [Hs|Hs].
    + rewrite (invalidateApprovals_loop_cons_approved Approved env pr clt msg Hp Hc) by exact Hs.
      rewrite Hok, IH, fmap_cons, <- app_assoc. reflexivity.
    + simpl. rewrite bool_decide_eq_false_2 by exact Hs. apply IH.
Qed.

(** [check] succeeds exactly when there is at least one review, every
    required reviewer of the author has approved, and either no review was
    made against another commit than the head, or the author is internal, or
    [verifyCommit] succeeds. *)
Theorem check_succeeds_iff (c : Bot) (env : PullRequestEnvironment) (pr : Metadata)
    (mostRecentReviews : list review) (log : list Call) :
  Environment c = Some env -> env_Metadata env = Some pr ->
  (check_reviews Approved GithubCommit c mostRecentReviews log).1 = Ok tt
  <-> mostRecentReviews <> []
      /\ Forall (approvedBy Approved mostRecentReviews) (GetReviewersForAuthor env (Author pr))
      /\ (hasNewCommit (HeadSHA pr) mostRecentReviews = false
          \/ IsInternal env (Author pr) = true
          \/ (verifyCommit GithubCommit c log).1 = Ok tt).
Proof.
  intros He Hp. unfold check_reviews. rewrite He, Hp.
  rewrite <- approved_Ok_iff.
  destruct mostRecentReviews as [|r revs] eqn:Hrevs; simpl length.
  { simpl. split; [discriminate | intros (H & _); contradiction]. }
  rewrite <- Hrevs. change (S (length revs) =? 0)%nat with false. cbv iota.
  destruct (approved Approved mostRecentReviews (GetReviewersForAuthor env (Author pr)))
    as [[]|e|] eqn:Ha; simpl.
  - destruct (hasNewCommit (HeadSHA pr) mostRecentReviews) eqn:Hn; simpl.
    + destruct (IsInternal env (Author pr)) eqn:Hi; simpl.
      * split; [intros _|reflexivity]. split; [congruence|]. tauto.
      * destruct (verifyCommit GithubCommit c log) as [[[]|err|] log1] eqn:Hv; simpl.
        -- split; [intros _|reflexivity]. split; [congruence|]. tauto.
        -- destruct (invalidateApprovals Approved c _ mostRecentReviews log1) as [[[]|v|] log2];
             simpl; (split; [discriminate|]); intros (_ & _ & [H|[H|H]]); discriminate.
        -- split; [discriminate|]. intros (_ & _ & [H|[H|H]]); discriminate.
    + split; [intros _|reflexivity]. split; [congruence|]. tauto.
  - split; [discriminate|]. intros (_ & H & _). discriminate.
  - split; [discriminate|]. intros (_ & H & _). discriminate.
Qed.

(** The part of [check] after [getReviews]: for an internal author, and for
    any author when every review was made against the head commit, it sends
    nothing to the host. *)
Lemma check_reviews_without_request (c : Bot) (env : PullRequestEnvironment) (pr : Metadata)
    (mostRecentReviews : list review) (log : list Call) :
  Environment c = Some env -> env_Metadata env = Some pr ->
  IsInternal env (Author pr) = true \/ hasNewCommit (HeadSHA pr) mostRecentReviews = false ->
  (check_reviews Approved GithubCommit c mostRecentReviews log).2 = log
  /\ (mostRecentReviews = [] ->
      (check_reviews Approved GithubCommit c mostRecentReviews log).1
      = Err (BadParameter "pull request has no reviews" []))
  /\ (mostRecentReviews <> [] ->
      (check_reviews Approved GithubCommit c mostRecentReviews log).1
      = approved Approved mostRecentReviews (GetReviewersForAuthor env (Author pr))).
Proof.
  intros He Hp Hcase. unfold check_reviews. rewrite He, Hp.
  assert (hasNewCommit (HeadSHA pr) mostRecentReviews && negb (IsInternal env (Author pr)) = false)
    as -> by (destruct Hcase as [-> | ->]; [apply andb_false_r | reflexivity]).
  destruct (decide (mostRecentReviews = [])) as [->|Hne].
  { simpl. repeat split; intros; congruence. }
  assert ((length mostRecentReviews =? 0)%nat = false) as ->
    by (destruct mostRecentReviews; [contradiction | reflexivity]).
  destruct (approved Approved mostRecentReviews (GetReviewersForAuthor env (Author pr)))
    as [[]|e|]; simpl; repeat split; intros; congruence.
Qed.

Lemma hasNewCommit_at_head (headSHA : string) (revs : list review) :
  Forall (fun v => rev_commitID v = headSHA) revs -> hasNewCommit headSHA revs = false.
Proof.
  induction 1 as [|v revs Hv _ IH]; simpl; [reflexivity|].
  rewrite Hv, bool_decide_eq_false_2 by (intros Hne; apply Hne; reflexivity). exact IH.
Qed.

Lemma getReviews_from_intro (reviews : list PullRequestReview)
    (currentReviewsSlice mostRecentReviews : list review) :
  getReviews_loop reviews [] = Done currentReviewsSlice ->
  mostRecent currentReviewsSlice mostRecentReviews ->
  getReviews_from reviews (Done mostRecentReviews).
Proof.
  intros Hloop Hmr. unfold getReviews_from. rewrite Hloop.
  destruct Hmr as (m & Hm & Hp). rewrite Hm.
  exists mostRecentReviews. split; [exists m; auto | reflexivity].
Qed.

(** [getReviews] comes to a result on every answer of the host. *)
Lemma getReviews_from_returns (reviews : list PullRequestReview) :
  exists r, getReviews_from reviews r.
Proof.
  unfold getReviews_from.
  destruct (getReviews_loop reviews []) as [current|e|] eqn:Hloop; [|eauto..].
  destruct (getReviews_loop_Done _ _ _ Hloop) as (converted & Hc & Hsub & _).
  simpl in Hc. subst converted.
  destruct (mostRecent_map_inv current Hsub) as (m & Hm & _). rewrite Hm.
  destruct (mostRecent_total current Hsub) as [l Hl]. exists (Done l), l. auto.
Qed.

Lemma getReviews_from_checked (reviews : list PullRequestReview)
    (r : result reviewError (list review)) :
  Forall (fun rev => checkReviewFields rev = Done tt) reviews ->
  getReviews_from reviews r ->
  exists mostRecentReviews, r = Done mostRecentReviews.
Proof.
  intros Hall. unfold getReviews_from.
  destruct (getReviews_loop_all_checked reviews [] Hall) as [current Hloop]. rewrite Hloop.
  destruct (getReviews_loop_Done _ _ _ Hloop) as (converted & Hc & Hsub & _).
  simpl in Hc. subst converted.
  destruct (mostRecent_map_inv current Hsub) as (m & Hm & _). rewrite Hm.
  intros (l & _ & ->). eauto.
Qed.

Lemma getReviews_from_commits (reviews : list PullRequestReview)
    (mostRecentReviews : list review) (r : review) :
  getReviews_from reviews (Done mostRecentReviews) ->
  r ∈ mostRecentReviews ->
  exists rev, rev ∈ reviews /\ review_CommitID rev = Some (rev_commitID r).
Proof.
  unfold getReviews_from.
  destruct (getReviews_loop reviews []) as [current|e|] eqn:Hloop; [|discriminate..].
  destruct (getReviews_loop_Done _ _ _ Hloop) as (converted & Hc & Hsub & Hall).
  simpl in Hc. subst converted.
  destruct (mostRecent_map_inv current Hsub) as (m & Hm & _). rewrite Hm.
  intros (l & Hmr & [= ->]) Hr.
  apply (mostRecent_retains current l r Hsub Hmr) in Hr.
  apply firstLatest_elem_of in Hr. apply list_elem_of_lookup in Hr as [i Hi].
  destruct (Forall2_lookup_r _ _ _ _ _ Hall Hi) as (rev & Hrev & _ & _ & _ & Hci & _).
  exists rev. split; [apply list_elem_of_lookup; eauto | exact Hci].
Qed.

Lemma getReviews_from_nil (r : result reviewError (list review)) :
  getReviews_from [] r -> r = Done [].
Proof.
  unfold getReviews_from. simpl. intros (l & (m & [= <-] & Hp) & ->).
  rewrite map_to_list_empty in Hp. simpl in Hp. apply Permutation_nil_r in Hp. subst l.
  reflexivity.
Qed.

(** [check] comes to a result, whatever the host answers. *)
Lemma check_returns (c : Bot)
    (ListReviews : list Call -> string -> string -> Z -> outcome (list PullRequestReview))
    (log : list Call) :
  exists out, check Approved GithubCommit c ListReviews log out.
Proof.
  assert (forall got, getReviews c ListReviews log got ->
            exists out, check Approved GithubCommit c ListReviews log out) as Hgot.
  { intros [[l|e|] log1] Hget; eexists.
    - exists (Done l, log1). split; [exact Hget | reflexivity].
    - exists (Failed e, log1). split; [exact Hget | reflexivity].
    - exists (Panicked, log1). split; [exact Hget | reflexivity]. }
  unfold getReviews in Hgot.
  destruct (Environment c) as [env|]; [|eauto].
  destruct (env_Metadata env) as [pr|]; [|eauto].
  destruct (env_Client env) as [clt|]; [|eauto].
  destruct (ListReviews log (RepoOwner pr) (RepoName pr) (Number pr)) as [reviews|err|];
    [|eauto..].
  destruct (getReviews_from_returns reviews) as [r Hr]. eauto.
Qed.

(** For an internal author, and for any author when every review that the
    host lists was made against the head commit, [check] sends one request
    and no more, the listing of the reviews.  An error of that request is
    returned; with no review listed, [check] fails; and when every listed
    review passes [checkReviewFields], the result is that of [approved] on
    the reviews that [getReviews] returns. *)
Theorem check_sends_only_ListReviews (c : Bot) (env : PullRequestEnvironment) (pr : Metadata)
    (clt : Client)
    (ListReviews : list Call -> string -> string -> Z -> outcome (list PullRequestReview))
    (log : list Call) (out : result checkError unit * list Call) :
  Environment c = Some env -> env_Metadata env = Some pr -> env_Client env = Some clt ->
  let answer := ListReviews log (RepoOwner pr) (RepoName pr) (Number pr) in
  IsInternal env (Author pr) = true
  \/ (exists reviews, answer = Ok reviews
        /\ Forall (fun rev => review_CommitID rev = Some (HeadSHA pr)) reviews) ->
  check Approved GithubCommit c ListReviews log out ->
  out.2 = log ++ [CallListReviews (RepoOwner pr) (RepoName pr) (Number pr)]
  /\ (forall err, answer = Err err -> out.1 = Failed (TraceError err))
  /\ (answer = Ok [] ->
      out.1 = Failed (TraceError (BadParameter "pull request has no reviews" [])))
  /\ (forall reviews, answer = Ok reviews ->
      Forall (fun rev => checkReviewFields rev = Done tt) reviews ->
      exists mostRecentReviews,
        getReviews_from reviews (Done mostRecentReviews)
        /\ out.1 = if decide (mostRecentReviews = [])
                   then Failed (TraceError (BadParameter "pull request has no reviews" []))
                   else match approved Approved mostRecentReviews
                                (GetReviewersForAuthor env (Author pr)) with
                        | Ok _ => Done tt
                        | Err err => Failed (TraceError err)
                        | Panic => Panicked
                        end).
Proof.
  intros He Hp Hc answer Hcase (got & Hget & Hout).
  unfold getReviews in Hget. rewrite He, Hp, Hc in Hget. cbn zeta in Hget.
  fold answer in Hget.
  set (log1 := log ++ [CallListReviews (RepoOwner pr) (RepoName pr) (Number pr)]) in *.
  destruct answer as [reviews|err|] eqn:Ha.
  - destruct Hget as (r & Hr & ->). destruct r as [mostRecentReviews|e|].
    + assert (IsInternal env (Author pr) = true
              \/ hasNewCommit (HeadSHA pr) mostRecentReviews = false) as Hquiet.
      { destruct Hcase as [Hi | (reviews' & [= <-] & Hall)]; [left; exact Hi | right].
        apply hasNewCommit_at_head. apply Forall_forall. intros r Hin.
        destruct (getReviews_from_commits reviews mostRecentReviews r Hr Hin)
          as (rev & Hrev & Hci).
        rewrite Forall_forall in Hall. specialize (Hall rev Hrev). congruence. }
      destruct (check_reviews_without_request c env pr mostRecentReviews log1 He Hp Hquiet)
        as (Hlog & Hnil & Hne).
      destruct (check_reviews Approved GithubCommit c mostRecentReviews log1)
        as [result log2] eqn:Hcr.
      simpl in Hlog, Hnil, Hne. subst log2.
      assert (out.2 = log1) as Hout2 by (destruct result; subst out; reflexivity).
      split; [exact Hout2|]. split; [discriminate|]. split.
      * intros [= ->]. apply getReviews_from_nil in Hr. injection Hr as ->.
        rewrite (Hnil eq_refl) in Hout. subst out. reflexivity.
      * intros reviews' [= <-] _. exists mostRecentReviews. split; [exact Hr|].
        destruct (decide (mostRecentReviews = [])) as [Hempty|Hfull].
        -- rewrite (Hnil Hempty) in Hout. subst out. reflexivity.
        -- rewrite (Hne Hfull) in Hout. subst out.
           destruct (approved Approved mostRecentReviews _) as [[]|err|]; reflexivity.
    + subst out. split; [reflexivity|]. split; [discriminate|]. split.
      * intros [= ->]. apply getReviews_from_nil in Hr. discriminate.
      * intros reviews' [= <-] Hall.
        destruct (getReviews_from_checked reviews _ Hall Hr) as [l H]. discriminate.
    + subst out. split; [reflexivity|]. split; [discriminate|]. split.
      * intros [= ->]. apply getReviews_from_nil in Hr. discriminate.
      * intros reviews' [= <-] Hall.
        destruct (getReviews_from_checked reviews _ Hall Hr) as [l H]. discriminate.
  - subst got out. split; [reflexivity|]. split; [intros err' [= <-]; reflexivity|].
    split; [discriminate|]. intros reviews H. discriminate.
  - subst got out. split; [reflexivity|]. split; [discriminate|].
    split; [discriminate|]. intros reviews H. discriminate.
Qed.

(** For an external author with a review made against another commit than
    the head and all required approvals given: when [verifyCommit] fails,
    [check] never succeeds, and when the host accepts every dismissal it
    dismisses every approved review, those of all the required reviewers
    among them, and returns the error of the verification. *)
Theorem check_invalidates_on_failed_verification (c : Bot) (env : PullRequestEnvironment)
    (pr : Metadata) (clt : Client) (mostRecentReviews : list review) (log log1 : list Call)
    (err : error) :
  Environment c = Some env -> env_Metadata env = Some pr -> env_Client env = Some clt ->
  approved Approved mostRecentReviews (GetReviewersForAuthor env (Author pr)) = Ok tt ->
  hasNewCommit (HeadSHA pr) mostRecentReviews = true ->
  IsInternal env (Author pr) = false ->
  verifyCommit GithubCommit c log = (Err err, log1) ->
  let msg := dismissMessage pr (GetReviewersForAuthor env (Author pr)) in
  let dismissed := filter (fun v => rev_status v = Approved) mostRecentReviews in
  (check_reviews Approved GithubCommit c mostRecentReviews log).1 <> Ok tt
  /\ (forall login, login ∈ GetReviewersForAuthor env (Author pr) ->
        exists v, v ∈ dismissed /\ rev_name v = login)
  /\ ((forall log' v, dismissalAnswer pr clt msg log' v = Ok tt) ->
      check_reviews Approved GithubCommit c mostRecentReviews log
      = (Err err, log1 ++ (dismissal pr msg <$> dismissed))).
Proof.
  intros He Hp Hc Ha Hn Hi Hv msg dismissed.
  assert (mostRecentReviews <> []) as Hne by (intros ->; discriminate).
  assert (check_reviews Approved GithubCommit c mostRecentReviews log
          = match invalidateApprovals Approved c msg mostRecentReviews log1 with
            | (Ok _, log2) => (Err err, log2)
            | (Err validationErr, log2) => (Err validationErr, log2)
            | (Panic, log2) => (Panic, log2)
            end) as Hcheck.
  { unfold check_reviews. rewrite He, Hp.
    assert ((length mostRecentReviews =? 0)%nat = false) as ->
      by (destruct mostRecentReviews; [contradiction | reflexivity]).
    rewrite Ha, Hn, Hi, Hv. reflexivity. }
  split; [|split].
  - rewrite Hcheck.
    destruct (invalidateApprovals Approved c msg mostRecentReviews log1) as [[[]|v|] log2];
      discriminate.
  - intros login Hin. apply approved_Ok_iff in Ha. rewrite Forall_forall in Ha.
    apply Ha, Exists_exists in Hin as (v & Hv' & Hname & Hs).
    exists v. split; [|exact Hname]. apply list_elem_of_filter. split; assumption.
  - intros Hok. rewrite Hcheck.
    rewrite (invalidateApprovals_all c env pr clt msg mostRecentReviews log1 He Hp Hc Hok).
    reflexivity.
Qed.

End CheckProperties.

(** ** More properties of the bot *)

Lemma commentPermitsRun_complete (c : Bot) (env : PullRequestEnvironment) (pr : Metadata)
    (comment : PullRequestComment) :
  Environment c = Some env -> env_Metadata env = Some pr ->
  completeComment comment ->
  exists ok, commentPermitsRun c comment = Ok ok /\ (ok = true <-> permitsRun env pr comment).
Proof.
  intros He Hp ([sha Hsha] & [body Hbody] & user & Hu & [login Hl]).
  unfold commentPermitsRun, permitsRun. rewrite He; simpl. rewrite Hp; simpl.
  rewrite Hsha; simpl. destruct (decide (sha <> HeadSHA pr)) as [Hne|Heq].
  { exists false. split; [reflexivity|]. split; [discriminate|].
    intros ([= E] & _). contradiction. }
  assert (sha = HeadSHA pr) as -> by (destruct (decide (sha = HeadSHA pr)); tauto).
  rewrite Hbody; simpl. destruct (Contains body RUNCI) eqn:Hc; simpl.
  - rewrite (commentPermitsRun_admins_spec comment user login _ Hu Hl).
    eexists. split; [reflexivity|]. rewrite bool_decide_eq_true. split.
    + intros Hin. split; [reflexivity|]. split; [eauto|]. eauto.
    + intros (_ & _ & u & l & Hu' & Hl' & Hin). congruence.
  - exists false. split; [reflexivity|]. split; [discriminate|].
    intros (_ & (b & [= <-] & Hb) & _). congruence.
Qed.

Lemma HasWorkflowRunApproval_loop_complete (c : Bot) (env : PullRequestEnvironment)
    (pr : Metadata) (comments : list PullRequestComment) :
  Environment c = Some env -> env_Metadata env = Some pr ->
  Forall completeComment comments ->
  (HasWorkflowRunApproval_loop c comments = Ok tt /\ Exists (permitsRun env pr) comments)
  \/ (HasWorkflowRunApproval_loop c comments
      = Err (BadParameter "workflow runs have not been approved for this pull request" [])
      /\ ~ Exists (permitsRun env pr) comments).
Proof.
  intros He Hp Hall. induction Hall as [|comment comments Hc _ IH]; simpl.
  - right. split; [reflexivity|]. rewrite Exists_nil. tauto.
  - destruct (commentPermitsRun_complete c env pr comment He Hp Hc) as (ok & -> & Hok).
    simpl. destruct ok.
    + destruct Hc as (_ & [body ->] & _). left. split; [reflexivity|].
      apply Exists_cons. left. apply Hok. reflexivity.
    + destruct IH as [[-> Hex] | [-> Hnex]].
      * left. split; [reflexivity|]. apply Exists_cons. tauto.
      * right. split; [reflexivity|]. rewrite Exists_cons. intros [H|H]; [|tauto].
        apply Hok in H. discriminate.
Qed.

(** [HasWorkflowRunApproval]: an internal author needs no comment.  For an
    external author: a host answer without a response is a panic, whatever
    the error that comes with it; with a response, the error of the host is
    returned; otherwise, on comments that are complete, the run is approved
    exactly when some comment is at the head commit, contains the trigger
    phrase and comes from a default reviewer, and is refused with the
    bad-parameter error if there is none. *)
Theorem HasWorkflowRunApproval_cases (c : Bot) (env : PullRequestEnvironment) (pr : Metadata)
    (ListComments : string -> string -> Z -> ListCommentsAnswer) :
  Environment c = Some env -> env_Metadata env = Some pr ->
  let answer := ListComments (RepoOwner pr) (RepoName pr) (Number pr) in
  let result := HasWorkflowRunApproval c ListComments in
  (IsInternal env (Author pr) = true -> result = Ok tt)
  /\ (IsInternal env (Author pr) = false -> is_Some (env_Client env) ->
      (listed_resp answer = None -> result = Panic)
      /\ (is_Some (listed_resp answer) -> forall err, listed_err answer = Some err ->
            result = Err err)
      /\ (is_Some (listed_resp answer) -> listed_err answer = None ->
          Forall completeComment (listed_comments answer) ->
          (result = Ok tt <-> Exists (permitsRun env pr) (listed_comments answer))
          /\ (~ Exists (permitsRun env pr) (listed_comments answer) ->
              result = Err (BadParameter
                              "workflow runs have not been approved for this pull request" [])))).
Proof.
  intros He Hp answer result. subst result. unfold HasWorkflowRunApproval.
  rewrite He; simpl. rewrite Hp; simpl. split.
  - intros ->. reflexivity.
  - intros -> [clt ->]. simpl. fold answer. split; [|split].
    + intros ->. reflexivity.
    + intros [resp ->] err ->. reflexivity.
    + intros [resp ->] -> Hall. simpl.
      destruct (HasWorkflowRunApproval_loop_complete c env pr _ He Hp Hall)
        as [[-> Hex] | [-> Hnex]].
      * split; [tauto|]. intros H. contradiction.
      * split; [|reflexivity]. split; [discriminate | tauto].
Qed.

Section ReconcileMore.

Variables CheckWorkflow AssignWorkflow : string.
Variable sortSlice : list WorkflowRun -> list WorkflowRun.

Lemma getWorkflow_find_none (workflows : list Workflow) (workflowName : string) :
  Forall (fun w => exists n, workflow_Name w = Some n /\ n <> workflowName) workflows ->
  getWorkflow_find workflows workflowName = Ok None.
Proof.
  intros Hall. induction Hall as [|w workflows (n & Hn & Hne) _ IH]; simpl; [reflexivity|].
  rewrite Hn. simpl. rewrite bool_decide_eq_false_2 by exact Hne. exact IH.
Qed.

(** When the host lists no workflow with the name of the Check workflow,
    [DismissStaleWorkflowRuns] fails with the not-found error after that one
    request: no run is listed and none is deleted; the same holds for
    [ReRunWorkflows], which then reruns nothing. *)
Theorem workflow_not_found (c : Bot) (clt : Client) (owner repoName branch : string)
    (workflows : list Workflow) (log : list Call) :
  GithubClient c = Some clt ->
  Actions_ListWorkflows clt log owner repoName = Ok workflows ->
  Forall (fun w => exists n, workflow_Name w = Some n /\ n <> CheckWorkflow) workflows ->
  DismissStaleWorkflowRuns CheckWorkflow sortSlice c owner repoName branch log
  = (Err (NotFound "workflow %s not found" [CheckWorkflow]),
     log ++ [CallListWorkflows owner repoName])
  /\ (forall env pr, Environment c = Some env -> env_Metadata env = Some pr ->
        RepoOwner pr = owner -> RepoName pr = repoName ->
        ReRunWorkflows CheckWorkflow AssignWorkflow sortSlice c log
        = (Err (NotFound "workflow %s not found" [CheckWorkflow]),
           log ++ [CallListWorkflows owner repoName])).
Proof.
  intros Hc Hl Hall.
  assert (getWorkflow c owner repoName CheckWorkflow log
          = (Err (NotFound "workflow %s not found" [CheckWorkflow]),
             log ++ [CallListWorkflows owner repoName])) as Hget.
  { unfold getWorkflow, bind, lift, request, fail, Wrap. rewrite Hc; simpl.
    rewrite Hl, (getWorkflow_find_none _ _ Hall). reflexivity. }
  split.
  - unfold DismissStaleWorkflowRuns, bind at 1. rewrite Hget. reflexivity.
  - intros env pr He Hp <- <-. unfold ReRunWorkflows, bind at 1 2 3. unfold lift at 1 2.
    rewrite He. cbn [deref]. rewrite Hp. cbn [deref]. rewrite Hget. reflexivity.
Qed.

Lemma getWorkflow_emits (P : Call -> Prop) (c : Bot) (owner repoName workflowName : string) :
  (forall o r, P (CallListWorkflows o r)) ->
  emits P (getWorkflow c owner repoName workflowName).
Proof.
  intros HP. unfold getWorkflow.
  apply emits_bind; [apply emits_lift|]. intros clt.
  apply emits_bind; [apply emits_request, HP|]. intros workflows.
  apply emits_bind; [apply emits_lift|]. intros [w|]; [apply emits_ret | apply emits_fail].
Qed.

Lemma getSortedWorkflowRuns_emits (P : Call -> Prop) (c : Bot)
    (owner repoName branchName : string) (workflowID : Z) :
  (forall o r w b, P (CallListWorkflowRunsByID o r w b)) ->
  emits P (getSortedWorkflowRuns sortSlice c owner repoName branchName workflowID).
Proof.
  intros HP. unfold getSortedWorkflowRuns.
  apply emits_bind; [apply emits_lift|]. intros clt.
  apply emits_bind; [apply emits_request, HP|]. intros runs.
  destruct (_ && _); [apply emits_lift | apply emits_ret].
Qed.

Lemma DismissStaleWorkflowRuns_emits (c : Bot) (owner repoName branch : string) :
  emits isPruneCall (DismissStaleWorkflowRuns CheckWorkflow sortSlice c owner repoName branch).
Proof.
  unfold DismissStaleWorkflowRuns.
  apply emits_bind; [apply getWorkflow_emits; intros; exact I|]. intros w.
  apply emits_bind; [apply emits_lift|]. intros workflowID.
  apply emits_bind; [apply getSortedWorkflowRuns_emits; intros; exact I|]. intros runs.
  unfold deleteRuns. generalize (take (length runs - 1) runs). intros l.
  induction l as [|run l IH]; simpl; [apply emits_ret|].
  apply emits_bind; [apply emits_lift|]. intros runID.
  apply emits_bind; [|intros _; exact IH].
  unfold deleteRun. apply emits_bind; [apply emits_lift|]. intros clt.
  apply emits_request. exact I.
Qed.

Lemma sweep_loop_emits (c : Bot) (pullReqs : list PullRequest) :
  emits isPruneCall
    (DimissStaleWorkflowRunsForExternalContributors_loop CheckWorkflow sortSlice c pullReqs).
Proof.
  induction pullReqs as [|pull pullReqs IH]; simpl; [apply emits_ret|].
  repeat (apply emits_bind; [apply emits_lift|]; intros ?).
  apply emits_bind; [apply DismissStaleWorkflowRuns_emits | intros _; exact IH].
Qed.

(** Whatever the host answers, [DismissStaleWorkflowRuns] only lists
    workflows, lists runs and deletes runs.  The sweep over the open pull
    requests sends nothing when the bot has no client; otherwise its first
    request lists the open pull requests of the repository, and every request
    after it lists workflows, lists runs or deletes a run.  Neither reruns a
    workflow, dismisses a review or reads a commit. *)
Theorem pruning_only_lists_and_deletes (c : Bot) (owner repoName branch : string)
    (PullRequests_List : list Call -> string -> string -> outcome (list PullRequest)) :
  let sweep :=
    DimissStaleWorkflowRunsForExternalContributors CheckWorkflow sortSlice c
      PullRequests_List owner repoName in
  emits isPruneCall (DismissStaleWorkflowRuns CheckWorkflow sortSlice c owner repoName branch)
  /\ (forall log, GithubClient c = None -> sweep log = (Panic, log))
  /\ (forall log, is_Some (GithubClient c) ->
        exists pruning,
          (sweep log).2 = log ++ CallListPullRequests owner repoName :: pruning
          /\ Forall isPruneCall pruning).
Proof.
  intros sweep. split; [apply DismissStaleWorkflowRuns_emits|].
  subst sweep. unfold DimissStaleWorkflowRunsForExternalContributors. split.
  - intros log ->. reflexivity.
  - intros log [clt ->]. unfold bind at 1. unfold lift. cbn [deref].
    unfold bind, request.
    destruct (PullRequests_List log owner repoName) as [pullReqs|err|].
    + destruct (sweep_loop_emits c pullReqs (log ++ [CallListPullRequests owner repoName]))
        as (calls & Hlog & Hall).
      exists calls. split; [|exact Hall].
      rewrite Hlog, <- app_assoc. reflexivity.
    + exists []. split; [reflexivity | constructor].
    + exists []. split; [reflexivity | constructor].
Qed.

Lemma redoMostRecentRun_emits (c : Bot) (workflowID : Z) :
  emits isRerunCall (redoMostRecentRun sortSlice c workflowID).
Proof.
  unfold redoMostRecentRun.
  apply emits_bind; [apply emits_lift|]. intros env.
  apply emits_bind; [apply emits_lift|]. intros pr.
  apply emits_bind; [apply getSortedWorkflowRuns_emits; intros; exact I|]. intros runs.
  destruct (length runs <? 1)%nat; [apply emits_fail|].
  apply emits_bind; [apply emits_lift|]. intros targetRun.
  apply emits_bind; [apply emits_lift|]. intros clt.
  apply emits_request. exact I.
Qed.

(** Whatever the host answers, [ReRunWorkflows] only lists workflows, lists
    runs and reruns runs: it never deletes a run. *)
Theorem ReRunWorkflows_never_deletes (c : Bot) (log : list Call) :
  exists calls,
    (ReRunWorkflows CheckWorkflow AssignWorkflow sortSlice c log).2 = log ++ calls
    /\ Forall isRerunCall calls
    /\ (forall owner repo runID, CallDeleteRun owner repo runID ∉ calls).
Proof.
  assert (emits isRerunCall (ReRunWorkflows CheckWorkflow AssignWorkflow sortSlice c)) as H.
  { unfold ReRunWorkflows.
    apply emits_bind; [apply emits_lift|]. intros env.
    apply emits_bind; [apply emits_lift|]. intros pr.
    apply emits_bind; [apply getWorkflow_emits; intros; exact I|]. intros w.
    apply emits_bind; [apply emits_lift|]. intros checkID.
    apply emits_bind; [apply redoMostRecentRun_emits|]. intros _.
    apply emits_bind; [apply getWorkflow_emits; intros; exact I|]. intros w'.
    apply emits_bind; [apply emits_lift|]. intros assignID.
    apply redoMostRecentRun_emits. }
  destruct (H log) as (calls & Hlog & Hall). exists calls.
  split; [exact Hlog|]. split; [exact Hall|].
  intros owner repo runID Hin. rewrite Forall_forall in Hall. apply (Hall _ Hin).
Qed.

(** The sweep over the pull requests [before ++ after] is the sweep over
    [before] followed, when it succeeded, by the sweep over [after] from the
    log reached; a failure while pruning one pull request ends the sweep, and
    the pull requests after it are not pruned. *)
Theorem sweep_stops_at_first_failure (c : Bot) (before after : list PullRequest)
    (log : list Call) :
  DimissStaleWorkflowRunsForExternalContributors_loop CheckWorkflow sortSlice c
    (before ++ after) log
  = match DimissStaleWorkflowRunsForExternalContributors_loop CheckWorkflow sortSlice c
            before log with
    | (Ok _, log1) =>
        DimissStaleWorkflowRunsForExternalContributors_loop CheckWorkflow sortSlice c after log1
    | failure => failure
    end.
Proof.
  revert log. induction before as [|pull before IH]; intros log; [reflexivity|].
  cbn [app DimissStaleWorkflowRunsForExternalContributors_loop].
  unfold bind, lift, Wrap.
  destruct (pull_Base pull) as [base|]; cbn [deref]; [|reflexivity].
  destruct (branch_User base) as [user|]; cbn [deref]; [|reflexivity].
  destruct (user_Login user) as [login|]; cbn [deref]; [|reflexivity].
  destruct (branch_Repo base) as [repo|]; cbn [deref]; [|reflexivity].
  destruct (repo_Name repo) as [name|]; cbn [deref]; [|reflexivity].
  destruct (pull_Head pull) as [head|]; cbn [deref]; [|reflexivity].
  destruct (branch_Ref head) as [ref|]; cbn [deref]; [|reflexivity].
  destruct (DismissStaleWorkflowRuns CheckWorkflow sortSlice c login name ref log)
    as [[[]|e|] log1]; [|reflexivity..].
  apply IH.
Qed.

End ReconcileMore.

(** ** Properties of package [environment] *)

(** [getMetadata] returns metadata exactly for a pull request whose number,
    author login, base repository owner login and name, head and base commit
    and head ref are all set, and the metadata holds these values; every
    error it returns is a bad-parameter error. *)
Theorem getMetadata_Ok_iff (pr : PullRequest) (md : Metadata) :
  (getMetadata pr = Ok md <->
     exists user base repo owner head,
       pull_User pr = Some user /\ pull_Base pr = Some base
       /\ branch_Repo base = Some repo /\ repo_Owner repo = Some owner
       /\ pull_Head pr = Some head
       /\ pull_Number pr = Some (Number md)
       /\ user_Login user = Some (Author md)
       /\ user_Login owner = Some (RepoOwner md)
       /\ repo_Name repo = Some (RepoName md)
       /\ branch_SHA head = Some (HeadSHA md)
       /\ branch_SHA base = Some (BaseSHA md)
       /\ branch_Ref head = Some (BranchName md))
  /\ (forall err, getMetadata pr = Err err -> exists message, err = BadParameter message []).
Proof.
  unfold getMetadata, validatePullRequest, Wrap.
  destruct (pull_Number pr) as [number|] eqn:Hnum; simpl;
    [|split; [split; [discriminate | intros (? & ? & ? & ? & ? & H); decompose [and] H; discriminate]
             | intros err [= <-]; eauto]].
  destruct (pull_User pr) as [user|] eqn:Hu; simpl;
    [|split; [split; [discriminate | intros (? & ? & ? & ? & ? & H); decompose [and] H; discriminate]
             | discriminate]].
  destruct (user_Login user) as [author|] eqn:Hl; simpl;
    [|split; [split; [discriminate | intros (? & ? & ? & ? & ? & H); decompose [and] H; congruence]
             | intros err [= <-]; eauto]].
  destruct (pull_Base pr) as [base|] eqn:Hb; simpl;
    [|split; [split; [discriminate | intros (? & ? & ? & ? & ? & H); decompose [and] H; discriminate]
             | discriminate]].
  destruct (branch_Repo base) as [repo|] eqn:Hr; simpl;
    [|split; [split; [discriminate | intros (? & ? & ? & ? & ? & H); decompose [and] H; congruence]
             | discriminate]].
  destruct (repo_Owner repo) as [owner|] eqn:Ho; simpl;
    [|split; [split; [discriminate | intros (? & ? & ? & ? & ? & H); decompose [and] H; congruence]
             | discriminate]].
  destruct (user_Login owner) as [repoOwner|] eqn:Hol; simpl;
    [|split; [split; [discriminate | intros (? & ? & ? & ? & ? & H); decompose [and] H; congruence]
             | intros err [= <-]; eauto]].
  destruct (repo_Name repo) as [repoName|] eqn:Hn; simpl;
    [|split; [split; [discriminate | intros (? & ? & ? & ? & ? & H); decompose [and] H; congruence]
             | intros err [= <-]; eauto]].
  destruct (pull_Head pr) as [head|] eqn:Hh; simpl;
    [|split; [split; [discriminate | intros (? & ? & ? & ? & ? & H); decompose [and] H; discriminate]
             | discriminate]].
  destruct (branch_SHA head) as [headSHA|] eqn:Hhs; simpl;
    [|split; [split; [discriminate | intros (? & ? & ? & ? & ? & H); decompose [and] H; congruence]
             | intros err [= <-]; eauto]].
  destruct (branch_SHA base) as [baseSHA|] eqn:Hbs; simpl;
    [|split; [split; [discriminate | intros (? & ? & ? & ? & ? & H); decompose [and] H; congruence]
             | intros err [= <-]; eauto]].
  destruct (branch_Ref head) as [branchName|] eqn:Href; simpl;
    [|split; [split; [discriminate | intros (? & ? & ? & ? & ? & H); decompose [and] H; congruence]
             | intros err [= <-]; eauto]].
  split; [|discriminate]. split.
  - intros [= <-]. exists user, base, repo, owner, head. simpl. tauto.
  - intros (user' & base' & repo' & owner' & head' & [= <-] & [= <-] & Hr' & Ho' & [= <-] & H).
    rewrite Hr in Hr'. injection Hr' as <-. rewrite Ho in Ho'. injection Ho' as <-.
    destruct H as (H1 & H2 & H3 & H4 & H5 & H6 & H7).
    destruct md; simpl in *. congruence.
Qed.

Section ReviewersProperties.

Variable Users_Get : string -> outcome User.

Lemma unmarshalReviewers_required_Ok (requiredReviewers : list string) :
  unmarshalReviewers_required Users_Get requiredReviewers = Ok tt
  <-> Forall (userKnown Users_Get) requiredReviewers.
Proof.
  induction requiredReviewers as [|reviewer rest IH]; simpl.
  - split; [constructor | reflexivity].
  - rewrite Forall_cons. unfold userExists, userKnown at 1.
    destruct (Users_Get reviewer) as [user|e|]; simpl.
    + rewrite IH. split; [eauto | tauto].
    + split; [discriminate | intros [[u H] _]; discriminate].
    + split; [discriminate | intros [[u H] _]; discriminate].
Qed.

Lemma unmarshalReviewers_range_Ok (entries : list (string * list string)) (has has' : bool) :
  unmarshalReviewers_range Users_Get entries has = Ok has'
  <-> Forall (entryKnown Users_Get) entries
      /\ (has' = true <-> has = true \/ exists rs, ("", rs) ∈ entries).
Proof.
  revert has. induction entries as [|[author rs] entries IH]; intros has; simpl.
  - split.
    + intros [= <-]. split; [constructor|]. split; [tauto|].
      intros [H | [rs' H]]; [exact H | inversion H].
    + intros (_ & H). f_equal. destruct has, has'; try reflexivity.
      * destruct H as [_ H]. symmetry. apply H. tauto.
      * destruct H as [H _]. destruct (H eq_refl) as [H' | [rs' H']]; [discriminate | inversion H'].
  - rewrite Forall_cons. unfold entryKnown at 1. simpl.
    destruct (unmarshalReviewers_required Users_Get rs) as [[]|e|] eqn:Hr; simpl.
    + apply unmarshalReviewers_required_Ok in Hr.
      destruct (decide (author = "")) as [->|Hne].
      * rewrite bool_decide_eq_true_2 by reflexivity. rewrite IH. split.
        -- intros (Hall & Hh). split; [tauto|]. rewrite Hh. split; [|tauto].
           intros _. right. exists rs. left.
        -- intros ((_ & Hall) & Hh). split; [exact Hall|]. rewrite Hh. split; [tauto|].
           intros _. right. exists rs. left.
      * rewrite bool_decide_eq_false_2 by exact Hne. unfold userExists, userKnown at 2.
        destruct (Users_Get author) as [user|e|]; simpl.
        -- rewrite IH. split.
           ++ intros (Hall & Hh). split; [split; [split|]; eauto|]. rewrite Hh.
              split; [intros [H | [rs' H]]; [tauto | right; exists rs'; right; exact H]|].
              intros [H | [rs' H]]; [tauto|]. apply elem_of_cons in H as [[= E _] | H];
                [congruence | right; eauto].
           ++ intros ((_ & Hall) & Hh). split; [exact Hall|]. rewrite Hh.
              split; [|intros [H | [rs' H]]; [tauto | right; exists rs'; right; exact H]].
              intros [H | [rs' H]]; [tauto|]. apply elem_of_cons in H as [[= E _] | H];
                [congruence | right; eauto].
        -- split; [discriminate|]. intros (((_ & H) & _) & _).
           destruct (H Hne) as [u Hu]. discriminate.
        -- split; [discriminate|]. intros (((_ & H) & _) & _).
           destruct (H Hne) as [u Hu]. discriminate.
    + split; [discriminate|]. intros (((H & _) & _) & _).
      apply unmarshalReviewers_required_Ok in H. congruence.
    + split; [discriminate|]. intros (((H & _) & _) & _).
      apply unmarshalReviewers_required_Ok in H. congruence.
Qed.

Lemma unmarshalReviewers_decoded_Ok (m revs : gmap string (list string))
    (entries : list (string * list string)) :
  entries ≡ₚ map_to_list m ->
  unmarshalReviewers_decoded Users_Get m entries = Ok revs ->
  revs = m /\ is_Some (m !! "")
  /\ forall author rs, m !! author = Some rs ->
       Forall (userKnown Users_Get) rs /\ (author <> "" -> userKnown Users_Get author).
Proof.
  intros Hperm. unfold unmarshalReviewers_decoded.
  destruct (unmarshalReviewers_range Users_Get entries false) as [has|e|] eqn:Hr;
    simpl; [|discriminate..].
  apply unmarshalReviewers_range_Ok in Hr as (Hall & Hhas).
  destruct has; simpl; [|discriminate].
  intros [= <-]. split; [reflexivity|]. split.
  - destruct (proj1 Hhas eq_refl) as [H|[rs Hin]]; [discriminate|].
    rewrite Hperm in Hin. apply elem_of_map_to_list in Hin. eauto.
  - intros author rs Hm. rewrite Forall_forall in Hall.
    apply (Hall (author, rs)). rewrite Hperm. apply elem_of_map_to_list. exact Hm.
Qed.

Lemma unmarshalReviewers_required_Err (requiredReviewers : list string) (err : error) :
  unmarshalReviewers_required Users_Get requiredReviewers = Err err ->
  exists login, login ∈ requiredReviewers /\ Users_Get login = Err err.
Proof.
  induction requiredReviewers as [|reviewer rest IH]; simpl; [discriminate|].
  unfold userExists. destruct (Users_Get reviewer) as [user|e|] eqn:Hu; simpl.
  - intros H. destruct (IH H) as (login & Hin & Hl). exists login. split; [right|]; assumption.
  - intros [= <-]. exists reviewer. split; [left | exact Hu].
  - discriminate.
Qed.

Lemma unmarshalReviewers_range_Err (entries : list (string * list string)) (has : bool)
    (err : error) :
  unmarshalReviewers_range Users_Get entries has = Err err ->
  exists author rs login,
    (author, rs) ∈ entries
    /\ (login ∈ rs \/ (login = author /\ author <> ""))
    /\ Users_Get login = Err err.
Proof.
  revert has. induction entries as [|[author rs] entries IH]; intros has; simpl;
    [discriminate|].
  assert (forall has', unmarshalReviewers_range Users_Get entries has' = Err err ->
            exists author' rs' login,
              (author', rs') ∈ (author, rs) :: entries
              /\ (login ∈ rs' \/ (login = author' /\ author' <> ""))
              /\ Users_Get login = Err err) as Hrest.
  { intros has' H. destruct (IH has' H) as (a & rs' & login & Hin & Hl & Hg).
    exists a, rs', login. split; [right; exact Hin | auto]. }
  destruct (unmarshalReviewers_required Users_Get rs) as [[]|e|] eqn:Hreq; simpl.
  - destruct (bool_decide (author = "")) eqn:Hempty; [apply Hrest|].
    apply bool_decide_eq_false_1 in Hempty.
    unfold userExists. destruct (Users_Get author) as [user|e|] eqn:Hu; simpl.
    + apply Hrest.
    + intros [= <-]. exists author, rs, author. split; [left | auto].
    + discriminate.
  - intros [= <-]. destruct (unmarshalReviewers_required_Err rs e Hreq) as (login & Hin & Hl).
    exists author, rs, login. split; [left | auto].
  - discriminate.
Qed.

(** [unmarshalReviewers] returns the decoded map exactly when the map has an
    entry for the empty login, every reviewer of every entry is known to the
    host, and so is every author but the empty login; so whether it succeeds
    does not depend on the order in which Go ranges over the map.  When all
    users are known and the entry of the empty login is missing, the error is
    the bad-parameter error about the default reviewers.  Every error it
    returns is that one or the error of the host for a reviewer or an author
    of the map; which of several failing logins is reported depends on the
    order of the range. *)
Theorem unmarshalReviewers_Ok_iff (m : gmap string (list string))
    (entries : list (string * list string)) :
  entries ≡ₚ map_to_list m ->
  let allKnown :=
    forall author rs, m !! author = Some rs ->
      Forall (userKnown Users_Get) rs /\ (author <> "" -> userKnown Users_Get author) in
  let noDefaults :=
    BadParameter
      "default reviewers are not set. set default reviewers with an empty string as a key" [] in
  (forall m', unmarshalReviewers_decoded Users_Get m entries = Ok m'
              <-> m' = m /\ is_Some (m !! "") /\ allKnown)
  /\ (allKnown -> m !! "" = None ->
      unmarshalReviewers_decoded Users_Get m entries = Err noDefaults)
  /\ (forall entries', entries' ≡ₚ entries ->
        (unmarshalReviewers_decoded Users_Get m entries' = Ok m
         <-> unmarshalReviewers_decoded Users_Get m entries = Ok m))
  /\ (forall err, unmarshalReviewers_decoded Users_Get m entries = Err err ->
        err = noDefaults
        \/ exists author rs login,
             m !! author = Some rs
             /\ (login ∈ rs \/ (login = author /\ author <> ""))
             /\ Users_Get login = Err err).
Proof.
  intros Hperm allKnown noDefaults.
  assert (forall es, es ≡ₚ map_to_list m ->
            (Forall (entryKnown Users_Get) es <-> allKnown)
            /\ ((exists rs, ("", rs) ∈ es) <-> is_Some (m !! ""))) as Hfacts.
  { intros es Hes. split.
    - rewrite Forall_forall. subst allKnown. split.
      + intros H author rs Hm. apply (H (author, rs)). rewrite Hes.
        apply elem_of_map_to_list. exact Hm.
      + intros H [author rs] Hin. rewrite Hes in Hin. apply elem_of_map_to_list in Hin.
        apply (H author rs Hin).
    - split.
      + intros [rs Hin]. rewrite Hes in Hin. apply elem_of_map_to_list in Hin. eauto.
      + intros [rs Hm]. exists rs. rewrite Hes. apply elem_of_map_to_list. exact Hm. }
  assert (forall es, es ≡ₚ map_to_list m ->
            forall m', unmarshalReviewers_decoded Users_Get m es = Ok m'
                       <-> m' = m /\ is_Some (m !! "") /\ allKnown) as Hiff.
  { intros es Hes m'. destruct (Hfacts es Hes) as [Hknown Hdefault].
    unfold unmarshalReviewers_decoded.
    destruct (unmarshalReviewers_range Users_Get es false) as [has|e|] eqn:Hr; simpl.
    - apply unmarshalReviewers_range_Ok in Hr as (Hall & Hhas).
      destruct has; simpl.
      + split.
        * intros [= <-]. split; [reflexivity|]. split; [|apply Hknown; exact Hall].
          apply Hdefault. destruct (proj1 Hhas eq_refl) as [H|H]; [discriminate | exact H].
        * intros (-> & _). reflexivity.
      + split; [discriminate|]. intros (_ & Hd & _). apply Hdefault in Hd.
        destruct Hhas as [_ Hhas]. discriminate Hhas. tauto.
    - split; [discriminate|]. intros (_ & Hd & Hk). apply Hknown in Hk.
      assert (unmarshalReviewers_range Users_Get es false = Ok true) as H.
      { apply unmarshalReviewers_range_Ok. split; [exact Hk|]. split; [|reflexivity].
        intros _. right. apply Hdefault. exact Hd. }
      congruence.
    - split; [discriminate|]. intros (_ & Hd & Hk). apply Hknown in Hk.
      assert (unmarshalReviewers_range Users_Get es false = Ok true) as H.
      { apply unmarshalReviewers_range_Ok. split; [exact Hk|]. split; [|reflexivity].
        intros _. right. apply Hdefault. exact Hd. }
      congruence. }
  destruct (Hfacts entries Hperm) as [Hknown Hdefault].
  split; [exact (Hiff entries Hperm)|]. split; [|split].
  - intros Hk Hnone. apply Hknown in Hk. unfold unmarshalReviewers_decoded.
    assert (unmarshalReviewers_range Users_Get entries false = Ok false) as ->.
    { apply unmarshalReviewers_range_Ok. split; [exact Hk|]. split; [discriminate|].
      intros [H | H]; [discriminate|]. apply Hdefault in H. rewrite Hnone in H.
      destruct H. discriminate. }
    reflexivity.
  - intros entries' Hp'.
    rewrite (Hiff entries' (transitivity Hp' Hperm) m), (Hiff entries Hperm m). reflexivity.
  - intros err. unfold unmarshalReviewers_decoded.
    destruct (unmarshalReviewers_range Users_Get entries false) as [has|e|] eqn:Hr; simpl.
    + destruct has; simpl; [discriminate|]. intros [= <-]. left. reflexivity.
    + intros [= <-]. right.
      destruct (unmarshalReviewers_range_Err entries false e Hr)
        as (author & rs & login & Hin & Hl & Hg).
      exists author, rs, login. split; [|auto].
      rewrite Hperm in Hin. apply elem_of_map_to_list in Hin. exact Hin.
    + discriminate.
Qed.

(** In the environment that [New] builds from reviewers that
    [unmarshalReviewers] has returned: the empty login counts as internal;
    an author without an entry gets the reviewers of the empty login; and
    every reviewer that any author can get is a user known to the host. *)
Theorem New_environment_reviewers (m revs : gmap string (list string))
    (entries : list (string * list string)) (clt : option Client) (pr : Metadata) :
  entries ≡ₚ map_to_list m ->
  unmarshalReviewers_decoded Users_Get m entries = Ok revs ->
  let env := New_environment clt revs pr in
  IsInternal env "" = true
  /\ (forall author, IsInternal env author = false ->
        GetReviewersForAuthor env author = GetReviewersForAuthor env "")
  /\ (forall author reviewer, reviewer ∈ GetReviewersForAuthor env author ->
        userKnown Users_Get reviewer).
Proof.
  intros Hperm Hok env.
  apply (unmarshalReviewers_decoded_Ok m revs entries Hperm) in Hok
    as (-> & [defaults Hd] & Hknown).
  subst env. unfold IsInternal, GetReviewersForAuthor, New_environment. simpl.
  rewrite Hd. simpl. split; [reflexivity|]. split.
  - intros author. destruct (m !! author); [discriminate | reflexivity].
  - intros author reviewer. destruct (m !! author) as [rs|] eqn:Ha.
    + intros Hin. destruct (Hknown author rs Ha) as [Hall _].
      rewrite Forall_forall in Hall. auto.
    + intros Hin. destruct (Hknown "" defaults Hd) as [Hall _].
      rewrite Forall_forall in Hall. auto.
Qed.

End ReviewersProperties.

(** Two orders of the range over one map, with two authors that the host
    does not know: the error returned is that of the author met first. *)
Example unmarshalReviewers_error_depends_on_order :
  let first : list (string * list string) := [("ghost1", []); ("ghost2", []); ("", [])] in
  let second : list (string * list string) := [("ghost2", []); ("ghost1", []); ("", [])] in
  first ≡ₚ map_to_list ghost_reviewers
  /\ second ≡ₚ map_to_list ghost_reviewers
  /\ unmarshalReviewers_decoded ghost_users ghost_reviewers first
     = Err (HostError "ghost1 404")
  /\ unmarshalReviewers_decoded ghost_users ghost_reviewers second
     = Err (HostError "ghost2 404").
Proof.
  intros first second.
  assert (first ≡ₚ map_to_list ghost_reviewers) as Hfirst.
  { unfold ghost_reviewers.
    rewrite !map_to_list_insert, map_to_list_empty by (vm_compute; reflexivity).
    reflexivity. }
  split; [exact Hfirst|]. split; [|split; reflexivity].
  rewrite <- Hfirst. apply Permutation_swap.
Qed.

(** ** Properties of the repository name and of the field validation *)

Lemma Contains_byte_nil (sep : Ascii.ascii) : Contains "" (String sep "") = false.
Proof. reflexivity. Qed.

Lemma Contains_byte_cons (a sep : Ascii.ascii) (s : string) :
  Contains (String a s) (String sep "") = bool_decide (a = sep) || Contains s (String sep "").
Proof.
  cbn [Contains]. f_equal. simpl. destruct (Ascii.ascii_dec sep a) as [->|Hne].
  - rewrite bool_decide_eq_true_2 by reflexivity. destruct s; reflexivity.
  - rewrite bool_decide_eq_false_2 by congruence. reflexivity.
Qed.

Lemma noByte_cons (a sep : Ascii.ascii) (s : string) :
  noByte sep (String a s) <-> a <> sep /\ noByte sep s.
Proof.
  unfold noByte. rewrite Contains_byte_cons, orb_false_iff, bool_decide_eq_false. tauto.
Qed.

Lemma Split_not_nil (s : string) (sep : Ascii.ascii) : Split s sep <> [].
Proof.
  destruct s as [|a s]; simpl; [discriminate|].
  destruct (decide (a = sep)); [discriminate|]. destruct (Split s sep); discriminate.
Qed.

Lemma Join_cons_cons (x y : string) (rest : list string) (sep : string) :
  Join (x :: y :: rest) sep = x +:+ sep +:+ Join (y :: rest) sep.
Proof. reflexivity. Qed.

Lemma Join_Split (s : string) (sep : Ascii.ascii) : Join (Split s sep) (String sep "") = s.
Proof.
  induction s as [|a s IH]; [reflexivity|]. simpl.
  pose proof (Split_not_nil s sep) as Hne.
  destruct (Split s sep) as [|piece pieces]; [contradiction|].
  destruct (decide (a = sep)) as [->|Hne'].
  - rewrite Join_cons_cons, IH. reflexivity.
  - destruct pieces as [|q qs].
    + simpl in *. rewrite IH. reflexivity.
    + rewrite Join_cons_cons in *. rewrite <- IH. reflexivity.
Qed.

Lemma Split_noByte (s : string) (sep : Ascii.ascii) : Forall (noByte sep) (Split s sep).
Proof.
  induction s as [|a s IH]; simpl.
  - repeat constructor.
  - destruct (decide (a = sep)) as [->|Hne].
    + constructor; [reflexivity | exact IH].
    + destruct (Split s sep) as [|piece pieces].
      * repeat constructor. apply noByte_cons. split; [exact Hne | reflexivity].
      * apply Forall_cons in IH as [Hp Hps]. constructor; [|exact Hps].
        apply noByte_cons. tauto.
Qed.

Lemma Split_noByte_app (x t : string) (sep : Ascii.ascii) :
  noByte sep x -> Split (x +:+ String sep t) sep = x :: Split t sep.
Proof.
  induction x as [|a x IH]; intros Hx.
  - change ("" +:+ String sep t) with (String sep t). simpl.
    rewrite decide_True by reflexivity. reflexivity.
  - apply noByte_cons in Hx as [Hne Hx].
    change (String a x +:+ String sep t) with (String a (x +:+ String sep t)). simpl.
    rewrite decide_False by exact Hne. rewrite (IH Hx). reflexivity.
Qed.

Lemma Split_noByte_one (x : string) (sep : Ascii.ascii) : noByte sep x -> Split x sep = [x].
Proof.
  induction x as [|a x IH]; intros Hx; [reflexivity|].
  apply noByte_cons in Hx as [Hne Hx]. simpl.
  rewrite decide_False by exact Hne. rewrite (IH Hx). reflexivity.
Qed.

(** [Split] and [Join] with a separator of one byte undo each other: joining
    the pieces of a string gives the string back, the pieces are never none
    and hold no separator; and splitting the join of pieces that hold no
    separator gives the pieces back. *)
Theorem Split_Join_round_trip (sep : Ascii.ascii) :
  (forall s, Join (Split s sep) (String sep "") = s
             /\ Split s sep <> []
             /\ Forall (noByte sep) (Split s sep))
  /\ (forall pieces, pieces <> [] -> Forall (noByte sep) pieces ->
        Split (Join pieces (String sep "")) sep = pieces).
Proof.
  split.
  - intros s. split; [apply Join_Split|]. split; [apply Split_not_nil | apply Split_noByte].
  - intros pieces Hne Hall. induction Hall as [|x pieces Hx Hall IH]; [contradiction|].
    destruct pieces as [|y rest].
    + simpl. apply Split_noByte_one. exact Hx.
    + rewrite Join_cons_cons.
      change (String sep "" +:+ Join (y :: rest) (String sep ""))
        with (String sep (Join (y :: rest) (String sep ""))).
      rewrite (Split_noByte_app _ _ _ Hx). f_equal. apply IH. discriminate.
Qed.

(** [getRepositoryMetadata] returns an owner and a name exactly when the
    value of the variable is the owner, a slash and the name, neither of them
    holding a slash (either may be empty); every other value, the empty one
    included, gives a bad-parameter error, and it never panics. *)
Theorem getRepositoryMetadata_iff (repository : string) :
  (forall owner name,
     getRepositoryMetadata repository = Ok (owner, name)
     <-> repository = owner +:+ "/" +:+ name
         /\ Contains owner "/" = false /\ Contains name "/" = false)
  /\ (forall err, getRepositoryMetadata repository = Err err ->
        exists message, err = BadParameter message [])
  /\ getRepositoryMetadata repository <> Panic.
Proof.
  unfold getRepositoryMetadata.
  pose proof (Join_Split repository slash) as Hjoin.
  pose proof (Split_noByte repository slash) as Hfree.
  destruct (decide (repository = "")) as [->|Hne].
  { rewrite bool_decide_eq_true_2 by reflexivity. split; [|split].
    - intros owner name. split; [discriminate|]. intros (E & _).
      destruct owner; discriminate.
    - intros err [= <-]. eauto.
    - discriminate. }
  rewrite bool_decide_eq_false_2 by exact Hne.
  destruct (Split repository slash) as [|x [|y [|z rest]]] eqn:Hs; simpl.
  - split; [|split]; [|intros err [= <-]; eauto|discriminate].
    intros owner name. split; [discriminate|]. intros (E & Ho & Hn).
    rewrite E in Hs. change (owner +:+ "/" +:+ name) with (owner +:+ String slash name) in Hs.
    rewrite (Split_noByte_app _ _ _ Ho), (Split_noByte_one _ _ Hn) in Hs. discriminate.
  - split; [|split]; [|intros err [= <-]; eauto|discriminate].
    intros owner name. split; [discriminate|]. intros (E & Ho & Hn).
    rewrite E in Hs. change (owner +:+ "/" +:+ name) with (owner +:+ String slash name) in Hs.
    rewrite (Split_noByte_app _ _ _ Ho), (Split_noByte_one _ _ Hn) in Hs. discriminate.
  - split; [|split]; [|discriminate..].
    intros owner name. apply Forall_cons in Hfree as [Hx Hfree].
    apply Forall_cons in Hfree as [Hy _]. split.
    + intros [= <- <-]. split; [|split; assumption]. rewrite <- Hjoin. reflexivity.
    + intros (E & Ho & Hn).
      rewrite E in Hs. change (owner +:+ "/" +:+ name) with (owner +:+ String slash name) in Hs.
      rewrite (Split_noByte_app _ _ _ Ho), (Split_noByte_one _ _ Hn) in Hs.
      injection Hs as -> ->. reflexivity.
  - split; [|split]; [|intros err [= <-]; eauto|discriminate].
    intros owner name. split; [discriminate|]. intros (E & Ho & Hn).
    rewrite E in Hs. change (owner +:+ "/" +:+ name) with (owner +:+ String slash name) in Hs.
    rewrite (Split_noByte_app _ _ _ Ho), (Split_noByte_one _ _ Hn) in Hs. discriminate.
Qed.

Lemma validateField_Ok (field : string) :
  validateField field = Ok tt <-> validFieldString field.
Proof.
  unfold validateField, validFieldString. destruct (decide (field = "")) as [->|Hne].
  - simpl. split; [discriminate | intros [H _]; contradiction].
  - rewrite bool_decide_eq_false_2 by exact Hne. simpl.
    destruct (fieldBytes field); simpl; split; try discriminate; try tauto.
    intros [_ H]. discriminate.
Qed.

Lemma fieldBytes_noByte (field : string) (sep : Ascii.ascii) :
  fieldBytes field = true -> fieldByte sep = false -> noByte sep field.
Proof.
  intros Hf Hsep. induction field as [|a field IH]; [reflexivity|].
  simpl in Hf. apply andb_true_iff in Hf as [Ha Hf].
  apply noByte_cons. split; [congruence | auto].
Qed.

(** [validatePullRequestFields] accepts a pull request exactly when the
    login of the user and the name of the repository of its base and the ref
    of its head are set, not empty, and made of digits, letters, dashes and
    underscores; none of the three then holds a slash; and it never panics. *)
Theorem validatePullRequestFields_Done_iff (pr : PullRequest) :
  (validatePullRequestFields pr = Done tt <->
     exists base user login repo name head ref,
       pull_Base pr = Some base /\ branch_User base = Some user
       /\ user_Login user = Some login
       /\ branch_Repo base = Some repo /\ repo_Name repo = Some name
       /\ pull_Head pr = Some head /\ branch_Ref head = Some ref
       /\ validFieldString login /\ validFieldString name /\ validFieldString ref
       /\ Contains login "/" = false /\ Contains name "/" = false
       /\ Contains ref "/" = false)
  /\ validatePullRequestFields pr <> Panicked.
Proof.
  unfold validatePullRequestFields.
  destruct (pull_Base pr) as [base|];
    [|split; [split; [discriminate | intros (?&?&?&?&?&?&?&H); decompose [and] H; discriminate]
             | discriminate]].
  destruct (branch_User base) as [user|] eqn:Hu;
    [|split; [split; [discriminate | intros (?&?&?&?&?&?&?&H); decompose [and] H; congruence]
             | discriminate]].
  destruct (user_Login user) as [login|] eqn:Hl;
    [|split; [split; [discriminate | intros (?&?&?&?&?&?&?&H); decompose [and] H; congruence]
             | discriminate]].
  destruct (branch_Repo base) as [repo|] eqn:Hr;
    [|split; [split; [discriminate | intros (?&?&?&?&?&?&?&H); decompose [and] H; congruence]
             | discriminate]].
  destruct (repo_Name repo) as [name|] eqn:Hn;
    [|split; [split; [discriminate | intros (?&?&?&?&?&?&?&H); decompose [and] H; congruence]
             | discriminate]].
  destruct (pull_Head pr) as [head|];
    [|split; [split; [discriminate | intros (?&?&?&?&?&?&?&H); decompose [and] H; discriminate]
             | discriminate]].
  destruct (branch_Ref head) as [ref|] eqn:Href;
    [|split; [split; [discriminate | intros (?&?&?&?&?&?&?&H); decompose [and] H; congruence]
             | discriminate]].
  unfold validateField_as.
  pose proof (validateField_Ok login) as H1. pose proof (validateField_Ok name) as H2.
  pose proof (validateField_Ok ref) as H3.
  assert (forall field, validateField field <> Panic) as Hnp.
  { intros field. unfold validateField. destruct (negb _); discriminate. }
  assert (forall field, validFieldString field -> Contains field "/" = false) as Hslash.
  { intros field [_ Hf]. apply (fieldBytes_noByte field slash Hf). reflexivity. }
  split.
  - split.
    + intros H. destruct (validateField login) as [[]|e|]; [|discriminate..].
      destruct (validateField name) as [[]|e|]; [|discriminate..].
      destruct (validateField ref) as [[]|e|]; [|discriminate..].
      exists base, user, login, repo, name, head, ref.
      assert (validFieldString login) by tauto. assert (validFieldString name) by tauto.
      assert (validFieldString ref) by tauto.
      repeat (split; [first [reflexivity | assumption | (apply Hslash; assumption)]|]).
      apply Hslash; assumption.
    + intros (b & u & l & r & n & h & rf & [= <-] & Hu' & Hl' & Hr' & Hn' & [= <-] & Href'
              & Hv1 & Hv2 & Hv3 & _).
      rewrite Hu in Hu'. injection Hu' as <-. rewrite Hl in Hl'. injection Hl' as <-.
      rewrite Hr in Hr'. injection Hr' as <-. rewrite Hn in Hn'. injection Hn' as <-.
      rewrite Href in Href'. injection Href' as <-.
      rewrite (proj2 H1 Hv1), (proj2 H2 Hv2), (proj2 H3 Hv3). reflexivity.
  - pose proof (Hnp login). pose proof (Hnp name). pose proof (Hnp ref).
    destruct (validateField login) as [[]|e|]; [|discriminate|contradiction].
    destruct (validateField name) as [[]|e|]; [|discriminate|contradiction].
    destruct (validateField ref) as [[]|e|]; [discriminate|discriminate|contradiction].
Qed.

(** The cases of [TestValidatePullRequestFields], in the order of the table. *)
Example validatePullRequestFields_test_table :
  let testString := "testString" in
  let base login name :=
    Some {| branch_Ref := None; branch_SHA := None;
            branch_Repo := Some {| repo_Owner := None; repo_Name := name |};
            branch_User := Some {| user_Login := login |} |} in
  let head ref :=
    Some {| branch_Ref := ref; branch_SHA := None; branch_Repo := None; branch_User := None |} in
  let pull b h := {| pull_Number := None; pull_User := None; pull_Base := b; pull_Head := h |} in
  validatePullRequestFields (pull (base (Some testString) (Some testString)) (head None))
    <> Done tt
  /\ validatePullRequestFields
       (pull (base (Some testString) (Some testString)) (head (Some testString))) = Done tt
  /\ validatePullRequestFields (pull (base None (Some testString)) (head (Some testString)))
     <> Done tt
  /\ validatePullRequestFields (pull None (head (Some testString))) <> Done tt
  /\ validatePullRequestFields (pull (base None (Some testString)) None) <> Done tt
  /\ validatePullRequestFields
       (pull (base (Some testString) (Some testString)) (head (Some "&test"))) <> Done tt.
Proof. repeat split; (reflexivity || (vm_compute; discriminate)). Qed.

Example getRepositoryMetadata_examples :
  getRepositoryMetadata "gravitational/gh-actions-poc" = Ok ("gravitational", "gh-actions-poc")
  /\ getRepositoryMetadata "/" = Ok ("", "")
  /\ getRepositoryMetadata "" = Err (BadParameter "environment variable GITHUB_REPOSITORY is not set" [])
  /\ getRepositoryMetadata "a/b/c" <> Ok ("a", "b/c")
  /\ Split "a//b" slash = ["a"; ""; "b"].
Proof. repeat split; (reflexivity || (vm_compute; discriminate)). Qed.

(** ** The further theorems at concrete inputs *)

Lemma mostRecent_distinct_logins_witness :
  NoDup (rev_name <$> [tied_first; other_review])
  /\ mostRecent [tied_first; other_review] [other_review; tied_first].
Proof.
  assert (NoDup (rev_name <$> [tied_first; other_review])) as Hnd.
  { simpl. repeat constructor.
    - intros H. apply list_elem_of_singleton in H. discriminate.
    - intros H. inversion H. }
  split; [exact Hnd|].
  apply (proj1 (mostRecent_distinct_logins [tied_first; other_review] Hnd)).
  apply Permutation_swap.
Defined.

Lemma verifyCommit_reads_only_witness :
  Environment signed_bot = Some signed_env
  /\ (verifyCommit "committer GitHub <noreply@github.com>" signed_bot []).2
     = [CallCompareCommits "Codertocat" "Hello-World"
          "f95f852bd8fca8fcc58a9a2d6c842781e32a215e" "ec26c3e57ca3a959ca5aad62de7213c562f8c821";
        CallGetCommit "Codertocat" "Hello-World" "ec26c3e57ca3a959ca5aad62de7213c562f8c821"].
Proof.
  split; [reflexivity|].
  destruct (verifyCommit_reads_only "committer GitHub <noreply@github.com>"
              signed_bot signed_env test_pr signed_host [] eq_refl eq_refl eq_refl)
    as (_ & Hfetch & _).
  apply Hfetch. eexists. split; reflexivity.
Defined.

Lemma check_succeeds_iff_witness :
  Environment signed_bot = Some signed_env
  /\ env_Metadata signed_env = Some test_pr
  /\ (check_reviews "APPROVED" "committer GitHub <noreply@github.com>" signed_bot
        [stale_approval] []).1 = Ok tt.
Proof.
  split; [reflexivity|]. split; [reflexivity|].
  apply (proj2 (check_succeeds_iff "APPROVED" "committer GitHub <noreply@github.com>"
                  signed_bot signed_env test_pr [stale_approval] [] eq_refl eq_refl)).
  split; [discriminate|]. split.
  - vm_compute GetReviewersForAuthor. repeat constructor.
  - right. right. vm_compute. reflexivity.
Defined.

Lemma check_sends_only_ListReviews_witness :
  let listing := CallListReviews "Codertocat" "Hello-World" 2 in
  IsInternal changed_env (Author test_pr) = false
  /\ check "APPROVED" "committer GitHub <noreply@github.com>" changed_bot
       lists_head_approval [] (Done tt, [listing])
  /\ (forall out,
        check "APPROVED" "committer GitHub <noreply@github.com>" changed_bot
          lists_head_approval [] out ->
        out.2 = [listing]).
Proof.
  intros listing. split; [vm_compute; reflexivity|].
  assert (check "APPROVED" "committer GitHub <noreply@github.com>" changed_bot
            lists_head_approval [] (Done tt, [listing])) as Hcheck.
  { exists (Done [head_approval], [listing]). split.
    - exists (Done [head_approval]). split; [|reflexivity].
      apply (getReviews_from_intro _ [head_approval]); [reflexivity|].
      exists (<["test-user" := head_approval]> ∅). split; [vm_compute; reflexivity|].
      rewrite insert_empty, map_to_list_singleton. reflexivity.
    - vm_compute. reflexivity. }
  split; [exact Hcheck|]. intros out Hout.
  apply (check_sends_only_ListReviews "APPROVED" "committer GitHub <noreply@github.com>"
           changed_bot changed_env test_pr changed_host lists_head_approval [] out
           eq_refl eq_refl eq_refl); [|exact Hout].
  right. eexists. split; [reflexivity|]. repeat constructor.
Defined.

Lemma check_invalidates_on_failed_verification_witness :
  verifyCommit "committer GitHub <noreply@github.com>" changed_bot []
  = (Err (BadParameter "detected file change" []),
     [CallCompareCommits "Codertocat" "Hello-World"
        "f95f852bd8fca8fcc58a9a2d6c842781e32a215e" "ec26c3e57ca3a959ca5aad62de7213c562f8c821"])
  /\ check_reviews "APPROVED" "committer GitHub <noreply@github.com>" changed_bot
       [stale_approval] []
     = (Err (BadParameter "detected file change" []),
        [CallCompareCommits "Codertocat" "Hello-World"
           "f95f852bd8fca8fcc58a9a2d6c842781e32a215e" "ec26c3e57ca3a959ca5aad62de7213c562f8c821";
         CallDismissReview "Codertocat" "Hello-World" 2 7
           "new commit pushed, please re-review @test-user"]).
Proof.
  assert (verifyCommit "committer GitHub <noreply@github.com>" changed_bot []
          = (Err (BadParameter "detected file change" []),
             [CallCompareCommits "Codertocat" "Hello-World"
                "f95f852bd8fca8fcc58a9a2d6c842781e32a215e"
                "ec26c3e57ca3a959ca5aad62de7213c562f8c821"])) as Hv
    by (vm_compute; reflexivity).
  split; [exact Hv|].
  destruct (check_invalidates_on_failed_verification "APPROVED"
              "committer GitHub <noreply@github.com>" changed_bot changed_env test_pr
              changed_host [stale_approval] [] _ _ eq_refl eq_refl eq_refl
              ltac:(vm_compute; reflexivity) ltac:(vm_compute; reflexivity)
              ltac:(vm_compute; reflexivity) Hv) as (_ & _ & Hall).
  rewrite Hall by (intros; reflexivity). vm_compute. reflexivity.
Defined.

Lemma HasWorkflowRunApproval_cases_witness :
  Environment changed_bot = Some changed_env
  /\ IsInternal changed_env (Author test_pr) = false
  /\ HasWorkflowRunApproval changed_bot one_comment = Ok tt.
Proof.
  split; [reflexivity|]. split; [vm_compute; reflexivity|].
  destruct (HasWorkflowRunApproval_cases changed_bot changed_env test_pr one_comment
              eq_refl eq_refl) as (_ & Hext).
  destruct Hext as (_ & _ & Hcomments); [vm_compute; reflexivity | eexists; reflexivity|].
  destruct Hcomments as [Hiff _]; [eexists; reflexivity | reflexivity | |].
  - repeat constructor; try (eexists; reflexivity).
    eexists. split; [reflexivity | eexists; reflexivity].
  - apply Hiff. left. split; [reflexivity|]. split.
    + eexists. split; [reflexivity | vm_compute; reflexivity].
    + eexists. eexists. split; [reflexivity|]. split; [reflexivity|].
      vm_compute GetReviewersForAuthor. left.
Defined.

Lemma workflow_not_found_witness :
  Actions_ListWorkflows signed_host [] "Codertocat" "Hello-World" = Ok []
  /\ DismissStaleWorkflowRuns "Check" sortByCreatedAt signed_bot
       "Codertocat" "Hello-World" "changes" []
     = (Err (NotFound "workflow %s not found" ["Check"]),
        [CallListWorkflows "Codertocat" "Hello-World"]).
Proof.
  split; [reflexivity|].
  apply (workflow_not_found "Check" "Assign" sortByCreatedAt signed_bot signed_host
           "Codertocat" "Hello-World" "changes" [] [] eq_refl eq_refl).
  constructor.
Defined.

Lemma known_users_test_reviewers :
  forall author rs, test_reviewers !! author = Some rs ->
    Forall (userKnown known_users) rs /\ (author <> "" -> userKnown known_users author).
Proof.
  intros author rs H. unfold test_reviewers in H.
  destruct (decide (author = "foo")) as [->|Hfoo].
  - rewrite lookup_insert_eq in H. injection H as <-. split.
    + repeat constructor; eexists; vm_compute; reflexivity.
    + intros _. eexists. vm_compute. reflexivity.
  - rewrite lookup_insert_ne in H by congruence.
    destruct (decide (author = "")) as [->|Hempty].
    + rewrite lookup_insert_eq in H. injection H as <-. split; [|contradiction].
      repeat constructor; eexists; vm_compute; reflexivity.
    + rewrite lookup_insert_ne, lookup_empty in H by congruence. discriminate.
Defined.

Lemma unmarshalReviewers_Ok_iff_witness :
  map_to_list test_reviewers ≡ₚ map_to_list test_reviewers
  /\ unmarshalReviewers_decoded known_users test_reviewers (map_to_list test_reviewers)
     = Ok test_reviewers.
Proof.
  split; [reflexivity|].
  apply (proj1 (unmarshalReviewers_Ok_iff known_users test_reviewers
                  (map_to_list test_reviewers) (reflexivity _)) test_reviewers).
  split; [reflexivity|]. split; [eexists; vm_compute; reflexivity|].
  exact known_users_test_reviewers.
Defined.

Lemma New_environment_reviewers_witness :
  unmarshalReviewers_decoded known_users test_reviewers (map_to_list test_reviewers)
  = Ok test_reviewers
  /\ IsInternal (New_environment None test_reviewers test_pr) "" = true
  /\ GetReviewersForAuthor (New_environment None test_reviewers test_pr) "Codertocat"
     = GetReviewersForAuthor (New_environment None test_reviewers test_pr) "".
Proof.
  assert (unmarshalReviewers_decoded known_users test_reviewers (map_to_list test_reviewers)
          = Ok test_reviewers) as Hok by (vm_compute; reflexivity).
  split; [exact Hok|].
  destruct (New_environment_reviewers known_users test_reviewers test_reviewers
              (map_to_list test_reviewers) None test_pr (reflexivity _) Hok)
    as (Hi & Hext & _).
  split; [exact Hi|]. apply Hext. vm_compute. reflexivity.
Defined.

Lemma pruning_only_lists_and_deletes_witness :
  let sweep :=
    DimissStaleWorkflowRunsForExternalContributors "Check" sortByCreatedAt branch_bot
      lists_one_pull "Codertocat" "Hello-World" in
  (sweep []).2
  = [CallListPullRequests "Codertocat" "Hello-World";
     CallListWorkflows "Codertocat" "Hello-World";
     CallListWorkflowRunsByID "Codertocat" "Hello-World" 10 "changes";
     CallDeleteRun "Codertocat" "Hello-World" 1;
     CallDeleteRun "Codertocat" "Hello-World" 4]
  /\ exists pruning,
       (sweep []).2 = CallListPullRequests "Codertocat" "Hello-World" :: pruning
       /\ Forall isPruneCall pruning.
Proof.
  intros sweep. split; [vm_compute; reflexivity|].
  destruct (pruning_only_lists_and_deletes "Check" sortByCreatedAt branch_bot
              "Codertocat" "Hello-World" "changes" lists_one_pull) as (_ & _ & H).
  apply (H []). eexists. reflexivity.
Defined.
